(** * ATLS: the audit-trail log service

    A shallow embedding of the tenant-isolated ingestion and query engine:

    - [src/middleware/auth.js]            credential check, resolves the tenant;
    - [src/middleware/tenantContext.js]   acquires a pooled session and binds it;
    - [src/routes/auditRoutes.js]         zod schemas and the four route handlers
                                          (with [src/index.js], which mounts
                                          [auth], [tenantContext] and the router);
    - [src/services/auditService.js]      [storeBatchLogs], [getUserLogs],
                                          [getAppLogs], [searchLogs];
    - [src/config/db.js]                  the connection pool;
    - [src/client/offline-logger.js]      the offline client, [OfflineLogger];
    - [migrations/001_initial-schema.js]  the table, its unique key and the
                                          row-level-security policy.

    JavaScript and PostgreSQL builtins whose internals are outside the
    repository (number coercion, date parsing, JSON text, the uuid generator)
    are fields of the [Platform] class; every theorem holds for every platform. *)

From Stdlib Require Import String Ascii List ZArith Lia Bool Arith.
From Stdlib Require Import Sorted Permutation DecimalString.
Import ListNotations.
Local Open Scope string_scope.
Local Open Scope list_scope.
Set Warnings "-register-all".

(* ===================================================================== *)
(** * JavaScript values *)
(* ===================================================================== *)

Module Js.

(** Values as they arrive in [req.body] (parsed JSON) and in [req.query]
    (strings, arrays and nested objects produced by the query-string parser).
    [JNum] carries integer literals; no modelled code computes with numbers
    found in a body.  A missing property ([undefined]) is [None]. *)
Inductive jsval : Type :=
| JNull
| JBool (b : bool)
| JNum (n : Z)
| JStr (s : string)
| JArr (items : list jsval)
| JObj (fields : list (string * jsval)).

Definition obj := list (string * jsval).

(** Property read [o[k]]. *)
Fixpoint get (k : string) (o : obj) : option jsval :=
  match o with
  | [] => None
  | (k', v) :: o' => if String.eqb k k' then Some v else get k o'
  end.

(** [if (v)], [!v], [v || d]: JavaScript truthiness. *)
Definition truthy (v : option jsval) : bool :=
  match v with
  | None => false
  | Some JNull => false
  | Some (JBool b) => b
  | Some (JNum n) => negb (n =? 0)%Z
  | Some (JStr s) => negb (s =? "")
  | Some (JArr _) => true
  | Some (JObj _) => true
  end.

(** Truthiness of a value already known to be a string or undefined. *)
Definition nonempty (s : option string) : bool :=
  match s with
  | Some s => negb (s =? "")
  | None => false
  end.

(** [s || null] *)
Definition or_null (s : option string) : option string :=
  if nonempty s then s else None.

(** [str.replace(/c/g, by)] for a one-character pattern. *)
Fixpoint replace_all (c : ascii) (by_ : string) (s : string) : string :=
  match s with
  | EmptyString => EmptyString
  | String a s' =>
      if Ascii.eqb a c then by_ ++ replace_all c by_ s'
      else String a (replace_all c by_ s')
  end.

(** [str.slice(0, n)] *)
Definition slice0 (n : nat) (s : string) : string := substring 0 n s.

(** Decimal rendering of a placeholder index, as in [`$${idx}`]. *)
Definition dec (n : nat) : string := NilZero.string_of_uint (Nat.to_uint n).

End Js.
Export Js.

(** Builtins of the JavaScript runtime, of zod and of PostgreSQL that the
    repository calls but does not define. *)
Class Platform : Type := {
  (** [Number(v)] as used by [z.coerce.number().int()]: the integer it denotes,
      [None] when the result is NaN, infinite or has a fractional part. *)
  js_Number : jsval -> option Z;
  (** [String(v)] for a value that is not already a string (property keys). *)
  js_String : jsval -> string;
  (** [z.string().datetime({ offset: true })] *)
  zod_datetime : string -> bool;
  (** [new Date(s).getTime()], [None] for an Invalid Date. *)
  Date_parse : string -> option Z;
  (** [date.toISOString()] *)
  toISOString : Z -> string;
  (** [JSON.stringify] and [JSON.parse] ([None]: a SyntaxError is thrown). *)
  JSON_stringify : jsval -> string;
  JSON_parse : string -> option jsval;
  (** The driver's text encoding of a parameter that is not a string. *)
  pg_prepareValue : jsval -> string;
  (** PostgreSQL's [jsonb] input function ([None]: invalid input syntax) and
      the containment operator [@>]. *)
  jsonb_in : string -> option jsval;
  jsonb_contains : jsval -> jsval -> bool
}.

(* ===================================================================== *)
(** * The store: table, session, statements *)
(* ===================================================================== *)

Module Pg.

(** One row of [tbl_audit_trail_logs] (migrations/001_initial-schema.js). *)
Record Row : Type := {
  id : Z;
  process_id : string;
  comp_code : string;
  emp_id : option string;
  source_app : string;
  source_function : option string;
  reference_id : option string;
  action : string;
  description : option string;
  metadata : option jsval;
  created_by : string;
  created_at : Z;
  app_version : option string;
  batch_id : option string
}.

(** The thirteen values bound to [$1 .. $13] of the INSERT statement. *)
Record InsertValues : Type := {
  v_process_id : string;
  v_comp_code : string;
  v_emp_id : option string;
  v_source_app : string;
  v_source_function : option string;
  v_reference_id : option string;
  v_action : string;
  v_description : option string;
  v_metadata : string;
  v_created_by : string;
  v_created_at : option Z;
  v_app_version : option string;
  v_batch_id : string
}.

Inductive Column : Type :=
| c_comp_code | c_emp_id | c_source_app | c_source_function | c_reference_id
| c_created_by | c_action | c_created_at | c_metadata.

Inductive Cmp : Type := OpEq | OpGe | OpLe | OpContains.

(** One conjunct [col <op> $ph] of a WHERE clause. *)
Record Cond : Type := { c_col : Column; c_cmp : Cmp; c_ph : nat }.

(** A bound parameter. *)
Inductive Param : Type :=
| PText (s : string)
| PNull
| PVal (v : jsval)
| PDate (t : option Z)
| PNum (n : Z).

(** The statements the service sends through [client.query]. *)
Inductive Stmt : Type :=
| SRaw (text : string)
| SShowTenant
| SBegin
| SCommit
| SRollback
| SInsert (v : InsertValues)
| SCount (conds : list Cond) (params : list Param)
| SSelect (conds : list Cond) (limit_ph offset_ph : nat) (params : list Param).

Inductive Reply : Type :=
| RDone
| RTenant (t : string)
| RCount (n : Z)
| RRows (rows : list Row).

(** An open transaction: its working copy of the table, whether a statement
    failed inside it, and the tenant setting to restore if it rolls back. *)
Record Txn : Type := {
  work : list Row;
  aborted : bool;
  tenant_at_begin : option string
}.

(** A pooled connection: the session variable [app.current_tenant], the open
    transaction if any, and the statements it was sent, each with whether
    it succeeded. *)
Record Session : Type := {
  current_tenant : option string;
  txn : option Txn;
  history : list (Stmt * bool)
}.

(** The committed table and its [bigserial] sequence. *)
Record Store : Type := {
  table : list Row;
  next_id : Z
}.

(** ** Column types *)

Fixpoint all_spaces (s : string) : bool :=
  match s with
  | EmptyString => true
  | String a s' => Ascii.eqb a " " && all_spaces s'
  end.

(** Assignment to a [varchar(n)] column: a longer value is an error unless
    everything beyond [n] characters is spaces, which are cut off. *)
Definition varchar (n : nat) (s : string) : option string :=
  if (String.length s <=? n)%nat then Some s
  else if all_spaces (substring n (String.length s - n) s) then Some (substring 0 n s)
  else None.

Definition varchar_null (n : nat) (s : option string) : option (option string) :=
  match s with
  | None => Some None
  | Some s => option_map Some (varchar n s)
  end.

(** A character string of PostgreSQL holds no zero byte: a text parameter
    with U+0000 in it is refused, whatever the column it is meant for. *)
Fixpoint has_nul (s : string) : bool :=
  match s with
  | EmptyString => false
  | String a s' => Ascii.eqb a Ascii.zero || has_nul s'
  end.

Definition nul_free (s : option string) : bool :=
  match s with
  | Some s => negb (has_nul s)
  | None => true
  end.

(** The text values of an INSERT that come from the request, or may.  The
    other two are made by the service: the batch id of a date and of
    hexadecimal digits, the metadata by [JSON.stringify], which escapes
    U+0000 (whether the store takes the escape is up to [jsonb_in]). *)
Definition sendable (v : InsertValues) : bool :=
  negb (has_nul (v_process_id v)) && negb (has_nul (v_comp_code v)) &&
  nul_free (v_emp_id v) && negb (has_nul (v_source_app v)) &&
  nul_free (v_source_function v) && nul_free (v_reference_id v) &&
  negb (has_nul (v_action v)) && nul_free (v_description v) &&
  negb (has_nul (v_created_by v)) && nul_free (v_app_version v).

Definition int8_max : Z := 9223372036854775807.

(** Binding of a [LIMIT] or [OFFSET] argument. *)
Definition as_count (p : option Param) : option nat :=
  match p with
  | Some (PNum n) => if (0 <=? n)%Z && (n <=? int8_max)%Z then Some (Z.to_nat n) else None
  | _ => None
  end.

(** [$ph] looked up in the parameter array ([$1] is the first element). *)
Definition param_at (params : list Param) (ph : nat) : option Param :=
  match ph with
  | O => None
  | S i => nth_error params i
  end.

(** ** The bind statement

    [SET app.current_tenant = '<literal>'] is sent as raw text, so the store
    lexes the string constant itself: inside the quotes a doubled quote
    stands for one quote and a single one closes the constant
    (standard-conforming strings). *)

Definition set_prefix : string := "SET app.current_tenant = ".

Fixpoint lex_literal (s : string) : option (string * string) :=
  match s with
  | EmptyString => None
  | String a s' =>
      if Ascii.eqb a "'" then
        match s' with
        | String b s'' =>
            if Ascii.eqb b "'" then
              match lex_literal s'' with
              | Some (v, rest) => Some (String "'" v, rest)
              | None => None
              end
            else Some (EmptyString, s')
        | EmptyString => Some (EmptyString, EmptyString)
        end
      else
        match lex_literal s' with
        | Some (v, rest) => Some (String a v, rest)
        | None => None
        end
  end.

Fixpoint strip_prefix (p s : string) : option string :=
  match p, s with
  | EmptyString, _ => Some s
  | String a p', String b s' => if Ascii.eqb a b then strip_prefix p' s' else None
  | String _ _, EmptyString => None
  end.

(** The value a raw statement assigns to [app.current_tenant]; [None] when
    the text is not exactly one such SET statement (text that continues after
    the constant is reported as an error, it is not interpreted). *)
Definition parse_set (text : string) : option string :=
  match strip_prefix set_prefix text with
  | Some (String q body) =>
      if Ascii.eqb q "'" then
        match lex_literal body with
        | Some (v, EmptyString) => Some v
        | _ => None
        end
      else None
  | _ => None
  end.

(** ** Ordering *)

Fixpoint insert_desc (r : Row) (l : list Row) : list Row :=
  match l with
  | [] => [r]
  | x :: l' => if (created_at x <? created_at r)%Z then r :: l else x :: insert_desc r l'
  end.

(** [ORDER BY created_at DESC]; rows with equal timestamps come out in an
    order the store is free to choose, here the one insertion sort gives. *)
Definition order_by_created_at_desc (l : list Row) : list Row :=
  fold_right insert_desc [] l.

(** ** Session updates *)

Definition with_tenant (t : option string) (c : Session) : Session :=
  {| current_tenant := t; txn := txn c; history := history c |}.

Definition with_txn (t : option Txn) (c : Session) : Session :=
  {| current_tenant := current_tenant c; txn := t; history := history c |}.

Definition record (s : Stmt) (ok : bool) (c : Session) : Session :=
  {| current_tenant := current_tenant c; txn := txn c; history := history c ++ [(s, ok)] |}.

(** A statement that fails inside a transaction puts it in the aborted state. *)
Definition fail_in_txn (c : Session) : Session :=
  match txn c with
  | Some t => with_txn (Some {| work := work t; aborted := true;
                                tenant_at_begin := tenant_at_begin t |}) c
  | None => c
  end.

(** Rolling back also undoes a SET made inside the transaction. *)
Definition rolled_back (t : Txn) (c : Session) : Session :=
  {| current_tenant := tenant_at_begin t; txn := None; history := history c |}.

Definition in_aborted_txn (c : Session) : bool :=
  match txn c with
  | Some t => aborted t
  | None => false
  end.

Definition ends_txn (s : Stmt) : bool :=
  match s with
  | SCommit | SRollback => true
  | _ => false
  end.

(** The rows a statement of this session sees. *)
Definition visible (db : Store) (c : Session) : list Row :=
  match txn c with
  | Some t => work t
  | None => table db
  end.

(** Writing the visible rows back: into the working copy of the open
    transaction, or straight into the table in autocommit mode. *)
Definition write (rows : list Row) (id' : Z) (db : Store) (c : Session) : Store * Session :=
  match txn c with
  | Some t => ({| table := table db; next_id := id' |},
               with_txn (Some {| work := rows; aborted := aborted t;
                                 tenant_at_begin := tenant_at_begin t |}) c)
  | None => ({| table := rows; next_id := id' |}, c)
  end.

(** The policy [tenant_isolation]: [USING (comp_code = current_setting(..))]
    and the same expression [WITH CHECK]. *)
Definition tenant_isolation (tenant : string) (r : Row) : bool :=
  comp_code r =? tenant.

Section Exec.
Context {P : Platform}.

(** Conversion of the bound values to the column types. *)
Definition coerce_row (i : Z) (v : InsertValues) : option Row :=
  if sendable v then
    match varchar 100 (v_process_id v), varchar 50 (v_comp_code v),
          varchar_null 50 (v_emp_id v), varchar 100 (v_source_app v),
          varchar_null 150 (v_source_function v), varchar_null 150 (v_reference_id v),
          varchar 100 (v_action v), jsonb_in (v_metadata v),
          varchar 50 (v_created_by v), v_created_at v,
          varchar_null 20 (v_app_version v), varchar 100 (v_batch_id v) with
    | Some pid, Some cc, Some emp, Some app, Some fn, Some ref,
      Some act, Some md, Some by_, Some at_, Some ver, Some bid =>
        Some {| id := i; process_id := pid; comp_code := cc; emp_id := emp;
                source_app := app; source_function := fn; reference_id := ref;
                action := act; description := v_description v; metadata := Some md;
                created_by := by_; created_at := at_; app_version := ver;
                batch_id := Some bid |}
    | _, _, _, _, _, _, _, _, _, _, _, _ => None
    end
  else None.

Definition text_column (c : Column) (r : Row) : option (option string) :=
  match c with
  | c_comp_code => Some (Some (comp_code r))
  | c_emp_id => Some (emp_id r)
  | c_source_app => Some (Some (source_app r))
  | c_source_function => Some (source_function r)
  | c_reference_id => Some (reference_id r)
  | c_created_by => Some (Some (created_by r))
  | c_action => Some (Some (action r))
  | c_created_at | c_metadata => None
  end.

Definition is_text_column (c : Column) : bool :=
  match c with
  | c_created_at | c_metadata => false
  | _ => true
  end.

Definition text_is (c : Column) (s : string) (r : Row) : bool :=
  match text_column c r with
  | Some (Some x) => x =? s
  | _ => false
  end.

(** One conjunct with its parameter bound: the row predicate it denotes, or
    [None] when the statement is rejected (missing parameter, a value that is
    not of the column's type, text with U+0000 in it, invalid [jsonb] text,
    an Invalid Date). *)
Definition bind_cond (params : list Param) (c : Cond) : option (Row -> bool) :=
  match c_cmp c, c_col c, param_at params (c_ph c) with
  | OpEq, col, Some (PText s) =>
      if is_text_column col && negb (has_nul s) then Some (text_is col s) else None
  | OpEq, col, Some (PVal v) =>
      let s := match v with JStr s => s | _ => pg_prepareValue v end in
      if is_text_column col && negb (has_nul s) then Some (text_is col s) else None
  | OpEq, col, Some PNull =>
      if is_text_column col then Some (fun _ => false) else None
  | OpGe, c_created_at, Some (PDate (Some t)) => Some (fun r => (t <=? created_at r)%Z)
  | OpLe, c_created_at, Some (PDate (Some t)) => Some (fun r => (created_at r <=? t)%Z)
  | OpContains, c_metadata, Some (PText s) =>
      match jsonb_in s with
      | Some d => Some (fun r => match metadata r with
                                 | Some m => jsonb_contains m d
                                 | None => false
                                 end)
      | None => None
      end
  | _, _, _ => None
  end.

(** The WHERE clause: the conjunction of its conjuncts. *)
Fixpoint bind_where (params : list Param) (conds : list Cond) : option (Row -> bool) :=
  match conds with
  | [] => Some (fun _ => true)
  | c :: cs =>
      match bind_cond params c, bind_where params cs with
      | Some p, Some q => Some (fun r => p r && q r)
      | _, _ => None
      end
  end.

(** The highest placeholder a WHERE clause mentions; a statement must be
    sent with exactly as many parameters as its highest placeholder. *)
Definition max_ph (conds : list Cond) : nat :=
  fold_right (fun c m => Nat.max (c_ph c) m) 0 conds.

(** The rows a SELECT or COUNT ranges over: those the policy lets through and
    the WHERE clause keeps. *)
Definition matching (tenant : string) (p : Row -> bool) (rows : list Row) : list Row :=
  filter p (filter (tenant_isolation tenant) rows).

Definition run (s : Stmt) (db : Store) (c : Session) : option Reply * Store * Session :=
  match s with
  | SRaw text =>
      match parse_set text with
      | Some v => (Some RDone, db, with_tenant (Some v) c)
      | None => (None, db, c)
      end
  | SShowTenant =>
      match current_tenant c with
      | Some t => (Some (RTenant t), db, c)
      | None => (None, db, c)
      end
  | SBegin =>
      match txn c with
      | Some _ => (Some RDone, db, c)
      | None => (Some RDone, db,
                 with_txn (Some {| work := table db; aborted := false;
                                   tenant_at_begin := current_tenant c |}) c)
      end
  | SCommit =>
      match txn c with
      | None => (Some RDone, db, c)
      | Some t =>
          if aborted t then (Some RDone, db, rolled_back t c)
          else (Some RDone, {| table := work t; next_id := next_id db |}, with_txn None c)
      end
  | SRollback =>
      match txn c with
      | None => (Some RDone, db, c)
      | Some t => (Some RDone, db, rolled_back t c)
      end
  | SInsert v =>
      match current_tenant c, coerce_row (next_id db) v with
      | Some tenant, Some r =>
          if tenant_isolation tenant r then
            if existsb (fun r' => process_id r' =? process_id r) (visible db c)
            then (* ON CONFLICT (process_id) DO NOTHING *)
              let (db', c') := write (visible db c) (next_id db + 1) db c in
              (Some RDone, db', c')
            else
              let (db', c') := write (visible db c ++ [r]) (next_id db + 1) db c in
              (Some RDone, db', c')
          else (None, db, c)
      | _, _ => (None, db, c)
      end
  | SCount conds params =>
      match current_tenant c, bind_where params conds with
      | Some tenant, Some p =>
          if (List.length params =? max_ph conds)%nat
          then (Some (RCount (Z.of_nat (List.length (matching tenant p (visible db c))))), db, c)
          else (None, db, c)
      | _, _ => (None, db, c)
      end
  | SSelect conds limit_ph offset_ph params =>
      match current_tenant c, bind_where params conds,
            as_count (param_at params limit_ph), as_count (param_at params offset_ph) with
      | Some tenant, Some p, Some lim, Some off =>
          if (List.length params =? Nat.max (max_ph conds) (Nat.max limit_ph offset_ph))%nat
          then (Some (RRows (firstn lim (skipn off
                    (order_by_created_at_desc (matching tenant p (visible db c)))))), db, c)
          else (None, db, c)
      | _, _, _, _ => (None, db, c)
      end
  end.

(** One round trip.  [fault] says that the environment fails this statement
    for a reason the model does not compute (connection lost, timeout, an
    encoding the server refuses).  Inside an aborted transaction everything
    but COMMIT and ROLLBACK is refused. *)
Definition attempt (fault : bool) (s : Stmt) (db : Store) (c : Session)
  : option Reply * Store * Session :=
  if fault then (None, db, c)
  else if in_aborted_txn c && negb (ends_txn s) then (None, db, c)
  else run s db c.

Definition exec (fault : bool) (s : Stmt) (db : Store) (c : Session)
  : option Reply * Store * Session :=
  match attempt fault s db c with
  | (Some r, db', c') => (Some r, db', record s true c')
  | (None, db', c') => (None, db', record s false (fail_in_txn c'))
  end.

End Exec.

(** ** Statement text

    The text the service concatenates for a COUNT or SELECT, recovered from
    the structured statement. *)

Definition column_name (c : Column) : string :=
  match c with
  | c_comp_code => "comp_code"
  | c_emp_id => "emp_id"
  | c_source_app => "source_app"
  | c_source_function => "source_function"
  | c_reference_id => "reference_id"
  | c_created_by => "created_by"
  | c_action => "action"
  | c_created_at => "created_at"
  | c_metadata => "metadata"
  end.

Definition render_cond (c : Cond) : string :=
  match c_cmp c with
  | OpEq => column_name (c_col c) ++ " = $" ++ dec (c_ph c)
  | OpGe => column_name (c_col c) ++ " >= $" ++ dec (c_ph c)
  | OpLe => column_name (c_col c) ++ " <= $" ++ dec (c_ph c)
  | OpContains => column_name (c_col c) ++ " @> $" ++ dec (c_ph c) ++ "::jsonb"
  end.

Fixpoint render_where (conds : list Cond) : string :=
  match conds with
  | [] => ""
  | [c] => render_cond c
  | c :: cs => render_cond c ++ " AND " ++ render_where cs
  end.

Definition render (s : Stmt) : string :=
  match s with
  | SRaw text => text
  | SShowTenant => "SELECT current_setting('app.current_tenant') AS tenant"
  | SBegin => "BEGIN"
  | SCommit => "COMMIT"
  | SRollback => "ROLLBACK"
  | SInsert _ => "INSERT INTO tbl_audit_trail_logs (process_id, comp_code, emp_id, source_app, source_function, reference_id, action, description, metadata, created_by, created_at, app_version, batch_id) VALUES ($1, $2, $3, $4, $5, $6, $7, $8, $9, $10, $11, $12, $13) ON CONFLICT (process_id) DO NOTHING"
  | SCount conds _ =>
      "SELECT COUNT(*) FROM tbl_audit_trail_logs WHERE " ++ render_where conds
  | SSelect conds l o _ =>
      "SELECT * FROM tbl_audit_trail_logs WHERE " ++ render_where conds
      ++ " ORDER BY created_at DESC LIMIT $" ++ dec l ++ " OFFSET $" ++ dec o
  end.

End Pg.
Export Pg.

(* ===================================================================== *)
(** * The service: src/services/auditService.js *)
(* ===================================================================== *)

Module Service.

(** What the process reads from outside: the clock at its successive
    readings, the successive draws of the uuid generator, for each
    statement sent whether the environment fails it, and whether the caller
    of the request at hand has closed the connection by the time its answer
    is written; with the number of readings, draws and statements so far. *)
Record Env : Type := {
  time_at : nat -> Z;
  uuid_at : nat -> string;
  fault_at : nat -> bool;
  caller_gone : bool;
  n_time : nat;
  n_uuid : nat;
  n_stmt : nat
}.

(** The state a service call runs in: the store, the [client] it was handed
    (a mutable object in the source) and the environment. *)
Record St : Type := { db : Store; client : Session; env : Env }.

(** Thrown values: a rejected [client.query] (with the number of the
    statement that failed) or a JavaScript TypeError. *)
Inductive Err : Type :=
| DbError (stmt_no : nat)
| TypeError.

Inductive Res (A : Type) : Type :=
| Ok (a : A)
| Throw (e : Err).
Arguments Ok {A} a.
Arguments Throw {A} e.

(** Async functions as state transformers that return or throw; effects
    made before a throw stay. *)
Definition M (A : Type) : Type := St -> Res A * St.

Definition ret {A} (a : A) : M A := fun st => (Ok a, st).

Definition bind {A B} (m : M A) (k : A -> M B) : M B :=
  fun st =>
    match m st with
    | (Ok a, st') => k a st'
    | (Throw e, st') => (Throw e, st')
    end.

Definition throw {A} (e : Err) : M A := fun st => (Throw e, st).

(** [try { body } catch (err) { handler(err) }] *)
Definition try_catch {A} (body : M A) (handler : Err -> M A) : M A :=
  fun st =>
    match body st with
    | (Ok a, st') => (Ok a, st')
    | (Throw e, st') => handler e st'
    end.

Declare Scope js_scope.
Delimit Scope js_scope with js.
Notation "x <- m ;; k" := (bind m (fun x => k))
  (at level 61, m at next level, right associativity) : js_scope.
Notation "m ;; k" := (bind m (fun _ => k))
  (at level 61, right associativity) : js_scope.
Local Open Scope js_scope.

(** [for (const x of xs) { await body(x) }] *)
Fixpoint for_each {A} (body : A -> M unit) (xs : list A) : M unit :=
  match xs with
  | [] => ret tt
  | x :: xs' => body x ;; for_each body xs'
  end.

(** [new Date()] *)
Definition new_Date : M Z :=
  fun st =>
    let e := env st in
    (Ok (time_at e (n_time e)),
     {| db := db st; client := client st;
        env := {| time_at := time_at e; uuid_at := uuid_at e; fault_at := fault_at e;
                  caller_gone := caller_gone e;
                  n_time := S (n_time e); n_uuid := n_uuid e; n_stmt := n_stmt e |} |}).

(** [uuidv4()] *)
Definition uuidv4 : M string :=
  fun st =>
    let e := env st in
    (Ok (uuid_at e (n_uuid e)),
     {| db := db st; client := client st;
        env := {| time_at := time_at e; uuid_at := uuid_at e; fault_at := fault_at e;
                  caller_gone := caller_gone e;
                  n_time := n_time e; n_uuid := S (n_uuid e); n_stmt := n_stmt e |} |}).

Definition sent (e : Env) : Env :=
  {| time_at := time_at e; uuid_at := uuid_at e; fault_at := fault_at e;
     caller_gone := caller_gone e;
     n_time := n_time e; n_uuid := n_uuid e; n_stmt := S (n_stmt e) |}.

Record Log : Type := {
  l_emp_id : option string;
  l_process_id : option string;
  l_source_app : string;
  l_source_function : option string;
  l_reference_id : option string;
  l_action : string;
  l_description : option string;
  l_created_at : option string;
  l_metadata : jsval
}.

(** The validated batch payload ([batchSchema]'s output type). *)
Record Payload : Type := {
  p_comp_code : string;
  p_app_version : option string;
  p_created_by : string;
  logs : list Log
}.

Record BatchResult : Type := { r_batch_id : string; total_received : nat }.

(** The filter object handed to the three retrieval functions.  The two
    handlers that build it from validated input put strings in it; the
    by-application handler copies [source_function] unvalidated. *)
Record Filters : Type := {
  f_comp_code : string;
  f_limit : Z;
  f_offset : Z;
  f_from : option string;
  f_to : option string;
  f_emp_id : option string;
  f_source_app : option string;
  f_source_function : option jsval;
  f_reference_id : option string;
  f_created_by : option string;
  f_action : option string;
  f_metadata : option string
}.

Record Page : Type := { rows : list Row; total_count : Z }.

(** The statement under construction: conjuncts, parameters, next index. *)
Definition Sql : Type := list Cond * list Param * nat.

Definition cond (col : Column) (op : Cmp) (ph : nat) : Cond :=
  {| c_col := col; c_cmp := op; c_ph := ph |}.

(** [if (x) { sql += ` AND col op $${idx++}`; params.push(p); }] *)
Definition and_if (b : bool) (col : Column) (op : Cmp) (p : Param) (acc : Sql) : Sql :=
  let '(sql, params, idx) := acc in
  if b then (sql ++ [cond col op idx], params ++ [p], S idx) else acc.

(** A string-or-undefined value as a query parameter. *)
Definition text_param (s : option string) : Param :=
  match s with
  | Some s => PText s
  | None => PNull
  end.

Definition val_param (v : option jsval) : Param :=
  match v with
  | Some v => PVal v
  | None => PNull
  end.

Section WithPlatform.
Context {P : Platform}.

(** [await client.query(...)] *)
Definition query (s : Stmt) : M Reply :=
  fun st =>
    let e := env st in
    match exec (fault_at e (n_stmt e)) s (db st) (client st) with
    | (Some r, db', c') => (Ok r, {| db := db'; client := c'; env := sent e |})
    | (None, db', c') => (Throw (DbError (n_stmt e)), {| db := db'; client := c'; env := sent e |})
    end.

(** [new Date(s)] *)
Definition date_param (s : option string) : Param :=
  PDate (match s with
         | Some s => Date_parse s
         | None => None
         end).

(** [`BATCH_${new Date().toISOString().slice(0,10).replace(/-/g,'')}_${uuidv4().slice(0,8)}`] *)
Definition make_batch_id (now : Z) (u : string) : string :=
  "BATCH_" ++ replace_all "-" "" (slice0 10 (toISOString now)) ++ "_" ++ slice0 8 u.

(** The body of the loop: one INSERT with its thirteen values, evaluated
    left to right. *)
Definition insert_log (payload : Payload) (batch_id : string) (log : Log) : M unit :=
  pid <- (if nonempty (l_process_id log)
          then ret (match l_process_id log with Some s => s | None => "" end)
          else uuidv4) ;;
  at_ <- (if nonempty (l_created_at log)
          then ret (match l_created_at log with Some s => Date_parse s | None => None end)
          else (now <- new_Date ;; ret (Some now))) ;;
  query (SInsert {|
    v_process_id := pid;
    v_comp_code := p_comp_code payload;
    v_emp_id := or_null (l_emp_id log);
    v_source_app := l_source_app log;
    v_source_function := or_null (l_source_function log);
    v_reference_id := or_null (l_reference_id log);
    v_action := l_action log;
    v_description := or_null (l_description log);
    v_metadata := if truthy (Some (l_metadata log))
                  then JSON_stringify (l_metadata log) else "{}";
    v_created_by := p_created_by payload;
    v_created_at := at_;
    v_app_version := or_null (p_app_version payload);
    v_batch_id := batch_id |}) ;;
  ret tt.

Definition storeBatchLogs (payload : Payload) : M BatchResult :=
  now <- new_Date ;;
  u <- uuidv4 ;;
  let batch_id := make_batch_id now u in
  try_catch
    (query SBegin ;;
     for_each (insert_log payload batch_id) (logs payload) ;;
     query SCommit ;;
     ret {| r_batch_id := batch_id; total_received := List.length (logs payload) |})
    (fun err => query SRollback ;; throw err).

(** [parseInt(countRes.rows[0].count, 10)] *)
Definition count_of (r : Reply) : M Z :=
  match r with
  | RCount n => ret n
  | _ => throw TypeError
  end.

Definition rows_of (r : Reply) : list Row :=
  match r with
  | RRows l => l
  | _ => []
  end.

(** [getUserLogs]: the count statement (source lines 94-98). *)
Definition user_count_sql (filters : Filters) : Sql :=
  let countSql := [cond c_comp_code OpEq 1; cond c_emp_id OpEq 2] in
  let countParams := [PText (f_comp_code filters); text_param (f_emp_id filters)] in
  let countIdx := 3 in
  let acc := (countSql, countParams, countIdx) in
  let acc := and_if (nonempty (f_from filters)) c_created_at OpGe (date_param (f_from filters)) acc in
  let acc := and_if (nonempty (f_to filters)) c_created_at OpLe (date_param (f_to filters)) acc in
  acc.

(** [getUserLogs]: the page statement before its ORDER BY (lines 104-108). *)
Definition user_page_sql (filters : Filters) : Sql :=
  let sql := [cond c_comp_code OpEq 1; cond c_emp_id OpEq 2] in
  let params := [PText (f_comp_code filters); text_param (f_emp_id filters)] in
  let idx := 3 in
  let acc := (sql, params, idx) in
  let acc := and_if (nonempty (f_from filters)) c_created_at OpGe (date_param (f_from filters)) acc in
  let acc := and_if (nonempty (f_to filters)) c_created_at OpLe (date_param (f_to filters)) acc in
  acc.

(** The two round trips every retrieval function makes: the count, then
    [sql += ` ORDER BY created_at DESC LIMIT $${idx++} OFFSET $${idx}`;
     params.push(limit, offset)] and the page. *)
Definition count_then_page (count page : Sql) (filters : Filters) : M Page :=
  let '(countSql, countParams, _) := count in
  countRes <- query (SCount countSql countParams) ;;
  total_count <- count_of countRes ;;
  let '(sql, params, idx) := page in
  result <- query (SSelect sql idx (S idx)
                     (params ++ [PNum (f_limit filters); PNum (f_offset filters)])) ;;
  ret {| rows := rows_of result; total_count := total_count |}.

Definition getUserLogs (filters : Filters) : M Page :=
  count_then_page (user_count_sql filters) (user_page_sql filters) filters.

(** [getAppLogs]: the count statement (lines 128-133). *)
Definition app_count_sql (filters : Filters) : Sql :=
  let countSql := [cond c_comp_code OpEq 1; cond c_source_app OpEq 2] in
  let countParams := [PText (f_comp_code filters); text_param (f_source_app filters)] in
  let countIdx := 3 in
  let acc := (countSql, countParams, countIdx) in
  let acc := and_if (truthy (f_source_function filters)) c_source_function OpEq
                    (val_param (f_source_function filters)) acc in
  let acc := and_if (nonempty (f_from filters)) c_created_at OpGe (date_param (f_from filters)) acc in
  let acc := and_if (nonempty (f_to filters)) c_created_at OpLe (date_param (f_to filters)) acc in
  acc.

(** [getAppLogs]: the page statement (lines 139-144). *)
Definition app_page_sql (filters : Filters) : Sql :=
  let sql := [cond c_comp_code OpEq 1; cond c_source_app OpEq 2] in
  let params := [PText (f_comp_code filters); text_param (f_source_app filters)] in
  let idx := 3 in
  let acc := (sql, params, idx) in
  let acc := and_if (truthy (f_source_function filters)) c_source_function OpEq
                    (val_param (f_source_function filters)) acc in
  let acc := and_if (nonempty (f_from filters)) c_created_at OpGe (date_param (f_from filters)) acc in
  let acc := and_if (nonempty (f_to filters)) c_created_at OpLe (date_param (f_to filters)) acc in
  acc.

Definition getAppLogs (filters : Filters) : M Page :=
  count_then_page (app_count_sql filters) (app_page_sql filters) filters.

(** [searchLogs]: the count statement (lines 164-175). *)
Definition search_count_sql (filters : Filters) : Sql :=
  let countSql := [cond c_comp_code OpEq 1] in
  let countParams := [PText (f_comp_code filters)] in
  let countIdx := 2 in
  let acc := (countSql, countParams, countIdx) in
  let acc := and_if (nonempty (f_source_app filters)) c_source_app OpEq
                    (text_param (f_source_app filters)) acc in
  let acc := and_if (truthy (f_source_function filters)) c_source_function OpEq
                    (val_param (f_source_function filters)) acc in
  let acc := and_if (nonempty (f_reference_id filters)) c_reference_id OpEq
                    (text_param (f_reference_id filters)) acc in
  let acc := and_if (nonempty (f_created_by filters)) c_created_by OpEq
                    (text_param (f_created_by filters)) acc in
  let acc := and_if (nonempty (f_action filters)) c_action OpEq
                    (text_param (f_action filters)) acc in
  let acc := and_if (nonempty (f_from filters)) c_created_at OpGe (date_param (f_from filters)) acc in
  let acc := and_if (nonempty (f_to filters)) c_created_at OpLe (date_param (f_to filters)) acc in
  let acc := and_if (nonempty (f_metadata filters)) c_metadata OpContains
                    (text_param (f_metadata filters)) acc in
  acc.

(** [searchLogs]: the page statement (lines 181-192). *)
Definition search_page_sql (filters : Filters) : Sql :=
  let sql := [cond c_comp_code OpEq 1] in
  let params := [PText (f_comp_code filters)] in
  let paramIdx := 2 in
  let acc := (sql, params, paramIdx) in
  let acc := and_if (nonempty (f_source_app filters)) c_source_app OpEq
                    (text_param (f_source_app filters)) acc in
  let acc := and_if (truthy (f_source_function filters)) c_source_function OpEq
                    (val_param (f_source_function filters)) acc in
  let acc := and_if (nonempty (f_reference_id filters)) c_reference_id OpEq
                    (text_param (f_reference_id filters)) acc in
  let acc := and_if (nonempty (f_created_by filters)) c_created_by OpEq
                    (text_param (f_created_by filters)) acc in
  let acc := and_if (nonempty (f_action filters)) c_action OpEq
                    (text_param (f_action filters)) acc in
  let acc := and_if (nonempty (f_from filters)) c_created_at OpGe (date_param (f_from filters)) acc in
  let acc := and_if (nonempty (f_to filters)) c_created_at OpLe (date_param (f_to filters)) acc in
  let acc := and_if (nonempty (f_metadata filters)) c_metadata OpContains
                    (text_param (f_metadata filters)) acc in
  acc.

Definition searchLogs (filters : Filters) : M Page :=
  count_then_page (search_count_sql filters) (search_page_sql filters) filters.

End WithPlatform.
End Service.
Export Service.

(* ===================================================================== *)
(** * The HTTP surface: schemas, middleware, handlers *)
(* ===================================================================== *)

Module Http.

Local Open Scope js_scope.

(** Outcome of [schema.parse]: the parsed value, or a thrown [ZodError]
    (its list of issues is not modelled). *)
Inductive parsed (A : Type) : Type :=
| Valid (a : A)
| ZodError.
Arguments Valid {A} a.
Arguments ZodError {A}.

(** [.strict()]: every key of the input is a key of the shape. *)
Definition strict (shape : list string) (o : obj) : bool :=
  forallb (fun kv => existsb (String.eqb (fst kv)) shape) o.

(** [z.string().min(lo).max(hi)] *)
Definition z_string (lo : nat) (hi : option nat) (v : option jsval) : parsed string :=
  match v with
  | Some (JStr s) =>
      if (lo <=? String.length s)%nat &&
         match hi with
         | Some m => (String.length s <=? m)%nat
         | None => true
         end
      then Valid s else ZodError
  | _ => ZodError
  end.

(** [schema.optional()] *)
Definition z_optional {A} (schema : option jsval -> parsed A) (v : option jsval)
  : parsed (option A) :=
  match v with
  | None => Valid None
  | Some _ =>
      match schema v with
      | Valid a => Valid (Some a)
      | ZodError => ZodError
      end
  end.

(** [schema.default(d)] *)
Definition z_default {A} (d : A) (schema : option jsval -> parsed A) (v : option jsval)
  : parsed A :=
  match v with
  | None => Valid d
  | Some _ => schema v
  end.

Fixpoint parse_all {A} (schema : option jsval -> parsed A) (l : list jsval)
  : parsed (list A) :=
  match l with
  | [] => Valid []
  | x :: l' =>
      match schema (Some x), parse_all schema l' with
      | Valid a, Valid r => Valid (a :: r)
      | _, _ => ZodError
      end
  end.

(** [z.array(item).min(lo).max(hi)] *)
Definition z_array {A} (item : option jsval -> parsed A) (lo hi : nat) (v : option jsval)
  : parsed (list A) :=
  match v with
  | Some (JArr l) =>
      if (lo <=? List.length l)%nat && (List.length l <=? hi)%nat
      then parse_all item l else ZodError
  | _ => ZodError
  end.

(** [querySchema]'s output. *)
Record Query : Type := {
  q_comp_code : string;
  q_limit : Z;
  q_offset : Z;
  q_from : option string;
  q_to : option string
}.

Definition log_keys : list string :=
  ["emp_id"; "process_id"; "source_app"; "source_function"; "reference_id";
   "action"; "description"; "created_at"; "metadata"].

Definition batch_keys : list string := ["comp_code"; "app_version"; "created_by"; "logs"].

Definition query_keys : list string := ["comp_code"; "limit"; "offset"; "from"; "to"].

Definition search_keys : list string :=
  query_keys ++ ["source_app"; "source_function"; "reference_id"; "created_by";
                 "action"; "metadata"].

Section Schemas.
Context {P : Platform}.

(** [z.coerce.number().int().min(lo).max(hi)] *)
Definition z_coerce_int (lo : Z) (hi : option Z) (v : option jsval) : parsed Z :=
  match v with
  | Some x =>
      match js_Number x with
      | Some n =>
          if (lo <=? n)%Z &&
             match hi with
             | Some m => (n <=? m)%Z
             | None => true
             end
          then Valid n else ZodError
      | None => ZodError
      end
  | None => ZodError
  end.

(** [z.string().datetime({ offset: true })] *)
Definition z_datetime (v : option jsval) : parsed string :=
  match v with
  | Some (JStr s) => if zod_datetime s then Valid s else ZodError
  | _ => ZodError
  end.

(** The [metadata] field of [logSchema]:
    [z.any().transform(..).optional().default({})]. *)
Definition metadata_schema (v : option jsval) : jsval :=
  match v with
  | None => JObj []
  | Some JNull => JObj []
  | Some (JObj o) => JObj o
  | Some (JStr s) =>
      match JSON_parse s with
      | Some (JObj o) => JObj o
      | Some (JArr l) => JArr l
      | _ => JObj []
      end
  | Some _ => JObj []
  end.

Definition logSchema (v : option jsval) : parsed Log :=
  match v with
  | Some (JObj o) =>
      if strict log_keys o then
        match z_optional (z_string 0 (Some 50)) (get "emp_id" o),
              z_optional (z_string 0 (Some 100)) (get "process_id" o),
              z_string 0 (Some 100) (get "source_app" o),
              z_optional (z_string 0 (Some 150)) (get "source_function" o),
              z_optional (z_string 0 (Some 150)) (get "reference_id" o),
              z_string 0 (Some 100) (get "action" o),
              z_optional (z_string 0 None) (get "description" o),
              z_optional z_datetime (get "created_at" o) with
        | Valid emp, Valid pid, Valid app, Valid fn, Valid ref, Valid act, Valid descr, Valid at_ =>
            Valid {| l_emp_id := emp; l_process_id := pid; l_source_app := app;
                     l_source_function := fn; l_reference_id := ref; l_action := act;
                     l_description := descr; l_created_at := at_;
                     l_metadata := metadata_schema (get "metadata" o) |}
        | _, _, _, _, _, _, _, _ => ZodError
        end
      else ZodError
  | _ => ZodError
  end.

Definition batchSchema (body : jsval) : parsed Payload :=
  match body with
  | JObj o =>
      if strict batch_keys o then
        match z_string 1 (Some 50) (get "comp_code" o),
              z_optional (z_string 0 (Some 20)) (get "app_version" o),
              z_default "SYSTEM" (z_string 0 (Some 50)) (get "created_by" o),
              z_array logSchema 1 1000 (get "logs" o) with
        | Valid cc, Valid ver, Valid by_, Valid ls =>
            Valid {| p_comp_code := cc; p_app_version := ver; p_created_by := by_; logs := ls |}
        | _, _, _, _ => ZodError
        end
      else ZodError
  | _ => ZodError
  end.

(** The five fields every query schema has. *)
Definition query_fields (q : obj) : parsed Query :=
  match z_string 1 (Some 50) (get "comp_code" q),
        z_default 50%Z (z_coerce_int 1 (Some 200%Z)) (get "limit" q),
        z_default 0%Z (z_coerce_int 0 None) (get "offset" q),
        z_optional z_datetime (get "from" q),
        z_optional z_datetime (get "to" q) with
  | Valid cc, Valid l, Valid o, Valid f, Valid t =>
      Valid {| q_comp_code := cc; q_limit := l; q_offset := o; q_from := f; q_to := t |}
  | _, _, _, _, _ => ZodError
  end.

Definition querySchema (q : obj) : parsed Query :=
  if strict query_keys q then query_fields q else ZodError.

(** [{ ...validatedQuery, emp_id, source_app, source_function }] *)
Definition filters_of (v : Query) (emp : option string) (app : option string)
    (fn : option jsval) : Filters :=
  {| f_comp_code := q_comp_code v; f_limit := q_limit v; f_offset := q_offset v;
     f_from := q_from v; f_to := q_to v; f_emp_id := emp; f_source_app := app;
     f_source_function := fn; f_reference_id := None; f_created_by := None;
     f_action := None; f_metadata := None |}.

(** [querySchema.extend({ source_app, ..., metadata: z.string().optional() })] *)
Definition searchSchema (q : obj) : parsed Filters :=
  if strict search_keys q then
    match query_fields q,
          z_optional (z_string 0 (Some 100)) (get "source_app" q),
          z_optional (z_string 0 (Some 150)) (get "source_function" q),
          z_optional (z_string 0 (Some 150)) (get "reference_id" q),
          z_optional (z_string 0 (Some 50)) (get "created_by" q),
          z_optional (z_string 0 (Some 100)) (get "action" q),
          z_optional (z_string 0 None) (get "metadata" q) with
    | Valid v, Valid app, Valid fn, Valid ref, Valid by_, Valid act, Valid md =>
        Valid {| f_comp_code := q_comp_code v; f_limit := q_limit v; f_offset := q_offset v;
                 f_from := q_from v; f_to := q_to v; f_emp_id := None; f_source_app := app;
                 f_source_function := option_map JStr fn; f_reference_id := ref;
                 f_created_by := by_; f_action := act; f_metadata := md |}
    | _, _, _, _, _, _, _ => ZodError
    end
  else ZodError.

End Schemas.

(** ** Requests, responses, the pool *)

Inductive Method : Type := GET | POST | OtherMethod.

(** The path below [/audit], matched against the router's four patterns.
    [Undecodable]: the path has the shape of [/logs/user/:emp_id] or of
    [/logs/app/:source_app], but its parameter is not valid percent-encoding
    ([decodeURIComponent] throws on it). *)
Inductive Route : Type :=
| LogsBatch
| LogsUser (emp_id : string)
| LogsApp (source_app : string)
| LogsSearch
| Undecodable
| NoRoute.

Record Request : Type := {
  method : Method;
  route : Route;
  req_query : obj;
  req_body : jsval;
  x_api_key : option string
}.

Inductive Body : Type :=
| Message (success : bool) (message : string)
| Stored (message : string) (total_received : nat) (batch_id : string)
| PageOf (data : list Row) (total_count : Z) (total_returned : nat) (limit offset : Z)
| NotFound      (* Express's own page for a request no route takes *)
| BadRequest.   (* Express's own page for an error of status 400 *)

Record Response : Type := { status : nat; payload : Body }.

(** [pg.Pool] with [max: 20]. *)
Record Pool : Type := { idle : list Session; total : nat }.

Definition pool_max : nat := 20.

Definition fresh_session : Session :=
  {| current_tenant := None; txn := None; history := [] |}.

(** The callback registered with [res.on('finish', ...)]:
    [if (req.dbClient) req.dbClient.release()]. *)
Inductive Listener : Type := ReleaseDbClient.

(** Work left for later turns of the event loop: the rest of a handler
    after its [await], and the emission of ['finish'], which Node performs
    after [res.json] has returned. *)
Inductive Task : Type :=
| AwaitStore (validated : Payload)
| AwaitUser (filters : Filters)
| AwaitApp (filters : Filters)
| AwaitSearch (filters : Filters)
| EmitFinish.

(** The server while it handles one request. *)
Record Run : Type := {
  r_store : Store;
  r_env : Env;
  r_pool : Pool;
  dbClient : option Session;
  releases : nat;
  response : option Response;
  listeners : list Listener;
  tasks : list Task
}.

Definition with_env (e : Env) (r : Run) : Run :=
  {| r_store := r_store r; r_env := e; r_pool := r_pool r; dbClient := dbClient r;
     releases := releases r; response := response r; listeners := listeners r;
     tasks := tasks r |}.

Definition with_client (p : Pool) (c : Session) (r : Run) : Run :=
  {| r_store := r_store r; r_env := r_env r; r_pool := p; dbClient := Some c;
     releases := releases r; response := response r; listeners := listeners r;
     tasks := tasks r |}.

Definition later (t : Task) (r : Run) : Run :=
  {| r_store := r_store r; r_env := r_env r; r_pool := r_pool r; dbClient := dbClient r;
     releases := releases r; response := response r; listeners := listeners r;
     tasks := tasks r ++ [t] |}.

(** [res.status(code).json(body)]: the response is written now.  Node emits
    ['finish'] in a later turn, once the answer has been handed to the
    connection; when the caller has closed the connection before the answer
    is written, the response is closed without ever emitting ['finish']. *)
Definition respond (code : nat) (b : Body) (r : Run) : Run :=
  let written :=
    {| r_store := r_store r; r_env := r_env r; r_pool := r_pool r; dbClient := dbClient r;
       releases := releases r; response := Some {| status := code; payload := b |};
       listeners := listeners r; tasks := tasks r |} in
  if caller_gone (r_env r) then written else later EmitFinish written.

(** [res.on('finish', cb)] *)
Definition on_finish (l : Listener) (r : Run) : Run :=
  {| r_store := r_store r; r_env := r_env r; r_pool := r_pool r; dbClient := dbClient r;
     releases := releases r; response := response r; listeners := listeners r ++ [l];
     tasks := tasks r |}.

(** [req.dbClient.release()]: the first call returns the session to the
    pool; the call is counted either way. *)
Definition release (r : Run) : Run :=
  match dbClient r with
  | Some c =>
      {| r_store := r_store r; r_env := r_env r;
         r_pool := if (releases r =? 0)%nat
                   then {| idle := idle (r_pool r) ++ [c]; total := total (r_pool r) |}
                   else r_pool r;
         dbClient := dbClient r; releases := S (releases r); response := response r;
         listeners := listeners r; tasks := tasks r |}
  | None => r
  end.

(** [db.getClient()], that is [pool.connect()]: an idle session if there is
    one, else a new connection while fewer than [max] exist.  [None]: the
    promise rejects (pool exhausted until the timeout, or the new connection
    refused). *)
Definition getClient (r : Run) : option Session * Run :=
  match idle (r_pool r) with
  | c :: rest =>
      (Some c, with_client {| idle := rest; total := total (r_pool r) |} c r)
  | [] =>
      if (total (r_pool r) <? pool_max)%nat then
        if fault_at (r_env r) (n_stmt (r_env r)) then (None, with_env (sent (r_env r)) r)
        else (Some fresh_session,
              with_client {| idle := []; total := S (total (r_pool r)) |} fresh_session
                (with_env (sent (r_env r)) r))
      else (None, r)
  end.

Section Middleware.
Context {P : Platform}.

(** A service call made with [req.dbClient]. *)
Definition call {A} (m : M A) (c : Session) (r : Run) : Res A * Run :=
  match m {| db := r_store r; client := c; env := r_env r |} with
  | (res, st) =>
      (res, {| r_store := db st; r_env := env st; r_pool := r_pool r;
               dbClient := Some (client st); releases := releases r;
               response := response r; listeners := listeners r; tasks := tasks r |})
  end.

(** [apiKeys[comp_code]]: the property key of a value that is not a string
    is its string conversion. *)
Definition property_key (v : jsval) : string :=
  match v with
  | JStr s => s
  | _ => js_String v
  end.

Fixpoint lookup_key (k : string) (keys : list (string * string)) : option string :=
  match keys with
  | [] => None
  | (k', v) :: keys' => if k =? k' then Some v else lookup_key k keys'
  end.

Definition body_get (k : string) (b : jsval) : option jsval :=
  match b with
  | JObj o => get k o
  | _ => None
  end.

(** src/middleware/auth.js: either a response, or [req.currentCompCode].
    (The dash in the 401 message is an en dash in the source.) *)
Definition auth (apiKeys : list (string * string)) (req : Request) : Response + jsval :=
  let comp_code :=
    match method req with
    | POST => body_get "comp_code" (req_body req)
    | GET => get "comp_code" (req_query req)
    | OtherMethod => None
    end in
  match comp_code with
  | Some cc =>
      if negb (truthy comp_code) then
        inl {| status := 400;
               payload := Message false "comp_code is required for multi-tenant access" |}
      else
        match x_api_key req, lookup_key (property_key cc) apiKeys with
        | Some apiKey, Some expected =>
            if negb (apiKey =? "") && (expected =? apiKey) then inr cc
            else inl {| status := 401;
                        payload := Message false "Unauthorized - invalid or missing API key for this company" |}
        | _, _ =>
            inl {| status := 401;
                   payload := Message false "Unauthorized - invalid or missing API key for this company" |}
        end
  | None =>
      inl {| status := 400;
             payload := Message false "comp_code is required for multi-tenant access" |}
  end.

(** The statement text of the bind:
    [`SET app.current_tenant = '${tenant}'`] with
    [tenant = req.currentCompCode.replace(/'/g, "''")]. *)
Definition bind_statement (currentCompCode : string) : string :=
  let tenant := replace_all "'" "''" currentCompCode in
  "SET app.current_tenant = '" ++ tenant ++ "'".

(** The [try] block of tenantContext up to [next()]. *)
Definition bind_tenant (currentCompCode : jsval) : M unit :=
  text <- (match currentCompCode with
           | JStr s => ret (bind_statement s)
           | _ => throw TypeError   (* .replace is not a function *)
           end) ;;
  query (SRaw text) ;;
  check <- query SShowTenant ;;
  ret tt.

(** ** Handlers (src/routes/auditRoutes.js), up to their first [await]

    A schema's [parse] throws nothing but a [ZodError] (the metadata
    transform catches its own [JSON.parse]), so the handlers' fallback
    answers for other exceptions are never sent; the [errors] array of a 400
    answer and the development-only [error] text of a 500 are left out of
    the bodies. *)

Definition validation_failed : Body := Message false "Validation failed".
Definition invalid_query : Body := Message false "Invalid query parameters".
Definition no_client : Body := Message false "Database client not available".

Definition post_logs_batch (req : Request) (r : Run) : Run :=
  match batchSchema (req_body req) with
  | ZodError => respond 400 validation_failed r
  | Valid validated =>
      match dbClient r with
      | None => respond 500 no_client r
      | Some _ => later (AwaitStore validated) r
      end
  end.

Definition get_logs_user (emp_id : string) (req : Request) (r : Run) : Run :=
  match querySchema (req_query req) with
  | ZodError => respond 400 invalid_query r
  | Valid validatedQuery =>
      match dbClient r with
      | None => respond 500 no_client r
      | Some _ =>
          later (AwaitUser (filters_of validatedQuery (Some emp_id) None None)) r
      end
  end.

Definition get_logs_app (source_app : string) (req : Request) (r : Run) : Run :=
  match querySchema (req_query req) with
  | ZodError => respond 400 invalid_query r
  | Valid validatedQuery =>
      match dbClient r with
      | None => respond 500 no_client r
      | Some _ =>
          later (AwaitApp (filters_of validatedQuery None (Some source_app)
                             (get "source_function" (req_query req)))) r
      end
  end.

Definition get_logs_search (req : Request) (r : Run) : Run :=
  match searchSchema (req_query req) with
  | ZodError => respond 400 invalid_query r
  | Valid validated =>
      match dbClient r with
      | None => respond 500 no_client r
      | Some _ => later (AwaitSearch validated) r
      end
  end.

(** The router: a handler runs when method and path match.  Express
    matches the path of each route first, and decodes its parameters as it
    does: a parameter that fails to decode is an error whatever the method,
    which no route of the application handles and Express answers 400.
    Every other request falls through to Express's 404. *)
Definition router (req : Request) (r : Run) : Run :=
  match method req, route req with
  | POST, LogsBatch => post_logs_batch req r
  | GET, LogsUser emp_id => get_logs_user emp_id req r
  | GET, LogsApp source_app => get_logs_app source_app req r
  | GET, LogsSearch => get_logs_search req r
  | _, Undecodable => respond 400 BadRequest r
  | _, _ => respond 404 NotFound r
  end.

Definition page_response (filters : Filters) (p : Page) : Body :=
  PageOf (rows p) (total_count p) (List.length (rows p)) (f_limit filters) (f_offset filters).

(** The rest of a retrieval handler: the awaited service call and the
    response in its [try]/[catch]. *)
Definition finish_query (m : M Page) (filters : Filters) (r : Run) : Run :=
  match dbClient r with
  | Some c =>
      match call m c r with
      | (Ok p, r') => respond 200 (page_response filters p) r'
      | (Throw _, r') => respond 500 (Message false "Query failed") r'
      end
  | None => r
  end.

(** One turn of the event loop. *)
Definition turn (t : Task) (r : Run) : Run :=
  match t with
  | AwaitStore validated =>
      match dbClient r with
      | Some c =>
          match call (storeBatchLogs validated) c r with
          | (Ok result, r') =>
              respond 201 (Stored "Logs successfully stored"
                             (Service.total_received result) (r_batch_id result)) r'
          | (Throw _, r') => respond 500 (Message false "Failed to store logs") r'
          end
      | None => r
      end
  | AwaitUser filters => finish_query (getUserLogs filters) filters r
  | AwaitApp filters => finish_query (getAppLogs filters) filters r
  | AwaitSearch filters => finish_query (searchLogs filters) filters r
  | EmitFinish =>
      fold_left (fun r' l =>
                   match l with
                   | ReleaseDbClient =>
                       match dbClient r' with
                       | Some _ => release r'
                       | None => r'
                       end
                   end) (listeners r) r
  end.

Fixpoint event_loop (fuel : nat) (r : Run) : Run :=
  match fuel, tasks r with
  | S fuel', t :: rest =>
      event_loop fuel'
        (turn t {| r_store := r_store r; r_env := r_env r; r_pool := r_pool r;
                   dbClient := dbClient r; releases := releases r;
                   response := response r; listeners := listeners r; tasks := rest |})
  | _, _ => r
  end.

(** src/middleware/tenantContext.js, entered with [req.currentCompCode]. *)
Definition tenantContext (currentCompCode : jsval) (req : Request) (r : Run) : Run :=
  if negb (truthy (Some currentCompCode)) then
    respond 500 (Message false "Tenant context not set") r
  else
    match getClient r with
    | (None, r1) => r1
    | (Some c, r1) =>
        match call (bind_tenant currentCompCode) c r1 with
        | (Ok _, r2) =>
            let r3 := router req r2 in                 (* next() *)
            on_finish ReleaseDbClient r3
        | (Throw _, r2) =>
            let r3 := release r2 in
            respond 500 (Message false "Tenant setup failed") r3
        end
    end.

(** The server between requests. *)
Record Server : Type := {
  store : Store;
  world : Env;
  pool : Pool;
  apiKeys : list (string * string)
}.

Definition start (srv : Server) : Run :=
  {| r_store := store srv; r_env := world srv; r_pool := pool srv; dbClient := None;
     releases := 0; response := None; listeners := []; tasks := [] |}.

(** [app.use('/audit', auth, tenantContext, auditRoutes)]: one request,
    from its arrival until the event loop has nothing left to do for it. *)
Definition serve (srv : Server) (req : Request) : Run :=
  match auth (apiKeys srv) req with
  | inl resp => event_loop 2 (respond (status resp) (payload resp) (start srv))
  | inr currentCompCode => event_loop 2 (tenantContext currentCompCode req (start srv))
  end.

End Middleware.
End Http.
Export Http.

(* ===================================================================== *)
(** * The offline client: src/client/offline-logger.js *)
(* ===================================================================== *)

Module Client.

(** [{ ...o, [k]: v }]: an own property keeps its place and takes the new
    value, a new property comes last. *)
Fixpoint set_prop (k : string) (v : jsval) (o : obj) : obj :=
  match o with
  | [] => [(k, v)]
  | (k', v') :: o' => if String.eqb k k' then (k, v) :: o' else (k', v') :: set_prop k v o'
  end.

(** [a === b] on property values ([None] is [undefined]).  Objects and
    arrays are equal only to themselves; the model compares values, so it
    answers for primitives and the theorems that depend on the comparison
    ask for string keys, the only ones the server's schema accepts. *)
Definition strict_equal (a b : option jsval) : bool :=
  match a, b with
  | None, None => true
  | Some JNull, Some JNull => true
  | Some (JBool x), Some (JBool y) => Bool.eqb x y
  | Some (JNum x), Some (JNum y) => (x =? y)%Z
  | Some (JStr x), Some (JStr y) => (x =? y)%string
  | _, _ => false
  end.

Record OfflineLogger : Type := {
  baseURL : string;
  apiKey : option string;
  queue : list obj;
  isSyncing : bool
}.

(** [new OfflineLogger(baseURL = 'http://localhost:3005', apiKey)] *)
Definition new_OfflineLogger (baseURL : option string) (apiKey : option string)
  : OfflineLogger :=
  {| baseURL := match baseURL with
                | Some u => u
                | None => "http://localhost:3005"
                end;
     apiKey := apiKey; queue := []; isSyncing := false |}.

(** A request handed to [axios.post]. *)
Record Post : Type := {
  url : string;
  data : jsval;
  header_x_api_key : option string
}.

(** How an awaited [axios.post] ends: the promise resolves with a response
    whose [data] is given ([None]: [undefined]), or it rejects (a status
    outside 2xx, no answer, no connection). *)
Inductive Outcome : Type :=
| Resolved (response_data : option jsval)
| Rejected.

(** The client between two turns of its event loop: the logger, the
    [batch] of every [sync] call suspended at its [await], the requests made
    so far, and the clock and uuid generator of the device. *)
Record State : Type := {
  logger : OfflineLogger;
  suspended : list (list obj);
  posted : list Post;
  device : Env
}.

Definition with_queue (q : list obj) (l : OfflineLogger) : OfflineLogger :=
  {| baseURL := baseURL l; apiKey := apiKey l; queue := q; isSyncing := isSyncing l |}.

Definition with_isSyncing (b : bool) (l : OfflineLogger) : OfflineLogger :=
  {| baseURL := baseURL l; apiKey := apiKey l; queue := queue l; isSyncing := b |}.

Section Logger.
Context {P : Platform}.

(** [event.process_id || uuidv4()] *)
Definition process_id_of (event : obj) (e : Env) : jsval * Env :=
  match get "process_id" event with
  | Some v =>
      if truthy (Some v) then (v, e)
      else (JStr (uuid_at e (n_uuid e)),
            {| time_at := time_at e; uuid_at := uuid_at e; fault_at := fault_at e;
               caller_gone := caller_gone e;
               n_time := n_time e; n_uuid := S (n_uuid e); n_stmt := n_stmt e |})
  | None => (JStr (uuid_at e (n_uuid e)),
             {| time_at := time_at e; uuid_at := uuid_at e; fault_at := fault_at e;
                caller_gone := caller_gone e;
                n_time := n_time e; n_uuid := S (n_uuid e); n_stmt := n_stmt e |})
  end.

(** [event.created_at || new Date().toISOString()] *)
Definition created_at_of (event : obj) (e : Env) : jsval * Env :=
  match get "created_at" event with
  | Some v =>
      if truthy (Some v) then (v, e)
      else (JStr (toISOString (time_at e (n_time e))),
            {| time_at := time_at e; uuid_at := uuid_at e; fault_at := fault_at e;
               caller_gone := caller_gone e;
               n_time := S (n_time e); n_uuid := n_uuid e; n_stmt := n_stmt e |})
  | None => (JStr (toISOString (time_at e (n_time e))),
             {| time_at := time_at e; uuid_at := uuid_at e; fault_at := fault_at e;
                caller_gone := caller_gone e;
                n_time := S (n_time e); n_uuid := n_uuid e; n_stmt := n_stmt e |})
  end.

(** The object literal of [log]: the event's properties, then the two
    keys, evaluated in that order. *)
Definition logEntry (event : obj) (e : Env) : obj * Env :=
  let '(pid, e1) := process_id_of event e in
  let '(at_, e2) := created_at_of event e1 in
  (set_prop "created_at" at_ (set_prop "process_id" pid event), e2).

(** The payload of [sync]. *)
Definition payload_of (batch : list obj) : jsval :=
  JObj [("comp_code", JStr "COMP001");
        ("created_by", JStr "MOBILE_USER");
        ("app_version", JStr "1.2.3");
        ("logs", JArr (map JObj batch))].

(** [sync()] up to its [await]: nothing when the queue is empty or a sync
    is running; else the flag is set, the queue is copied and the copy is
    posted. *)
Definition sync (c : State) : State :=
  let l := logger c in
  if (List.length (queue l) =? 0)%nat || isSyncing l then c
  else
    let batch := queue l in
    {| logger := with_isSyncing true l;
       suspended := suspended c ++ [batch];
       posted := posted c ++ [{| url := baseURL l ++ "/audit/logs/batch";
                                 data := payload_of batch;
                                 header_x_api_key := apiKey l |}];
       device := device c |}.

(** [log(event)] *)
Definition log (event : obj) (c : State) : State :=
  let '(entry, e) := logEntry event (device c) in
  sync {| logger := with_queue (queue (logger c) ++ [entry]) (logger c);
          suspended := suspended c; posted := posted c; device := e |}.

(** [forceSync()] *)
Definition forceSync (c : State) : State := sync c.

(** [log => !batch.some(b => b.process_id === log.process_id)] *)
Definition not_sent (batch : list obj) (entry : obj) : bool :=
  negb (existsb (fun b => strict_equal (get "process_id" b) (get "process_id" entry)) batch).

(** The rest of [sync] once its request has ended.  Reading
    [response.data.total_received] throws when [data] is [undefined] or
    [null], which the [catch] block takes like a rejection. *)
Definition resume (batch : list obj) (o : Outcome) (l : OfflineLogger) : OfflineLogger :=
  let l' :=
    match o with
    | Resolved (Some JNull) => l
    | Resolved (Some _) => with_queue (filter (not_sent batch) (queue l)) l
    | Resolved None => l
    | Rejected => l
    end in
  with_isSyncing false l'.

Fixpoint drop_nth {A} (i : nat) (l : list A) : list A :=
  match i, l with
  | _, [] => []
  | O, _ :: l' => l'
  | S i', x :: l' => x :: drop_nth i' l'
  end.

(** The [i]-th suspended [sync] gets its outcome and runs to its end. *)
Definition settle (i : nat) (o : Outcome) (c : State) : State :=
  match nth_error (suspended c) i with
  | Some batch =>
      {| logger := resume batch o (logger c);
         suspended := drop_nth i (suspended c);
         posted := posted c; device := device c |}
  | None => c
  end.

(** What can happen to the client, one turn at a time. *)
Inductive Event : Type :=
| Log (event : obj)
| ForceSync
| Settle (i : nat) (o : Outcome).

Definition step (c : State) (ev : Event) : State :=
  match ev with
  | Log event => log event c
  | ForceSync => forceSync c
  | Settle i o => settle i o c
  end.

Definition run (evs : list Event) (c : State) : State := fold_left step evs c.

(** A new logger on a device. *)
Definition fresh (baseURL apiKey : option string) (e : Env) : State :=
  {| logger := new_OfflineLogger baseURL apiKey; suspended := []; posted := []; device := e |}.

End Logger.
End Client.

(* ===================================================================== *)
(** * A reference platform for running the model on concrete requests *)
(* ===================================================================== *)

Module Demo.

Definition dquote : ascii := "034"%char.
Definition backslash : ascii := "092"%char.

Definition is_digit (a : ascii) : bool :=
  let n := nat_of_ascii a in (48 <=? n)%nat && (n <=? 57)%nat.

Fixpoint digits_value (s : string) (acc : Z) : option Z :=
  match s with
  | EmptyString => Some acc
  | String a s' =>
      if is_digit a
      then digits_value s' (acc * 10 + Z.of_nat (nat_of_ascii a - 48))%Z
      else None
  end.

(** [Number] on the values a query string or a body can hold, decimal
    digit strings only. *)
Definition Number (v : jsval) : option Z :=
  match v with
  | JNum n => Some n
  | JNull => Some 0%Z
  | JBool b => Some (if b then 1 else 0)%Z
  | JStr s => digits_value s 0
  | _ => None
  end.

Definition z_dec (n : Z) : string :=
  if (n <? 0)%Z then "-" ++ dec (Z.to_nat (- n)) else dec (Z.to_nat n).

Definition pad (width : nat) (n : Z) : string :=
  let d := dec (Z.to_nat n) in
  (fix zeros (k : nat) : string :=
     match k with
     | O => EmptyString
     | S k' => String "0" (zeros k')
     end) (width - String.length d)%nat ++ d.

(** Text of a key: strings as they are, a one-element array as its element. *)
Definition to_String (v : jsval) : string :=
  match v with
  | JStr s => s
  | JNull => "null"
  | JBool true => "true"
  | JBool false => "false"
  | JNum n => z_dec n
  | JArr [JStr s] => s
  | JArr _ => ""
  | JObj _ => "[object Object]"
  end.

(** Timestamps of the form [YYYY-MM-DDThh:mm:ssZ]. *)
Definition part (i n : nat) (s : string) : option Z := digits_value (substring i n s) 0.

Definition char_at (i : nat) (s : string) : string := substring i 1 s.

Definition datetime (s : string) : bool :=
  (String.length s =? 20)%nat &&
  (char_at 4 s =? "-") && (char_at 7 s =? "-") && (char_at 10 s =? "T") &&
  (char_at 13 s =? ":") && (char_at 16 s =? ":") && (char_at 19 s =? "Z") &&
  match part 0 4 s, part 5 2 s, part 8 2 s, part 11 2 s, part 14 2 s, part 17 2 s with
  | Some _, Some mo, Some d, Some h, Some mi, Some se =>
      (1 <=? mo)%Z && (mo <=? 12)%Z && (1 <=? d)%Z && (d <=? 31)%Z &&
      (h <=? 23)%Z && (mi <=? 59)%Z && (se <=? 59)%Z
  | _, _, _, _, _, _ => false
  end.

Definition days_from_civil (y m d : Z) : Z :=
  let y' := (if m <=? 2 then y - 1 else y)%Z in
  let era := (y' / 400)%Z in
  let yoe := (y' - era * 400)%Z in
  let doy := ((153 * (if m >? 2 then m - 3 else m + 9) + 2) / 5 + d - 1)%Z in
  let doe := (yoe * 365 + yoe / 4 - yoe / 100 + doy)%Z in
  (era * 146097 + doe - 719468)%Z.

Definition parse_date (s : string) : option Z :=
  if datetime s then
    match part 0 4 s, part 5 2 s, part 8 2 s, part 11 2 s, part 14 2 s, part 17 2 s with
    | Some y, Some mo, Some d, Some h, Some mi, Some se =>
        Some ((((days_from_civil y mo d * 24 + h) * 60 + mi) * 60 + se) * 1000)%Z
    | _, _, _, _, _, _ => None
    end
  else None.

Definition iso_string (ms : Z) : string :=
  let secs := (ms / 1000)%Z in
  let days := (secs / 86400)%Z in
  let rem := (secs mod 86400)%Z in
  let z := (days + 719468)%Z in
  let era := (z / 146097)%Z in
  let doe := (z - era * 146097)%Z in
  let yoe := ((doe - doe / 1460 + doe / 36524 - doe / 146096) / 365)%Z in
  let doy := (doe - (365 * yoe + yoe / 4 - yoe / 100))%Z in
  let mp := ((5 * doy + 2) / 153)%Z in
  let d := (doy - (153 * mp + 2) / 5 + 1)%Z in
  let m := (if mp <? 10 then mp + 3 else mp - 9)%Z in
  let y := (yoe + era * 400 + (if m <=? 2 then 1 else 0))%Z in
  pad 4 y ++ "-" ++ pad 2 m ++ "-" ++ pad 2 d ++ "T" ++ pad 2 (rem / 3600) ++ ":"
  ++ pad 2 (rem mod 3600 / 60) ++ ":" ++ pad 2 (rem mod 60) ++ "." ++ pad 3 (ms mod 1000) ++ "Z".

(** JSON text. *)
Fixpoint escape (s : string) : string :=
  match s with
  | EmptyString => EmptyString
  | String a s' =>
      if Ascii.eqb a dquote || Ascii.eqb a backslash
      then String backslash (String a (escape s'))
      else String a (escape s')
  end.

Definition quoted (s : string) : string :=
  String dquote (escape s ++ String dquote EmptyString).

Fixpoint stringify (v : jsval) : string :=
  match v with
  | JNull => "null"
  | JBool true => "true"
  | JBool false => "false"
  | JNum n => z_dec n
  | JStr s => quoted s
  | JArr l =>
      ("[" ++ (fix items (l : list jsval) : string :=
                 match l with
                 | [] => ""
                 | [x] => stringify x
                 | x :: l' => stringify x ++ "," ++ items l'
                 end) l ++ "]")%string
  | JObj o =>
      ("{" ++ (fix members (o : list (string * jsval)) : string :=
                 match o with
                 | [] => ""
                 | [(k, x)] => quoted k ++ ":" ++ stringify x
                 | (k, x) :: o' => quoted k ++ ":" ++ stringify x ++ "," ++ members o'
                 end) o ++ "}")%string
  end.

Fixpoint skip_ws (s : string) : string :=
  match s with
  | String a s' => if Ascii.eqb a " " then skip_ws s' else s
  | EmptyString => s
  end.

(** The characters of a string literal after its opening quote. *)
Fixpoint string_body (s : string) : option (string * string) :=
  match s with
  | EmptyString => None
  | String a s' =>
      if Ascii.eqb a dquote then Some (EmptyString, s')
      else if Ascii.eqb a backslash then
        match s' with
        | String b s'' =>
            match string_body s'' with
            | Some (v, rest) => Some (String b v, rest)
            | None => None
            end
        | EmptyString => None
        end
      else
        match string_body s' with
        | Some (v, rest) => Some (String a v, rest)
        | None => None
        end
  end.

Fixpoint digits (s : string) (acc : Z) : Z * string :=
  match s with
  | String a s' =>
      if is_digit a then digits s' (acc * 10 + Z.of_nat (nat_of_ascii a - 48))%Z
      else (acc, s)
  | EmptyString => (acc, s)
  end.

Definition keyword (k : string) (v : jsval) (s : string) : option (jsval * string) :=
  match strip_prefix k s with
  | Some rest => Some (v, rest)
  | None => None
  end.

Fixpoint value (fuel : nat) (s : string) : option (jsval * string) :=
  match fuel with
  | O => None
  | S f =>
      match skip_ws s with
      | String a rest =>
          if Ascii.eqb a "{" then
            match skip_ws rest with
            | String b rest' =>
                if Ascii.eqb b "}" then Some (JObj [], rest') else members f rest
            | EmptyString => None
            end
          else if Ascii.eqb a "[" then
            match skip_ws rest with
            | String b rest' =>
                if Ascii.eqb b "]" then Some (JArr [], rest') else elements f rest
            | EmptyString => None
            end
          else if Ascii.eqb a dquote then
            match string_body rest with
            | Some (v, rest') => Some (JStr v, rest')
            | None => None
            end
          else if Ascii.eqb a "t" then keyword "true" (JBool true) (String a rest)
          else if Ascii.eqb a "f" then keyword "false" (JBool false) (String a rest)
          else if Ascii.eqb a "n" then keyword "null" JNull (String a rest)
          else if Ascii.eqb a "-" then
            match rest with
            | String d _ =>
                if is_digit d then let (n, rest') := digits rest 0 in Some (JNum (- n), rest')
                else None
            | EmptyString => None
            end
          else if is_digit a then
            let (n, rest') := digits (String a rest) 0 in Some (JNum n, rest')
          else None
      | EmptyString => None
      end
  end
with elements (fuel : nat) (s : string) : option (jsval * string) :=
  match fuel with
  | O => None
  | S f =>
      match value f s with
      | Some (v, rest) =>
          match skip_ws rest with
          | String a rest' =>
              if Ascii.eqb a "," then
                match elements f rest' with
                | Some (JArr l, rest'') => Some (JArr (v :: l), rest'')
                | _ => None
                end
              else if Ascii.eqb a "]" then Some (JArr [v], rest')
              else None
          | EmptyString => None
          end
      | None => None
      end
  end
with members (fuel : nat) (s : string) : option (jsval * string) :=
  match fuel with
  | O => None
  | S f =>
      match skip_ws s with
      | String q rest =>
          if Ascii.eqb q dquote then
            match string_body rest with
            | Some (k, rest1) =>
                match skip_ws rest1 with
                | String c rest2 =>
                    if Ascii.eqb c ":" then
                      match value f rest2 with
                      | Some (v, rest3) =>
                          match skip_ws rest3 with
                          | String a rest4 =>
                              if Ascii.eqb a "," then
                                match members f rest4 with
                                | Some (JObj o, rest5) => Some (JObj ((k, v) :: o), rest5)
                                | _ => None
                                end
                              else if Ascii.eqb a "}" then Some (JObj [(k, v)], rest4)
                              else None
                          | EmptyString => None
                          end
                      | None => None
                      end
                    else None
                | EmptyString => None
                end
            | None => None
            end
          else None
      | EmptyString => None
      end
  end.

Definition parse (s : string) : option jsval :=
  match value (S (String.length s)) s with
  | Some (v, rest) =>
      match skip_ws rest with
      | EmptyString => Some v
      | _ => None
      end
  | None => None
  end.

Definition scalar_eqb (a b : jsval) : bool :=
  match a, b with
  | JNull, JNull => true
  | JBool x, JBool y => Bool.eqb x y
  | JNum x, JNum y => (x =? y)%Z
  | JStr x, JStr y => x =? y
  | _, _ => false
  end.

(** [a @> b]: every member of an object [b] is contained in the member of
    [a] with the same key, every element of an array [b] in some element of
    [a], and scalars are equal. *)
Fixpoint contains (a b : jsval) {struct b} : bool :=
  match b with
  | JObj ob =>
      match a with
      | JObj oa =>
          (fix all (ob : list (string * jsval)) : bool :=
             match ob with
             | [] => true
             | (k, vb) :: ob' =>
                 match get k oa with
                 | Some va => contains va vb
                 | None => false
                 end && all ob'
             end) ob
      | _ => false
      end
  | JArr lb =>
      match a with
      | JArr la =>
          (fix all (lb : list jsval) : bool :=
             match lb with
             | [] => true
             | vb :: lb' => existsb (fun va => contains va vb) la && all lb'
             end) lb
      | _ => false
      end
  | _ => scalar_eqb a b
  end.

#[export] Instance platform : Platform := {|
  js_Number := Number;
  js_String := to_String;
  zod_datetime := datetime;
  Date_parse := parse_date;
  toISOString := iso_string;
  JSON_stringify := stringify;
  JSON_parse := parse;
  pg_prepareValue := stringify;
  jsonb_in := parse;
  jsonb_contains := contains
|}.

(** A quiet environment: the clock starts on 2026-01-01 and advances one
    millisecond per reading; nothing fails. *)
Definition quiet : Env :=
  {| time_at := fun n => (Z.of_nat n + 1767225600000)%Z;
     uuid_at := fun n => ("7d9f3a" ++ pad 2 (Z.of_nat n) ++ "-5b1c-4e2a-9c3d-0f1e2d3c4b5a")%string;
     fault_at := fun _ => false;
     caller_gone := false;
     n_time := 0; n_uuid := 0; n_stmt := 0 |}.

(** The same environment with the [k]-th statement failed. *)
Definition failing (k : nat) : Env :=
  {| time_at := time_at quiet; uuid_at := uuid_at quiet;
     fault_at := fun n => (n =? k)%nat;
     caller_gone := false;
     n_time := 0; n_uuid := 0; n_stmt := 0 |}.

(** The environment of a request whose caller closes the connection while
    the request is being handled. *)
Definition hang_up (e : Env) : Env :=
  {| time_at := time_at e; uuid_at := uuid_at e; fault_at := fault_at e;
     caller_gone := true;
     n_time := n_time e; n_uuid := n_uuid e; n_stmt := n_stmt e |}.

Definition server : Server :=
  {| store := {| table := []; next_id := 1 |};
     world := quiet;
     pool := {| idle := []; total := 0 |};
     apiKeys := [("COMP001", "super-secret-key-comp001-2026");
                 ("COMP002", "super-secret-key-comp002-2026")] |}.

Definition entry (fields : obj) : jsval := JObj fields.

(** The two events of the offline client's usage example, with their
    process ids. *)
Definition check_in : jsval :=
  entry [("process_id", JStr "p-0001"); ("emp_id", JStr "EMP123");
         ("source_app", JStr "MOBILE_APP"); ("source_function", JStr "CHECK_IN");
         ("action", JStr "CHECK_IN_SUCCESS");
         ("created_at", JStr "2026-01-02T08:00:00Z");
         ("metadata", JObj [("location", JStr "Quezon City"); ("device", JStr "Android")])].

Definition submit_leave : jsval :=
  entry [("process_id", JStr "p-0002"); ("source_app", JStr "MOBILE_APP");
         ("action", JStr "SUBMIT_LEAVE");
         ("created_at", JStr "2026-01-03T09:30:00Z");
         ("metadata", JObj [("days", JNum 3)])].

Definition batch_of (comp : string) (entries : list jsval) : Request :=
  {| method := POST; route := LogsBatch; req_query := [];
     req_body := JObj [("comp_code", JStr comp); ("created_by", JStr "MOBILE_USER");
                       ("app_version", JStr "1.2.3"); ("logs", JArr entries)];
     x_api_key := Some "super-secret-key-comp001-2026" |}.

Definition read (r : Route) (q : obj) : Request :=
  {| method := GET; route := r; req_query := ("comp_code", JStr "COMP001") :: q;
     req_body := JObj []; x_api_key := Some "super-secret-key-comp001-2026" |}.

(** The server after a request, ready for the next one. *)
Definition after (r : Run) (srv : Server) : Server :=
  {| store := r_store r; world := r_env r; pool := r_pool r; apiKeys := apiKeys srv |}.

Definition bound : Session :=
  {| current_tenant := Some "COMP001"; txn := None; history := [] |}.

Definition state : St := {| db := store server; client := bound; env := quiet |}.

(** The validated payload of the two-event batch. *)
Definition two_events : Payload :=
  match batchSchema (req_body (batch_of "COMP001" [check_in; submit_leave])) with
  | Valid p => p
  | ZodError => {| p_comp_code := ""; p_app_version := None; p_created_by := ""; logs := [] |}
  end.

Definition stored : BatchResult :=
  {| r_batch_id := "BATCH_20260101_7d9f3a00"; total_received := 2 |}.

(** The state after the batch has been stored once. *)
Definition state1 : St := snd (storeBatchLogs two_events state).

Definition value_of {A} (d : A) (r : Res A) : A :=
  match r with
  | Ok a => a
  | Throw _ => d
  end.

Definition no_page : Page := {| rows := []; total_count := 0 |}.

Definition all_of_tenant : Filters :=
  match searchSchema [("comp_code", JStr "COMP001")] with
  | Valid f => f
  | ZodError => filters_of {| q_comp_code := ""; q_limit := 0; q_offset := 0;
                              q_from := None; q_to := None |} None None None
  end.

(** A search whose first parameter is a metadata filter. *)
Definition search_by_metadata (m : string) : Request :=
  {| method := GET; route := LogsSearch;
     req_query := [("metadata", JStr m); ("comp_code", JStr "COMP001")];
     req_body := JObj []; x_api_key := Some "super-secret-key-comp001-2026" |}.

(** The server after the two-event batch has been stored. *)
Definition server1 : Server :=
  after (serve server (batch_of "COMP001" [check_in; submit_leave])) server.

(** The same server about to handle a request whose caller will not wait
    for the answer. *)
Definition deserted (srv : Server) : Server :=
  {| store := store srv; world := hang_up (world srv); pool := pool srv;
     apiKeys := apiKeys srv |}.

(** ** Further fixtures *)

Definition bound_to (tenant : string) : Session :=
  {| current_tenant := Some tenant; txn := None; history := [] |}.

Definition no_result : BatchResult := {| r_batch_id := ""; total_received := 0 |}.

Definition no_payload : Payload :=
  {| p_comp_code := ""; p_app_version := None; p_created_by := ""; logs := [] |}.

(** A batch of tenant COMP002 whose entry reuses a process id of COMP001. *)
Definition foreign : Payload :=
  match batchSchema (req_body (batch_of "COMP002" [check_in])) with
  | Valid p => p
  | ZodError => no_payload
  end.

Definition no_log : Log :=
  {| l_emp_id := None; l_process_id := None; l_source_app := ""; l_source_function := None;
     l_reference_id := None; l_action := ""; l_description := None; l_created_at := None;
     l_metadata := JNull |}.

(** The validated first entry of the two-event batch. *)
Definition first_log : Log := hd no_log (logs two_events).

(** An entry whose description holds U+0000, and the validated batch made
    of it. *)
Definition with_nul : jsval :=
  entry [("process_id", JStr "p-0003"); ("source_app", JStr "MOBILE_APP");
         ("action", JStr "ADD_NOTE");
         ("description", JStr (String "a" (String Ascii.zero "b")))].

Definition one_with_nul : Payload :=
  match batchSchema (req_body (batch_of "COMP001" [with_nul])) with
  | Valid p => p
  | ZodError => no_payload
  end.

(** The rows of a page answer. *)
Definition rows_served (r : Run) : list Row :=
  match response r with
  | Some {| payload := PageOf data _ _ _ _ |} => data
  | _ => []
  end.

Definition by_employee (emp : string) : Filters :=
  filters_of {| q_comp_code := "COMP001"; q_limit := 50; q_offset := 0;
                q_from := None; q_to := None |} (Some emp) None None.

Definition by_function (app fn : string) : Filters :=
  filters_of {| q_comp_code := "COMP001"; q_limit := 50; q_offset := 0;
                q_from := None; q_to := None |} None (Some app) (Some (JStr fn)).

(** The two events of the offline client's usage example, as the
    application passes them to [log]: without process id or timestamp. *)
Definition checked_in : obj :=
  [("emp_id", JStr "EMP123"); ("source_app", JStr "MOBILE_APP");
   ("source_function", JStr "CHECK_IN"); ("action", JStr "CHECK_IN_SUCCESS");
   ("description", JStr "User checked in at office");
   ("metadata", JObj [("location", JStr "Quezon City")])].

Definition leave_submitted : obj :=
  [("source_app", JStr "MOBILE_APP"); ("action", JStr "SUBMIT_LEAVE");
   ("description", JStr "Leave request submitted offline");
   ("metadata", JObj [("days", JNum 3)])].

(** An event with a property the server's entry schema does not list. *)
Definition tagged : obj :=
  [("source_app", JStr "MOBILE_APP"); ("action", JStr "OPEN_SCREEN");
   ("created_at", JStr "2026-01-02T08:00:00Z"); ("screen", JStr "settings")].

(** The usage example's logger after its two [log] calls. *)
Definition two_logged : Client.State :=
  Client.run [Client.Log checked_in; Client.Log leave_submitted]
    (Client.fresh None (Some "super-secret-key-comp001-2026") quiet).

(** A logger whose only event was [tagged], after its first sync failed. *)
Definition stuck : list Client.Event :=
  [Client.Log tagged; Client.Settle 0 Client.Rejected].


Definition by_other_method : Request :=
  {| method := OtherMethod; route := LogsSearch;
     req_query := [("comp_code", JStr "COMP001")]; req_body := JObj [];
     x_api_key := Some "super-secret-key-comp001-2026" |}.

(** [GET /audit/logs/search?comp_code[]=COMP001] *)
Definition with_array_tenant : Request :=
  {| method := GET; route := LogsSearch;
     req_query := [("comp_code", JArr [JStr "COMP001"])]; req_body := JObj [];
     x_api_key := Some "super-secret-key-comp001-2026" |}.

End Demo.

(* ===================================================================== *)
(** * Vocabulary of the proofs *)
(* ===================================================================== *)

Ltac break_match :=
  match goal with
  | |- context [match ?x with _ => _ end] => destruct x eqn:?
  | H : context [match ?x with _ => _ end] |- _ => destruct x eqn:?
  end.

Ltac inv H := inversion H; subst; clear H.

Ltac inv_pairs :=
  repeat match goal with
         | H : (_, _) = (_, _) |- _ => inv H
         end.

Definition is_ok {A} (r : Res A) : bool :=
  match r with
  | Ok _ => true
  | Throw _ => false
  end.

(** A service call reads the clock, draws uuids and sends statements; none
    of that decides whether the caller stays. *)
Definition keeps_caller {A} (m : M A) : Prop :=
  forall st r st', m st = (r, st') -> caller_gone (env st') = caller_gone (env st).

Section BatchVocabulary.
Context {P : Platform}.

(** The values [insert_log] binds, once the process id and the timestamp
    are chosen. *)
Definition values_of (payload : Payload) (batch_id : string) (log : Log)
    (pid : string) (at_ : option Z) : InsertValues :=
  {| v_process_id := pid;
     v_comp_code := p_comp_code payload;
     v_emp_id := or_null (l_emp_id log);
     v_source_app := l_source_app log;
     v_source_function := or_null (l_source_function log);
     v_reference_id := or_null (l_reference_id log);
     v_action := l_action log;
     v_description := or_null (l_description log);
     v_metadata := if truthy (Some (l_metadata log))
                   then JSON_stringify (l_metadata log) else "{}";
     v_created_by := p_created_by payload;
     v_created_at := at_;
     v_app_version := or_null (p_app_version payload);
     v_batch_id := batch_id |}.

Definition pid_of (log : Log) : string :=
  match l_process_id log with
  | Some s => s
  | None => ""
  end.

(** The choices [insert_log] makes before it sends its statement. *)
Definition prepare (log : Log) (st : St) : string * option Z * St :=
  let '(pid, st1) :=
    if nonempty (l_process_id log) then (pid_of log, st)
    else (uuid_at (env st) (n_uuid (env st)), snd (uuidv4 st)) in
  let '(at_, st2) :=
    if nonempty (l_created_at log)
    then (match l_created_at log with Some s => Date_parse s | None => None end, st1)
    else (Some (time_at (env st1) (n_time (env st1))), snd (new_Date st1)) in
  (pid, at_, st2).

Definition known (W : list Row) (k : string) : bool :=
  existsb (fun r' => process_id r' =? k) W.

(** What a first, successful submission of an entry establishes: the entry
    carries its own process id, its timestamp (if it has one) parses, and
    whatever batch id, row id and clock value a later call uses, its row
    converts, passes the policy, and meets a stored row with its key. *)
Definition resubmittable (W : list Row) (tn : string) (payload : Payload) (log : Log) : Prop :=
  nonempty (l_process_id log) = true /\
  (nonempty (l_created_at log) = true ->
   exists a, match l_created_at log with Some s => Date_parse s | None => None end = Some a) /\
  forall i bid b a,
    varchar 100 bid = Some b ->
    exists row,
      coerce_row i (values_of payload bid log (pid_of log) (Some a)) = Some row /\
      tenant_isolation tn row = true /\ known W (process_id row) = true.

End BatchVocabulary.

(** The three retrieval functions, as one family. *)
Inductive Retrieval : Type := ByEmployee | ByApplication | Search.

Definition descending (l : list Row) : Prop :=
  StronglySorted (fun a b => (created_at b <= created_at a)%Z) l.

Section RetrievalVocabulary.
Context {P : Platform}.

Definition retrieve (op : Retrieval) : Filters -> M Page :=
  match op with
  | ByEmployee => getUserLogs
  | ByApplication => getAppLogs
  | Search => searchLogs
  end.

Definition count_sql (op : Retrieval) : Filters -> Sql :=
  match op with
  | ByEmployee => user_count_sql
  | ByApplication => app_count_sql
  | Search => search_count_sql
  end.

Definition page_sql (op : Retrieval) : Filters -> Sql :=
  match op with
  | ByEmployee => user_page_sql
  | ByApplication => app_page_sql
  | Search => search_page_sql
  end.

(** A statement under construction that starts with the tenant conjunct
    [comp_code = $1] bound to [cc], whose next index is one past its
    parameters, and whose placeholders all point into its parameters. *)
Definition tenant_first (cc : string) (acc : Sql) : Prop :=
  let '(sql, params, idx) := acc in
  (exists sql' params',
     sql = cond c_comp_code OpEq 1 :: sql' /\ params = PText cc :: params') /\
  idx = S (List.length params) /\
  Forall (fun c => 1 <= c_ph c <= List.length params) sql.

End RetrievalVocabulary.

(** The server once a request that held a session has been answered with
    [resp] and its ['finish'] listener has run. *)
Definition finished (r : Run) (resp : Response) : Run :=
  {| r_store := r_store r; r_env := r_env r;
     r_pool := match dbClient r with
               | Some c => {| idle := idle (r_pool r) ++ [c]; total := total (r_pool r) |}
               | None => r_pool r
               end;
     dbClient := dbClient r; releases := 1; response := Some resp;
     listeners := [ReleaseDbClient]; tasks := [] |}.

(** The same request answered after its caller had gone: ['finish'] is
    never emitted, the listener never runs, and the session stays with the
    request. *)
Definition abandoned (r : Run) (resp : Response) : Run :=
  {| r_store := r_store r; r_env := r_env r; r_pool := r_pool r;
     dbClient := dbClient r; releases := 0; response := Some resp;
     listeners := [ReleaseDbClient]; tasks := [] |}.

(** The server once such a request has been answered, one way or the
    other: with its session released if the caller was there to be
    answered, with its session kept if not. *)
Definition ended (r : Run) (resp : Response) : Run :=
  {| r_store := r_store r; r_env := r_env r;
     r_pool := if caller_gone (r_env r) then r_pool r else r_pool (finished r resp);
     dbClient := dbClient r;
     releases := if caller_gone (r_env r) then 0 else 1;
     response := Some resp; listeners := [ReleaseDbClient]; tasks := [] |}.

Definition page_or_error (filters : Filters) (res : Res Page) : Response :=
  match res with
  | Ok p => {| status := 200; payload := page_response filters p |}
  | Throw _ => {| status := 500; payload := Message false "Query failed" |}
  end.

Definition await (op : Retrieval) (filters : Filters) : Task :=
  match op with
  | ByEmployee => AwaitUser filters
  | ByApplication => AwaitApp filters
  | Search => AwaitSearch filters
  end.

Definition stored_or_error (res : Res BatchResult) : Response :=
  match res with
  | Ok result => {| status := 201;
                    payload := Stored "Logs successfully stored"
                                 (Service.total_received result) (r_batch_id result) |}
  | Throw _ => {| status := 500; payload := Message false "Failed to store logs" |}
  end.

(** The two statements of the tenant bind; every other statement reads or
    writes the audit table or controls a transaction on it. *)
Definition binds_tenant (s : Stmt) : bool :=
  match s with
  | SRaw _ | SShowTenant => true
  | _ => false
  end.

Section PipelineVocabulary.
Context {P : Platform}.

(** A request in flight that holds session [c] and has neither answered
    nor registered anything yet. *)
Definition holding (c : Session) (r : Run) : Prop :=
  dbClient r = Some c /\ releases r = 0 /\ response r = None /\
  listeners r = [] /\ tasks r = [].

(** The first half of a request: who it is, and the session it gets. *)
Inductive Admission (srv : Server) (req : Request) : Prop :=
| Refused (resp : Response)
    (A : auth (apiKeys srv) req = inl resp)
| Unserved (cc : jsval) (r1 : Run)
    (A : auth (apiKeys srv) req = inr cc)
    (G : getClient (start srv) = (None, r1))
| SetupFailed (cc : jsval) (c0 : Session) (r1 : Run) (e : Err) (r2 : Run)
    (A : auth (apiKeys srv) req = inr cc)
    (G : getClient (start srv) = (Some c0, r1))
    (B : call (bind_tenant cc) c0 r1 = (Throw e, r2))
| Bound (cc : jsval) (c0 : Session) (r1 : Run) (r2 : Run)
    (A : auth (apiKeys srv) req = inr cc)
    (G : getClient (start srv) = (Some c0, r1))
    (B : call (bind_tenant cc) c0 r1 = (Ok tt, r2)).

(** What the router does with a request that holds a session: it answers
    at once, or leaves one service call for the next turn. *)
Inductive Routed (req : Request) (r : Run) : Prop :=
| Answered (code : nat) (b : Body)
    (E : router req r = respond code b r)
    (N : code = 400 \/ code = 404)
| StoreNext (validated : Payload)
    (E : router req r = later (AwaitStore validated) r)
    (Hm : method req = POST) (Hr : route req = LogsBatch)
    (V : batchSchema (req_body req) = Valid validated)
| QueryNext (op : Retrieval) (filters : Filters)
    (E : router req r = later (await op filters) r)
    (Hm : method req = GET)
    (V : match op with
         | ByEmployee => exists emp v, route req = LogsUser emp /\
                           querySchema (req_query req) = Valid v /\
                           filters = filters_of v (Some emp) None None
         | ByApplication => exists app v, route req = LogsApp app /\
                           querySchema (req_query req) = Valid v /\
                           filters = filters_of v None (Some app)
                                       (get "source_function" (req_query req))
         | Search => route req = LogsSearch /\
                     searchSchema (req_query req) = Valid filters
         end).

End PipelineVocabulary.

(** ** Vocabulary of the further properties *)

Section RowVocabulary.
Context {P : Platform}.

(** The rows one entry of the loop leaves behind. *)
Definition entry_row (payload : Payload) (bid : string) (ls : list Log)
    (tenant : option string) (W : list Row) (r : Row) : Prop :=
  known W (process_id r) = false /\
  tenant = Some (comp_code r) /\
  varchar 50 (p_comp_code payload) = Some (comp_code r) /\
  varchar 50 (p_created_by payload) = Some (created_by r) /\
  (exists b, varchar 100 bid = Some b /\ batch_id r = Some b) /\
  exists log, In log ls /\
    (nonempty (l_process_id log) = true -> varchar 100 (pid_of log) = Some (process_id r)).

End RowVocabulary.


Definition reads (s : Stmt) : bool :=
  match s with
  | SCount _ _ | SSelect _ _ _ _ => true
  | _ => false
  end.

Section SelectVocabulary.
Context {P : Platform}.

(** What an optional equality filter asks of a column value: nothing when
    the filter is absent or empty, else that the column holds the filter. *)
Definition text_filter (x : option string) (c : option string) : Prop :=
  nonempty x = true -> c = x.

(** [created_at >= $n] with [new Date(from)] bound to [$n]. *)
Definition since (x : option string) (r : Row) : Prop :=
  nonempty x = true ->
  exists s t, x = Some s /\ Date_parse s = Some t /\ (t <= created_at r)%Z.

(** [created_at <= $n] with [new Date(to)] bound to [$n]. *)
Definition until (x : option string) (r : Row) : Prop :=
  nonempty x = true ->
  exists s t, x = Some s /\ Date_parse s = Some t /\ (created_at r <= t)%Z.

(** [source_function = $n] with the filter's value bound as it is: a string
    as itself, anything else in the driver's text encoding. *)
Definition function_filter (x : option jsval) (r : Row) : Prop :=
  truthy x = true ->
  exists v, x = Some v /\
    source_function r = Some (match v with JStr s => s | _ => pg_prepareValue v end).

(** [metadata @> $n::jsonb] *)
Definition metadata_filter (x : option string) (r : Row) : Prop :=
  nonempty x = true ->
  exists m d md, x = Some m /\ jsonb_in m = Some d /\
                 metadata r = Some md /\ jsonb_contains md d = true.

(** The accumulator's WHERE clause, once bound, holds of exactly the rows
    that satisfy [phi]. *)
Definition means (acc : Sql) (phi : Row -> Prop) : Prop :=
  let '(sql, params, _) := acc in
  forall p, bind_where params sql = Some p -> forall r, p r = true <-> phi r.

End SelectVocabulary.

(** The [comp_code] auth reads: from the body of a POST, from the query of
    a GET, from nowhere for any other method (auth.js, lines 7-16). *)
Definition claimed_comp_code (req : Request) : option jsval :=
  match method req with
  | POST => body_get "comp_code" (req_body req)
  | GET => get "comp_code" (req_query req)
  | OtherMethod => None
  end.

Definition comp_code_required : Body :=
  Message false "comp_code is required for multi-tenant access".


Definition setup_failed : Body := Message false "Tenant setup failed".

(** A request that was answered without any session being taken from the
    pool: store, pool and environment are as they were. *)
Definition untouched (srv : Server) (r : Run) : Prop :=
  r_store r = store srv /\ r_pool r = pool srv /\ r_env r = world srv /\
  dbClient r = None /\ releases r = 0 /\ tasks r = [].

(** The field widths [logSchema] and [batchSchema] allow. *)
Definition fits (n : nat) (s : option string) : Prop :=
  match s with
  | Some s => String.length s <= n
  | None => True
  end.

(** An event whose [process_id], if it has a truthy one, is a string. *)
Definition string_keyed (event : obj) : Prop :=
  match get "process_id" event with
  | Some (JStr _) => True
  | v => truthy v = false
  end.

Definition logs_of (p : Client.Post) : option jsval := body_get "logs" (Client.data p).

(** What holds of the client after any sequence of events. *)
Definition consistent (c : Client.State) : Prop :=
  List.length (Client.suspended c) <= 1 /\
  (Client.isSyncing (Client.logger c) = true <-> Client.suspended c <> []) /\
  Forall (fun batch => batch <> [] /\ exists rest, Client.queue (Client.logger c) = batch ++ rest)
         (Client.suspended c).

Definition string_keyed_queue (c : Client.State) : Prop :=
  Forall (fun entry => exists s, get "process_id" entry = Some (JStr s)) (Client.queue (Client.logger c)).

(** A post of the client as the server receives it, when the client's
    [baseURL] is the server's: a POST to [/audit/logs/batch] whose body is
    the payload. *)
Definition request_of (p : Client.Post) : Request :=
  {| method := POST; route := LogsBatch; req_query := [];
     req_body := Client.data p; x_api_key := Client.header_x_api_key p |}.

(** One round of retrying: [forceSync], then the request is rejected. *)
Definition failed_round (c : Client.State) : Client.State :=
  Client.settle 0 Client.Rejected (Client.forceSync c).

(** An entry that brings a process id the column can hold. *)
Definition keyed (log : Log) : Prop :=
  exists s, l_process_id log = Some s /\ s <> "" /\ String.length s <= 100.

(** The entries whose process id no row of [W] has. *)
Definition unseen (W : list Row) (ls : list Log) : list Log :=
  filter (fun log => negb (known W (pid_of log))) ls.


(* ===================================================================== *)
(** * The tenant bind *)
(* ===================================================================== *)

Section TenantBind.
Context {P : Platform}.

Lemma strip_prefix_app (p s : string) : strip_prefix p (p ++ s)%string = Some s.
Proof.
  induction p as [|a p IH]; simpl.
  - destruct s; reflexivity.
  - rewrite Ascii.eqb_refl. exact IH.
Qed.

(** Lexing undoes the doubling of quotes, and the constant ends exactly
    where the statement text ends. *)
Lemma lex_literal_escaped (t : string) :
  lex_literal (replace_all "'" "''" t ++ "'")%string = Some (t, EmptyString).
Proof.
  induction t as [|a t IH]; simpl.
  - reflexivity.
  - destruct (Ascii.eqb a "'") eqn:E.
    + apply Ascii.eqb_eq in E. subst a. simpl. rewrite IH. reflexivity.
    + simpl. rewrite E, IH. reflexivity.
Qed.

Lemma parse_set_bind_statement (t : string) : parse_set (bind_statement t) = Some t.
Proof.
  unfold parse_set, bind_statement.
  change ("SET app.current_tenant = '" ++ replace_all "'" "''" t ++ "'")%string
    with (set_prefix ++ String "'" (replace_all "'" "''" t ++ "'"))%string.
  rewrite strip_prefix_app. simpl. rewrite lex_literal_escaped. reflexivity.
Qed.


End TenantBind.


(* ===================================================================== *)
(** * The store and the batch ingestor *)
(* ===================================================================== *)

Section StoreFacts.
Context {P : Platform}.

Lemma write_in_txn rows i db c t :
  txn c = Some t ->
  write rows i db c =
    ({| table := table db; next_id := i |},
     with_txn (Some {| work := rows; aborted := aborted t;
                       tenant_at_begin := tenant_at_begin t |}) c).
Proof. unfold write. intros ->. reflexivity. Qed.

Lemma write_history rows i db c db' c' :
  write rows i db c = (db', c') -> history c' = history c.
Proof. unfold write. destruct (txn c); intros H; inv H; reflexivity. Qed.

Lemma write_tenant rows i db c db' c' :
  write rows i db c = (db', c') -> current_tenant c' = current_tenant c.
Proof. unfold write. destruct (txn c); intros H; inv H; reflexivity. Qed.

Lemma run_history s db c r db' c' :
  run s db c = (r, db', c') -> history c' = history c.
Proof.
  destruct s; simpl; intros H; repeat (break_match; try discriminate); inv_pairs;
    try reflexivity; eauto using write_history.
Qed.

Lemma attempt_history fault s db c r db' c' :
  attempt fault s db c = (r, db', c') -> history c' = history c.
Proof.
  unfold attempt. repeat (break_match; try discriminate); intros H; inv_pairs;
    eauto using run_history.
Qed.

Lemma fail_in_txn_history c : history (fail_in_txn c) = history c.
Proof. unfold fail_in_txn. destruct (txn c); reflexivity. Qed.

Lemma fail_in_txn_tenant c : current_tenant (fail_in_txn c) = current_tenant c.
Proof. unfold fail_in_txn. destruct (txn c); reflexivity. Qed.

(** What one statement can do to the committed table: nothing, unless it is
    a successful COMMIT of a healthy transaction or an INSERT in autocommit
    mode. *)
Lemma attempt_table fault s db c r db' c' :
  attempt fault s db c = (r, db', c') ->
  table db' = table db \/
  (s = SCommit /\ r <> None /\
   exists t, txn c = Some t /\ aborted t = false /\ table db' = work t) \/
  ((exists v, s = SInsert v) /\ txn c = None).
Proof.
  unfold attempt. destruct fault; [intros H; inv H; auto|].
  destruct (in_aborted_txn c && negb (ends_txn s)); [intros H; inv H; auto|].
  destruct s; simpl; intros H; repeat (break_match; try discriminate); inv_pairs; auto.
  - right; left. split; [reflexivity|]. split; [discriminate|]. eauto.
  - destruct (txn c) eqn:Ht; [left|right; right; eauto].
    rewrite (write_in_txn _ _ _ _ _ Ht) in *. inv_pairs. reflexivity.
  - destruct (txn c) eqn:Ht; [left|right; right; eauto].
    rewrite (write_in_txn _ _ _ _ _ Ht) in *. inv_pairs. reflexivity.
Qed.

(** The frame of one round trip: counters, history, oracles. *)
Lemma query_frame s st r st' :
  query s st = (r, st') ->
  env st' = sent (env st) /\
  history (client st') = history (client st) ++ [(s, is_ok r)].
Proof.
  unfold query, exec. intros H.
  destruct (attempt (fault_at (env st) (n_stmt (env st))) s (db st) (client st))
    as [[reply db1] c1] eqn:E.
  apply attempt_history in E.
  destruct reply; inv H; simpl; rewrite ?fail_in_txn_history, E; auto.
Qed.

Lemma query_table s st r st' :
  query s st = (r, st') ->
  table (db st') = table (db st) \/
  (s = SCommit /\ is_ok r = true /\
   exists t, txn (client st) = Some t /\ aborted t = false /\ table (db st') = work t) \/
  ((exists v, s = SInsert v) /\ txn (client st) = None).
Proof.
  unfold query, exec. intros H.
  destruct (attempt (fault_at (env st) (n_stmt (env st))) s (db st) (client st))
    as [[reply db1] c1] eqn:E.
  apply attempt_table in E.
  destruct reply; inv H; simpl.
  - destruct E as [E|[E|E]]; auto. right; left. tauto.
  - destruct E as [E|[[_ [E _]]|E]]; auto. congruence.
Qed.

Lemma query_insert_in_txn v st t r st' :
  txn (client st) = Some t ->
  query (SInsert v) st = (r, st') ->
  table (db st') = table (db st) /\
  current_tenant (client st') = current_tenant (client st) /\
  match r with
  | Throw _ => exists t', txn (client st') = Some t'
  | Ok _ =>
      fault_at (env st) (n_stmt (env st)) = false /\ aborted t = false /\
      exists tn row,
        current_tenant (client st) = Some tn /\
        coerce_row (next_id (db st)) v = Some row /\
        tenant_isolation tn row = true /\
        txn (client st') =
          Some {| work := if existsb (fun r' => process_id r' =? process_id row) (work t)
                          then work t else work t ++ [row];
                  aborted := aborted t; tenant_at_begin := tenant_at_begin t |}
  end.
Proof.
  intros Ht. unfold query, exec, attempt.
  destruct (fault_at (env st) (n_stmt (env st))) eqn:F.
  { intros H; inv H; simpl. unfold fail_in_txn. rewrite Ht. simpl. eauto. }
  unfold in_aborted_txn. rewrite Ht. simpl ends_txn. simpl negb. rewrite andb_true_r.
  destruct (aborted t) eqn:A.
  { intros H; inv H; simpl. unfold fail_in_txn. rewrite Ht. simpl. eauto. }
  simpl. unfold visible. rewrite Ht.
  destruct (current_tenant (client st)) as [tn|] eqn:T.
  2:{ intros H; inv H; simpl. unfold fail_in_txn. rewrite Ht. simpl. rewrite T. eauto. }
  destruct (coerce_row (next_id (db st)) v) as [row|] eqn:C.
  2:{ intros H; inv H; simpl. unfold fail_in_txn. rewrite Ht. simpl. rewrite T. eauto. }
  destruct (tenant_isolation tn row) eqn:I.
  2:{ intros H; inv H; simpl. unfold fail_in_txn. rewrite Ht. simpl. rewrite T. eauto. }
  rewrite !(write_in_txn _ _ _ _ _ Ht).
  destruct (existsb (fun r' => process_id r' =? process_id row) (work t)) eqn:X;
    intros H; inv H; simpl; rewrite ?T, ?A; repeat split; auto;
    exists tn, row; rewrite X; auto.
Qed.


Lemma query_begin st r st' :
  query SBegin st = (r, st') ->
  table (db st') = table (db st) /\
  (is_ok r = true ->
   current_tenant (client st') = current_tenant (client st) /\
   exists t, txn (client st') = Some t /\ aborted t = false /\
             (txn (client st) = None -> work t = table (db st))).
Proof.
  unfold query, exec, attempt.
  destruct (fault_at (env st) (n_stmt (env st))).
  { intros H; inv H; simpl. split; [reflexivity|discriminate]. }
  unfold in_aborted_txn. simpl.
  destruct (txn (client st)) as [t|] eqn:Ht.
  - rewrite andb_true_r. destruct (aborted t) eqn:A; intros H; inv H; simpl.
    + split; [reflexivity|discriminate].
    + split; [reflexivity|]. intros _. split; [reflexivity|].
      exists t. rewrite Ht. repeat split; auto. discriminate.
  - simpl. intros H; inv H; simpl. split; [reflexivity|]. intros _. split; [reflexivity|].
    eexists. split; [reflexivity|]. simpl. auto.
Qed.

Lemma query_rollback st r st' :
  query SRollback st = (r, st') -> table (db st') = table (db st).
Proof.
  intros H. apply query_table in H. destruct H as [H|[[H _]|[[v H] _]]];
    [exact H|discriminate|discriminate].
Qed.

Lemma query_commit st r st' :
  query SCommit st = (r, st') ->
  match r with
  | Throw _ => table (db st') = table (db st)
  | Ok _ =>
      match txn (client st) with
      | Some t => if aborted t then table (db st') = table (db st)
                  else table (db st') = work t /\ txn (client st') = None /\
                       current_tenant (client st') = current_tenant (client st)
      | None => table (db st') = table (db st)
      end
  end.
Proof.
  unfold query, exec, attempt.
  destruct (fault_at (env st) (n_stmt (env st))).
  { intros H; inv H; simpl. reflexivity. }
  simpl ends_txn. simpl negb. rewrite andb_false_r. simpl.
  destruct (txn (client st)) as [t|] eqn:Ht.
  - destruct (aborted t); intros H; inv H; simpl; auto.
  - intros H; inv H; simpl. reflexivity.
Qed.
End StoreFacts.

Section BatchFacts.
Context {P : Platform}.

Lemma insert_log_eq payload bid log st :
  insert_log payload bid log st =
    let '(pid, at_, st0) := prepare log st in
    match query (SInsert (values_of payload bid log pid at_)) st0 with
    | (Ok _, st') => (Ok tt, st')
    | (Throw e, st') => (Throw e, st')
    end.
Proof.
  unfold insert_log, prepare, bind, ret, pid_of, values_of.
  destruct (nonempty (l_process_id log)); destruct (nonempty (l_created_at log)); simpl;
    match goal with |- context [query ?s ?x] => destruct (query s x) as [[?|?] ?] end;
    reflexivity.
Qed.

Lemma prepare_frame log st pid at_ st0 :
  prepare log st = (pid, at_, st0) ->
  db st0 = db st /\ client st0 = client st /\
  fault_at (env st0) = fault_at (env st) /\ n_stmt (env st0) = n_stmt (env st).
Proof.
  unfold prepare.
  destruct (nonempty (l_process_id log)); destruct (nonempty (l_created_at log));
    intros H; inv H; simpl; auto.
Qed.

Lemma prepare_given log st pid at_ st0 :
  prepare log st = (pid, at_, st0) ->
  (nonempty (l_process_id log) = true -> pid = pid_of log) /\
  (nonempty (l_created_at log) = false -> at_ <> None) /\
  (nonempty (l_created_at log) = true ->
   at_ = match l_created_at log with Some s => Date_parse s | None => None end).
Proof.
  unfold prepare.
  destruct (nonempty (l_process_id log)); destruct (nonempty (l_created_at log));
    intros H; inv H; simpl; repeat split; intros; congruence.
Qed.

(** Inside an open transaction the loop never touches the committed table
    and never closes the transaction. *)
Lemma for_each_in_txn payload bid ls : forall st t r st',
  txn (client st) = Some t ->
  for_each (insert_log payload bid) ls st = (r, st') ->
  table (db st') = table (db st) /\ exists t', txn (client st') = Some t'.
Proof.
  induction ls as [|log ls IH]; intros st t r st' Ht H.
  - inv H. eauto.
  - simpl in H. unfold bind in H. rewrite insert_log_eq in H.
    destruct (prepare log st) as [[pid at_] st0] eqn:Pr.
    apply prepare_frame in Pr. destruct Pr as (Db & Cl & _ & _).
    destruct (query (SInsert (values_of payload bid log pid at_)) st0) as [x st1] eqn:Q.
    rewrite <- Cl in Ht.
    pose proof (query_insert_in_txn _ _ _ _ _ Ht Q) as (Tb & _ & R).
    destruct x.
    + destruct R as (_ & _ & tn & row & _ & _ & _ & Tx).
      apply (IH _ _ _ _ Tx) in H. destruct H as [H1 H2].
      split; [congruence|exact H2].
    + inv H. split; [congruence|exact R].
Qed.

(** C4, the core: a call that throws leaves the committed table as it was. *)
Lemma storeBatchLogs_throw_keeps_table payload st e st' :
  storeBatchLogs payload st = (Throw e, st') -> table (db st') = table (db st).
Proof.
  unfold storeBatchLogs, bind, try_catch, new_Date, uuidv4, ret, throw. simpl.
  match goal with |- context [query SBegin ?x] => set (stA := x) end.
  assert (TA : table (db stA) = table (db st)) by reflexivity.
  destruct (query SBegin stA) as [rb stB] eqn:B.
  pose proof (query_begin _ _ _ B) as [TB OB].
  destruct rb as [x|e0].
  - destruct OB as (_ & t & Tx & _); [reflexivity|].
    match goal with |- context [for_each ?f ?l stB] =>
      destruct (for_each f l stB) as [rf stC] eqn:F end.
    pose proof (for_each_in_txn _ _ _ _ _ _ _ Tx F) as [TC _].
    destruct rf as [u|e1].
    + destruct (query SCommit stC) as [rc stD] eqn:C.
      pose proof (query_commit _ _ _ C) as TD.
      destruct rc as [y|e2]; [discriminate|].
      destruct (query SRollback stD) as [rr stE] eqn:R.
      apply query_rollback in R.
      destruct rr; intros H; inv H; congruence.
    + destruct (query SRollback stC) as [rr stE] eqn:R.
      apply query_rollback in R.
      destruct rr; intros H; inv H; congruence.
  - destruct (query SRollback stB) as [rr stE] eqn:R.
    apply query_rollback in R.
    destruct rr; intros H; inv H; congruence.
Qed.

(** C7, the core. *)
Lemma storeBatchLogs_ok_total payload st result st' :
  storeBatchLogs payload st = (Ok result, st') ->
  total_received result = List.length (logs payload).
Proof.
  unfold storeBatchLogs, bind, try_catch, new_Date, uuidv4, ret, throw. simpl.
  destruct (query SBegin _) as [[x|e0] stB].
  - destruct (for_each _ _ stB) as [[u|e1] stC].
    + destruct (query SCommit stC) as [[y|e2] stD].
      * intros H; inv H. reflexivity.
      * destruct (query SRollback stD) as [[z|e3] stE]; discriminate.
    + destruct (query SRollback stC) as [[z|e3] stE]; discriminate.
  - destruct (query SRollback stB) as [[z|e3] stE]; discriminate.
Qed.

Lemma for_each_ok_history payload bid ls : forall st st',
  for_each (insert_log payload bid) ls st = (Ok tt, st') ->
  exists h, history (client st') = history (client st) ++ h /\
            Forall (fun e => snd e = true) h.
Proof.
  induction ls as [|log ls IH]; intros st st' H.
  - inv H. exists []. rewrite app_nil_r. auto.
  - simpl in H. unfold bind in H. rewrite insert_log_eq in H.
    destruct (prepare log st) as [[pid at_] st0] eqn:Pr.
    apply prepare_frame in Pr. destruct Pr as (_ & Cl & _ & _).
    destruct (query (SInsert (values_of payload bid log pid at_)) st0) as [[x|e] st1] eqn:Q;
      [|discriminate].
    apply query_frame in Q. destruct Q as [_ Hh]. simpl in Hh.
    apply IH in H. destruct H as (h & Hh' & Hall).
    exists ((SInsert (values_of payload bid log pid at_), true) :: h).
    rewrite Hh', Hh, Cl, <- app_assoc. split; [reflexivity|]. constructor; auto.
Qed.

(** A call that returns normally was sent only statements that succeeded. *)
Lemma storeBatchLogs_ok_history payload st result st' :
  storeBatchLogs payload st = (Ok result, st') ->
  exists h, history (client st') = history (client st) ++ h /\
            Forall (fun e => snd e = true) h.
Proof.
  unfold storeBatchLogs, bind, try_catch, new_Date, uuidv4, ret, throw. simpl.
  match goal with |- context [query SBegin ?x] => set (stA := x) end.
  destruct (query SBegin stA) as [[x|e0] stB] eqn:B.
  - destruct (for_each _ _ stB) as [[u|e1] stC] eqn:F.
    + destruct (query SCommit stC) as [[y|e2] stD] eqn:C.
      * intros H; inv H.
        apply query_frame in B, C. destruct B as [_ B], C as [_ C]. simpl in B, C.
        destruct u. apply for_each_ok_history in F. destruct F as (h & F & Hall).
        exists ((SBegin, true) :: h ++ [(SCommit, true)]).
        rewrite C, F, B. simpl. rewrite <- !app_assoc. split; [reflexivity|].
        constructor; [reflexivity|]. apply Forall_app. split; auto.
      * destruct (query SRollback stD) as [[z|e3] stE]; discriminate.
    + destruct (query SRollback stC) as [[z|e3] stE]; discriminate.
  - destruct (query SRollback stB) as [[z|e3] stE]; discriminate.
Qed.

(** ** Resubmission *)

Lemma coerce_row_process_id i v row :
  coerce_row i v = Some row -> varchar 100 (v_process_id v) = Some (process_id row).
Proof.
  unfold coerce_row. intros H. repeat (break_match; try discriminate). inv H. reflexivity.
Qed.

Lemma coerce_row_again payload bid log pid at_ i row i' bid' b' a' :
  coerce_row i (values_of payload bid log pid at_) = Some row ->
  varchar 100 bid' = Some b' ->
  exists row',
    coerce_row i' (values_of payload bid' log pid (Some a')) = Some row' /\
    process_id row' = process_id row /\ comp_code row' = comp_code row.
Proof.
  unfold coerce_row, sendable, values_of.
  cbn [v_process_id v_comp_code v_emp_id v_source_app v_source_function v_reference_id
       v_action v_description v_metadata v_created_by v_created_at v_app_version v_batch_id].
  generalize (if truthy (Some (l_metadata log))
              then JSON_stringify (l_metadata log) else "{}"%string).
  intros md H Hb. rewrite Hb.
  repeat (break_match; try discriminate). inv H.
  eexists. split; [reflexivity|]. simpl. auto.
Qed.

Lemma coerce_row_dated payload bid log pid at_ i row :
  coerce_row i (values_of payload bid log pid at_) = Some row -> exists a, at_ = Some a.
Proof.
  unfold coerce_row, values_of.
  cbn [v_process_id v_comp_code v_emp_id v_source_app v_source_function v_reference_id
       v_action v_description v_metadata v_created_by v_created_at v_app_version v_batch_id].
  generalize (if truthy (Some (l_metadata log))
              then JSON_stringify (l_metadata log) else "{}"%string).
  intros md H.
  repeat (break_match; try discriminate). eauto.
Qed.

Lemma known_incl W W' k : incl W W' -> known W k = true -> known W' k = true.
Proof.
  unfold known. rewrite !existsb_exists. intros I (x & Hx & E). exists x. auto.
Qed.

Lemma resubmittable_incl W W' tn payload log :
  incl W W' -> resubmittable W tn payload log -> resubmittable W' tn payload log.
Proof.
  intros I (H1 & H2 & H3). split; [exact H1|]. split; [exact H2|].
  intros i bid b a Hb. destruct (H3 i bid b a Hb) as (row & C & T & K).
  exists row. eauto using known_incl.
Qed.

Lemma tenant_isolation_comp_code tn r r' :
  comp_code r' = comp_code r -> tenant_isolation tn r = true -> tenant_isolation tn r' = true.
Proof. unfold tenant_isolation. intros ->. auto. Qed.

(** The first submission: when the loop completes, every entry is
    resubmittable against the rows the transaction then holds. *)
Lemma for_each_first payload bid ls : forall st t st',
  txn (client st) = Some t -> aborted t = false ->
  Forall (fun l => nonempty (l_process_id l) = true) ls ->
  for_each (insert_log payload bid) ls st = (Ok tt, st') ->
  exists t',
    txn (client st') = Some t' /\ aborted t' = false /\ incl (work t) (work t') /\
    current_tenant (client st') = current_tenant (client st) /\
    Forall (fun log => exists tn, current_tenant (client st) = Some tn /\
                                  resubmittable (work t') tn payload log) ls.
Proof.
  induction ls as [|log ls IH]; intros st t st' Ht A Hp H.
  - inv H. exists t. repeat split; auto using incl_refl.
  - simpl in H. unfold bind in H. rewrite insert_log_eq in H.
    destruct (prepare log st) as [[pid at_] st0] eqn:Pr.
    pose proof (prepare_frame _ _ _ _ _ Pr) as (Db & Cl & _ & _).
    pose proof (prepare_given _ _ _ _ _ Pr) as (Gp & Gn & Gd).
    inversion Hp as [|? ? Hp1 Hp2]; subst.
    specialize (Gp Hp1). subst pid.
    destruct (query (SInsert (values_of payload bid log (pid_of log) at_)) st0)
      as [[x|e] st1] eqn:Q; [|discriminate].
    rewrite <- Cl in Ht.
    pose proof (query_insert_in_txn _ _ _ _ _ Ht Q) as (Tb & Tn & _ & _ & tn & row & T & C & I & Tx).
    destruct (IH _ _ _ Tx A Hp2 H) as (t' & Tx' & A' & Inc & Tn' & All).
    simpl in Inc.
    assert (Inc0 : incl (work t) (work t')).
    { intros r Hr. apply Inc. destruct (existsb _ (work t)); auto using in_or_app. }
    exists t'. split; [exact Tx'|]. split; [exact A'|]. split; [exact Inc0|].
    split; [congruence|].
    constructor.
    + exists tn. split; [congruence|]. split; [exact Hp1|]. split.
      * intros Hd. rewrite <- (Gd Hd). eapply coerce_row_dated; eauto.
      * intros i' bid' b' a' Hb.
        destruct (coerce_row_again _ _ _ _ _ _ _ i' bid' b' a' C Hb) as (row' & C' & Ep & Ec).
        exists row'. split; [exact C'|]. split; [eauto using tenant_isolation_comp_code|].
        rewrite Ep. apply (known_incl _ _ _ Inc). unfold known.
        destruct (existsb _ (work t)) eqn:X; [exact X|].
        rewrite existsb_app. simpl. rewrite String.eqb_refl. rewrite orb_true_r. reflexivity.
    + rewrite Forall_forall in All |- *. intros l Hl.
      destruct (All l Hl) as (tn' & T' & R). exists tn'. split; [congruence|exact R].
Qed.




Lemma length_append (a b : string) :
  String.length (a ++ b)%string = String.length a + String.length b.
Proof. induction a; simpl; auto. Qed.

Lemma length_slice0 n : forall s, String.length (slice0 n s) <= n.
Proof.
  unfold slice0. induction n as [|n IH]; intros s; destruct s; simpl; auto with arith.
Qed.

Lemma length_replace_all_empty c s :
  String.length (replace_all c "" s) <= String.length s.
Proof.
  induction s as [|a s IH]; simpl; auto.
  destruct (Ascii.eqb a c); simpl; lia.
Qed.

Lemma batch_id_fits now u : varchar 100 (make_batch_id now u) = Some (make_batch_id now u).
Proof.
  unfold varchar. 
  assert (L : String.length (make_batch_id now u) <= 100).
  { unfold make_batch_id. rewrite !length_append.
    pose proof (length_replace_all_empty "-" (slice0 10 (toISOString now))).
    pose proof (length_slice0 10 (toISOString now)).
    pose proof (length_slice0 8 u). simpl String.length. lia. }
  apply Nat.leb_le in L. rewrite L. reflexivity.
Qed.



(** What a successful call leaves behind. *)
Lemma first_submission payload st0 result st1 :
  Forall (fun l => nonempty (l_process_id l) = true) (logs payload) ->
  storeBatchLogs payload st0 = (Ok result, st1) ->
  txn (client st1) = None /\
  Forall (fun log => exists tn, current_tenant (client st1) = Some tn /\
                                resubmittable (table (db st1)) tn payload log) (logs payload).
Proof.
  intros Hp.
  unfold storeBatchLogs, bind, try_catch, new_Date, uuidv4, ret, throw. simpl.
  match goal with |- context [query SBegin ?x] => set (stA := x) end.
  match goal with |- context [make_batch_id ?a ?b] => set (bid := make_batch_id a b) end.
  destruct (query SBegin stA) as [[x|e0] stB] eqn:B.
  - pose proof (query_begin _ _ _ B) as [_ OB].
    destruct OB as (TnB & t & Tx & A & _); [reflexivity|].
    destruct (for_each _ _ stB) as [[u|e1] stC] eqn:F.
    + destruct u.
      destruct (for_each_first _ _ _ _ _ _ Tx A Hp F) as (t' & Tx' & A' & _ & TnC & All).
      destruct (query SCommit stC) as [[y|e2] stD] eqn:C.
      * pose proof (query_commit _ _ _ C) as Q. simpl in Q. rewrite Tx', A' in Q.
        destruct Q as (Tb & Tn & TnD).
        intros H; inv H. split; [exact Tn|].
        rewrite Forall_forall in All |- *. intros l Hl.
        destruct (All l Hl) as (tn & T & R). exists tn. split; [congruence|].
        rewrite Tb. exact R.
      * destruct (query SRollback stD) as [[z|e3] stE]; discriminate.
    + destruct (query SRollback stC) as [[z|e3] stE]; discriminate.
  - destruct (query SRollback stB) as [[z|e3] stE]; discriminate.
Qed.


Lemma for_each_history payload bid ls : forall st r st',
  for_each (insert_log payload bid) ls st = (r, st') ->
  exists h, history (client st') = history (client st) ++ h.
Proof.
  induction ls as [|log ls IH]; intros st r st' H.
  - inv H. exists []. rewrite app_nil_r. reflexivity.
  - simpl in H. unfold bind in H. rewrite insert_log_eq in H.
    destruct (prepare log st) as [[pid at_] st0] eqn:Pr.
    apply prepare_frame in Pr. destruct Pr as (_ & Cl & _ & _).
    destruct (query (SInsert (values_of payload bid log pid at_)) st0) as [x st1] eqn:Q.
    apply query_frame in Q. destruct Q as [_ Hh]. rewrite Cl in Hh.
    destruct x as [x|e].
    + apply IH in H. destruct H as (h & Hh'). rewrite Hh', Hh, <- app_assoc. eauto.
    + inv H. eauto.
Qed.

Lemma query_rollback_closes st r st' :
  query SRollback st = (Ok r, st') -> txn (client st') = None.
Proof.
  unfold query, exec, attempt.
  destruct (fault_at (env st) (n_stmt (env st))); [discriminate|].
  simpl ends_txn. simpl negb. rewrite andb_false_r. simpl.
  destruct (txn (client st)) as [t|] eqn:Ht; intros H; inv H; simpl; auto.
Qed.

(** A call that throws has sent ROLLBACK as its last statement, and when
    that statement succeeded the session has no transaction left open. *)
Lemma storeBatchLogs_throw_rolls_back payload st e st' :
  storeBatchLogs payload st = (Throw e, st') ->
  exists h0 b, history (client st') = history (client st) ++ h0 ++ [(SRollback, b)] /\
               (b = true -> txn (client st') = None).
Proof.
  unfold storeBatchLogs, bind, try_catch, new_Date, uuidv4, ret, throw. simpl.
  match goal with |- context [query SBegin ?x] => set (stA := x) end.
  assert (HA : history (client stA) = history (client st)) by reflexivity.
  assert (Rb : forall stX rr stE h1,
             history (client stX) = history (client st) ++ h1 ->
             query SRollback stX = (rr, stE) ->
             exists h0 b, history (client stE) = history (client st) ++ h0 ++ [(SRollback, b)] /\
                          (b = true -> txn (client stE) = None)).
  { intros stX rr stE h1 HX R. pose proof (query_frame _ _ _ _ R) as [_ HR].
    exists h1, (is_ok rr). split; [rewrite HR, HX, <- app_assoc; reflexivity|].
    destruct rr as [x|e']; [|discriminate]. intros _. eapply query_rollback_closes; eauto. }
  destruct (query SBegin stA) as [rb stB] eqn:B.
  pose proof (query_frame _ _ _ _ B) as [_ HB]. rewrite HA in HB.
  destruct rb as [x|e0].
  - destruct (for_each _ _ stB) as [rf stC] eqn:F.
    destruct (for_each_history _ _ _ _ _ _ F) as (hf & HF). rewrite HB, <- app_assoc in HF.
    destruct rf as [u|e1].
    + destruct (query SCommit stC) as [rc stD] eqn:C.
      pose proof (query_frame _ _ _ _ C) as [_ HC]. rewrite HF, <- app_assoc in HC.
      destruct rc as [y|e2]; [discriminate|].
      destruct (query SRollback stD) as [rr stE] eqn:R.
      destruct (Rb _ _ _ _ HC R) as (h0 & b & H0 & Hb).
      destruct rr; intros H; inv H; eauto.
    + destruct (query SRollback stC) as [rr stE] eqn:R.
      destruct (Rb _ _ _ _ HF R) as (h0 & b & H0 & Hb).
      destruct rr; intros H; inv H; eauto.
  - destruct (query SRollback stB) as [rr stE] eqn:R.
    destruct (Rb _ _ _ _ HB R) as (h0 & b & H0 & Hb).
    destruct rr; intros H; inv H; eauto.
Qed.

(** C4.  Whenever an INSERT of the batch is refused (anything but the
    duplicate-key no-op, which is not a failure), the call throws instead
    of returning, the last statement it sent is ROLLBACK (after which, if
    it succeeded, the session has no transaction open), and the committed
    table is what it was before the call: nothing of the batch is kept. *)
Theorem failed_entry_rolls_back_batch payload st r st' h :
  storeBatchLogs payload st = (r, st') ->
  history (client st') = history (client st) ++ h ->
  (exists v, In (SInsert v, false) h) ->
  (exists e, r = Throw e) /\
  table (db st') = table (db st) /\
  exists h0 b, h = h0 ++ [(SRollback, b)] /\ (b = true -> txn (client st') = None).
Proof.
  intros H Hh (v & Hv). destruct r as [result|e].
  - exfalso. destruct (storeBatchLogs_ok_history _ _ _ _ H) as (h' & Hh' & Hall).
    rewrite Hh in Hh'. apply app_inv_head in Hh'. subst h'.
    rewrite Forall_forall in Hall. specialize (Hall _ Hv). discriminate Hall.
  - split; [eauto|]. split; [eapply storeBatchLogs_throw_keeps_table; eauto|].
    destruct (storeBatchLogs_throw_rolls_back _ _ _ _ H) as (h0 & b & H0 & Hb).
    rewrite Hh in H0. apply app_inv_head in H0. eauto.
Qed.

(** C7.  A call that returns reports as [total_received] the number of
    entries it was given, whatever the table held and however many of the
    INSERTs were duplicate-key no-ops. *)
Theorem total_received_counts_submitted payload st result st' :
  storeBatchLogs payload st = (Ok result, st') ->
  total_received result = List.length (logs payload).
Proof. apply storeBatchLogs_ok_total. Qed.
End BatchFacts.

(* ===================================================================== *)
(** * The query engine *)
(* ===================================================================== *)

Section QueryFacts.
Context {P : Platform}.

Lemma and_if_tenant_first cc b col op p acc :
  tenant_first cc acc -> tenant_first cc (and_if b col op p acc).
Proof.
  destruct acc as [[sql params] idx]. unfold and_if, tenant_first.
  intros ((sql' & params' & -> & ->) & -> & F). destruct b.
  - split; [|split].
    + exists (sql' ++ [cond col op (S (List.length (PText cc :: params')))]), (params' ++ [p]).
      split; reflexivity.
    + rewrite length_app. simpl. lia.
    + rewrite length_app. apply Forall_app. split.
      * eapply Forall_impl; [|exact F]. simpl. intros c Hc. lia.
      * constructor; [|constructor]. simpl. lia.
  - split; [eauto|]. split; [reflexivity|exact F].
Qed.

Lemma two_conds_tenant_first cc (c2 : Cond) (p2 : Param) :
  c_ph c2 = 2 -> tenant_first cc ([cond c_comp_code OpEq 1; c2], [PText cc; p2], 3).
Proof.
  intros E. unfold tenant_first.
  split; [eexists; eexists; split; reflexivity|]. split; [reflexivity|].
  constructor; [simpl; lia|]. constructor; [simpl; lia|]. constructor.
Qed.

Lemma one_cond_tenant_first cc :
  tenant_first cc ([cond c_comp_code OpEq 1], [PText cc], 2).
Proof.
  unfold tenant_first.
  split; [eexists; eexists; split; reflexivity|]. split; [reflexivity|].
  constructor; [simpl; lia|]. constructor.
Qed.

Lemma page_sql_tenant_first op filters :
  tenant_first (f_comp_code filters) (page_sql op filters).
Proof.
  destruct op; cbv [page_sql user_page_sql app_page_sql search_page_sql];
    repeat apply and_if_tenant_first;
    first [apply one_cond_tenant_first | apply two_conds_tenant_first; reflexivity].
Qed.

(** The count statement and the page statement are built from the same
    conjuncts and parameters. *)
Lemma count_sql_is_page_sql op filters : count_sql op filters = page_sql op filters.
Proof. destruct op; reflexivity. Qed.

Lemma retrieve_unfold op filters :
  retrieve op filters = count_then_page (count_sql op filters) (page_sql op filters) filters.
Proof. destruct op; reflexivity. Qed.

Lemma insert_desc_in r x l : In x (insert_desc r l) <-> x = r \/ In x l.
Proof.
  induction l as [|y l IH]; simpl.
  - intuition.
  - destruct (created_at y <? created_at r)%Z; simpl; [intuition|].
    rewrite IH. intuition.
Qed.

Lemma order_in x l : In x (order_by_created_at_desc l) <-> In x l.
Proof.
  unfold order_by_created_at_desc. induction l as [|y l IH]; simpl; [tauto|].
  rewrite insert_desc_in, IH. intuition.
Qed.

Lemma insert_desc_sorted r l : descending l -> descending (insert_desc r l).
Proof.
  unfold descending. induction l as [|y l IH]; simpl; intros S.
  - repeat constructor.
  - inversion S as [|? ? S' F]; subst.
    destruct (created_at y <? created_at r)%Z eqn:E.
    + apply Z.ltb_lt in E. constructor; [exact S|].
      constructor; [lia|]. rewrite Forall_forall in F |- *. intros x Hx.
      specialize (F x Hx). lia.
    + apply Z.ltb_ge in E. constructor; [auto|].
      rewrite Forall_forall in F |- *. intros x Hx.
      apply insert_desc_in in Hx. destruct Hx as [->|Hx]; auto.
Qed.

Lemma order_sorted l : descending (order_by_created_at_desc l).
Proof.
  unfold order_by_created_at_desc. induction l; simpl.
  - constructor.
  - apply insert_desc_sorted. exact IHl.
Qed.

Lemma in_firstn {A} (x : A) n l : In x (firstn n l) -> In x l.
Proof. intros H. rewrite <- (firstn_skipn n l). apply in_or_app. auto. Qed.

Lemma in_skipn {A} (x : A) n l : In x (skipn n l) -> In x l.
Proof. intros H. rewrite <- (firstn_skipn n l). apply in_or_app. auto. Qed.

Lemma descending_skipn n : forall l, descending l -> descending (skipn n l).
Proof.
  unfold descending. induction n as [|n IH]; intros l S; simpl; [exact S|].
  destruct l; [exact S|]. inversion S; subst. auto.
Qed.

Lemma descending_firstn n : forall l, descending l -> descending (firstn n l).
Proof.
  unfold descending. induction n as [|n IH]; intros l S; simpl; [constructor|].
  destruct l as [|x l]; [constructor|]. inversion S as [|? ? S' F]; subst.
  constructor; [auto|]. rewrite Forall_forall in F |- *. intros y Hy.
  apply F. eapply in_firstn; eauto.
Qed.

Lemma in_page x lim off l : In x (firstn lim (skipn off (order_by_created_at_desc l))) -> In x l.
Proof.
  intros H. apply in_firstn in H. apply in_skipn in H.
  apply order_in. exact H.
Qed.

(** What a successful SELECT returns. *)
Lemma query_select conds l o params st reply st' :
  query (SSelect conds l o params) st = (Ok reply, st') ->
  exists tn p lim off,
    current_tenant (client st) = Some tn /\
    bind_where params conds = Some p /\
    as_count (param_at params l) = Some lim /\
    as_count (param_at params o) = Some off /\
    reply = RRows (firstn lim (skipn off
              (order_by_created_at_desc (matching tn p (visible (db st) (client st)))))).
Proof.
  unfold query, exec, attempt.
  destruct (fault_at (env st) (n_stmt (env st))); [discriminate|].
  destruct (in_aborted_txn (client st) && negb (ends_txn (SSelect conds l o params)));
    [discriminate|].
  simpl. intros H. repeat (break_match; try discriminate). inv_pairs.
  eauto 10.
Qed.

Lemma query_count conds params st reply st' :
  query (SCount conds params) st = (Ok reply, st') ->
  client st' = record (SCount conds params) true (client st) /\ db st' = db st /\
  exists tn p,
    current_tenant (client st) = Some tn /\
    bind_where params conds = Some p /\
    reply = RCount (Z.of_nat (List.length (matching tn p (visible (db st) (client st))))).
Proof.
  unfold query, exec, attempt.
  destruct (fault_at (env st) (n_stmt (env st))); [discriminate|].
  destruct (in_aborted_txn (client st) && negb (ends_txn (SCount conds params)));
    [discriminate|].
  simpl. intros H. repeat (break_match; try discriminate). inv_pairs.
  simpl. eauto 10.
Qed.

(** The two round trips of a retrieval that returns. *)
Lemma count_then_page_ok cs cp ci ps pp pi filters st page st' :
  count_then_page (cs, cp, ci) (ps, pp, pi) filters st = (Ok page, st') ->
  exists n st1 reply,
    query (SCount cs cp) st = (Ok (RCount n), st1) /\
    query (SSelect ps pi (S pi) (pp ++ [PNum (f_limit filters); PNum (f_offset filters)])) st1
      = (Ok reply, st') /\
    rows page = rows_of reply /\ total_count page = n.
Proof.
  unfold count_then_page, bind, ret.
  destruct (query (SCount cs cp) st) as [[countRes|e] st1] eqn:C; [|discriminate].
  destruct countRes; simpl; try discriminate.
  destruct (query (SSelect _ _ _ _) st1) as [[result|e] st2] eqn:S; [|discriminate].
  intros H; inv H. simpl. eauto 10.
Qed.

Lemma bind_where_head params c cs p r :
  bind_where params (c :: cs) = Some p -> p r = true ->
  exists q, bind_cond params c = Some q /\ q r = true.
Proof.
  simpl. destruct (bind_cond params c) as [q|]; [|discriminate].
  destruct (bind_where params cs); [|discriminate].
  intros H; inv H. intros E. apply andb_true_iff in E. destruct E. eauto.
Qed.

Lemma matching_in tn p rows r :
  In r (matching tn p rows) -> In r rows /\ comp_code r = tn /\ p r = true.
Proof.
  unfold matching. rewrite !filter_In. unfold tenant_isolation.
  intros [[H1 H2] H3]. apply String.eqb_eq in H2. auto.
Qed.

Lemma param_at_end params (a b : Param) :
  param_at (params ++ [a; b]) (S (List.length params)) = Some a /\
  param_at (params ++ [a; b]) (S (S (List.length params))) = Some b.
Proof.
  unfold param_at. split.
  - rewrite nth_error_app2 by lia. rewrite Nat.sub_diag. reflexivity.
  - rewrite nth_error_app2 by lia.
    replace (S (List.length params) - List.length params) with 1 by lia. reflexivity.
Qed.

Lemma param_at_more params extra ph :
  1 <= ph <= List.length params -> param_at (params ++ extra) ph = param_at params ph.
Proof.
  destruct ph as [|i]; [lia|]. simpl. intros H. apply nth_error_app1. lia.
Qed.

(** Parameters appended after the ones a WHERE clause mentions do not
    change what the clause denotes. *)
Lemma bind_where_more params extra conds :
  Forall (fun c => 1 <= c_ph c <= List.length params) conds ->
  bind_where (params ++ extra) conds = bind_where params conds.
Proof.
  induction conds as [|c cs IH]; simpl; intros F; [reflexivity|].
  inversion F as [|? ? Hc Hcs]; subst. rewrite (IH Hcs).
  unfold bind_cond. rewrite (param_at_more _ _ _ Hc). reflexivity.
Qed.

(** Every retrieval that returns went through the same two statements,
    and its page is cut from the very rows its total counts. *)
Lemma retrieve_ok op filters st page st' :
  retrieve op filters st = (Ok page, st') ->
  exists conds params tn p,
    page_sql op filters = (conds, params, S (List.length params)) /\
    (exists conds' params', conds = cond c_comp_code OpEq 1 :: conds' /\
                            params = PText (f_comp_code filters) :: params') /\
    current_tenant (client st) = Some tn /\
    bind_where params conds = Some p /\
    (0 <= f_limit filters)%Z /\ (0 <= f_offset filters)%Z /\
    total_count page = Z.of_nat (List.length (matching tn p (visible (db st) (client st)))) /\
    rows page = firstn (Z.to_nat (f_limit filters)) (skipn (Z.to_nat (f_offset filters))
                  (order_by_created_at_desc (matching tn p (visible (db st) (client st))))) /\
    history (client st') = history (client st) ++
      [(SCount conds params, true);
       (SSelect conds (S (List.length params)) (S (S (List.length params)))
          (params ++ [PNum (f_limit filters); PNum (f_offset filters)]), true)].
Proof.
  rewrite retrieve_unfold, count_sql_is_page_sql.
  pose proof (page_sql_tenant_first op filters) as TF.
  destruct (page_sql op filters) as [[conds params] idx].
  destruct TF as (Hd & -> & Fp). intros H.
  apply count_then_page_ok in H. destruct H as (n & st1 & reply & C & S & Rw & Tc).
  pose proof (query_frame _ _ _ _ C) as [_ HC].
  pose proof (query_frame _ _ _ _ S) as [_ HS].
  apply query_count in C. destruct C as (Cl & Db & tn & p & T & B & Rc).
  apply query_select in S. destruct S as (tn' & p' & lim & off & T' & B' & L & O & Rr).
  rewrite Cl, Db in *. simpl in T'. assert (tn' = tn) by congruence. subst tn'.
  rewrite (bind_where_more _ _ _ Fp) in B'. assert (p' = p) by congruence. subst p'.
  destruct (param_at_end params (PNum (f_limit filters)) (PNum (f_offset filters))) as [E1 E2].
  rewrite E1 in L. rewrite E2 in O. simpl in L, O.
  destruct ((0 <=? f_limit filters)%Z && (f_limit filters <=? int8_max)%Z) eqn:R; [|discriminate].
  destruct ((0 <=? f_offset filters)%Z && (f_offset filters <=? int8_max)%Z) eqn:R'; [|discriminate].
  apply andb_true_iff in R, R'. destruct R as [R _], R' as [R' _].
  apply Z.leb_le in R, R'.
  injection L as <-. injection O as <-. injection Rc as Rc. rewrite Rc in Tc. subst reply.
  exists conds, params, tn, p.
  split; [reflexivity|]. split; [exact Hd|]. split; [exact T|]. split; [exact B|].
  split; [exact R|]. split; [exact R'|]. split; [exact Tc|].
  split; [rewrite Rw; reflexivity|].
  rewrite HS. simpl. rewrite <- app_assoc. reflexivity.
Qed.

(** C1, at the service: the rows of a returned page carry the tenant of
    the filter and the tenant the session is bound to. *)
Lemma retrieve_rows_of_tenant op filters st page st' r :
  retrieve op filters st = (Ok page, st') -> In r (rows page) ->
  comp_code r = f_comp_code filters /\
  current_tenant (client st) = Some (comp_code r).
Proof.
  intros H Hr. apply retrieve_ok in H.
  destruct H as (conds & params & tn & p & _ & (conds' & params' & -> & ->)
                 & T & B & _ & _ & _ & Rw & _).
  rewrite Rw in Hr. apply in_page in Hr. apply matching_in in Hr.
  destruct Hr as (_ & Ec & Hp). split; [|congruence].
  destruct (bind_where_head _ _ _ _ _ B Hp) as (q & Bq & Hq).
  unfold bind_cond in Bq. simpl in Bq.
  destruct (has_nul (f_comp_code filters)); [discriminate|]. inv Bq.
  unfold text_is in Hq. simpl in Hq. apply String.eqb_eq in Hq. exact Hq.
Qed.

Lemma query_fields_bounds q v :
  query_fields q = Valid v ->
  (1 <= q_limit v <= 200)%Z /\ (0 <= q_offset v)%Z /\
  (get "limit" q = None -> q_limit v = 50%Z) /\
  (get "offset" q = None -> q_offset v = 0%Z).
Proof.
  unfold query_fields, z_default, z_coerce_int. intros H.
  repeat (break_match; try discriminate); inv H; simpl;
    repeat match goal with
           | H : Valid _ = Valid _ |- _ => inv H
           | H : (_ && _) = true |- _ => apply andb_true_iff in H; destruct H
           | H : (_ <=? _)%Z = true |- _ => apply Z.leb_le in H
           end; repeat split; intros; try lia; try discriminate.
Qed.

(** C9.  For a limit and an offset that passed the query schema (limit in
    1..200, 50 when absent; offset at least 0, 0 when absent), each of the
    three retrieval functions that returns has sent exactly two statements,
    a COUNT and a SELECT with the same conjuncts and the same parameters,
    the SELECT with the limit and the offset appended.  The total is the
    number of rows those conjuncts select; the page is those rows in
    descending order of creation time, without the first [offset] and cut
    after [limit]: at most [limit] rows, in descending order. *)
Theorem pages_bounded_ordered_counted q v op filters st page st' :
  query_fields q = Valid v ->
  f_limit filters = q_limit v -> f_offset filters = q_offset v ->
  retrieve op filters st = (Ok page, st') ->
  (1 <= f_limit filters <= 200)%Z /\ (0 <= f_offset filters)%Z /\
  (get "limit" q = None -> f_limit filters = 50%Z) /\
  (get "offset" q = None -> f_offset filters = 0%Z) /\
  (Z.of_nat (List.length (rows page)) <= f_limit filters)%Z /\
  descending (rows page) /\
  count_sql op filters = page_sql op filters /\
  exists conds params idx tn p,
    page_sql op filters = (conds, params, idx) /\
    history (client st') = history (client st) ++
      [(SCount conds params, true);
       (SSelect conds idx (S idx)
          (params ++ [PNum (f_limit filters); PNum (f_offset filters)]), true)] /\
    current_tenant (client st) = Some tn /\
    bind_where params conds = Some p /\
    total_count page = Z.of_nat (List.length (matching tn p (visible (db st) (client st)))) /\
    rows page = firstn (Z.to_nat (f_limit filters)) (skipn (Z.to_nat (f_offset filters))
                  (order_by_created_at_desc (matching tn p (visible (db st) (client st))))).
Proof.
  intros V L O H. destruct (query_fields_bounds _ _ V) as (B1 & B2 & B3 & B4).
  rewrite L, O. split; [exact B1|]. split; [exact B2|]. split; [exact B3|]. split; [exact B4|].
  rewrite <- L, <- O.
  apply retrieve_ok in H.
  destruct H as (conds & params & tn & p & Sq & _ & T & B & L0 & _ & Tc & Rw & Hh).
  split.
  { rewrite Rw. pose proof (firstn_le_length (Z.to_nat (f_limit filters))
      (skipn (Z.to_nat (f_offset filters))
         (order_by_created_at_desc (matching tn p (visible (db st) (client st)))))).
    lia. }
  split.
  { rewrite Rw. apply descending_firstn, descending_skipn, order_sorted. }
  split; [apply count_sql_is_page_sql|].
  exists conds, params, (S (List.length params)), tn, p. auto 10.
Qed.

End QueryFacts.

(* ===================================================================== *)
(** * One request, from arrival to the release of its session *)
(* ===================================================================== *)

Section PipelineFacts.
Context {P : Platform}.

Lemma auth_truthy keys req cc : auth keys req = inr cc -> truthy (Some cc) = true.
Proof.
  unfold auth. intros H. repeat (break_match; try discriminate); inv H;
    match goal with
    | H : negb (truthy ?x) = false |- _ => apply negb_false_iff in H
    end; congruence.
Qed.

Lemma getClient_some r c r1 :
  dbClient r = None -> releases r = 0 -> response r = None -> listeners r = [] -> tasks r = [] ->
  getClient r = (Some c, r1) ->
  holding c r1 /\ r_store r1 = r_store r /\
  fault_at (r_env r1) = fault_at (r_env r) /\
  List.length (idle (r_pool r)) + total (r_pool r1) =
    S (List.length (idle (r_pool r1))) + total (r_pool r) /\
  (In c (idle (r_pool r)) \/ c = fresh_session).
Proof.
  unfold getClient, holding. intros D R S L T H.
  destruct (idle (r_pool r)) as [|c0 rest] eqn:I.
  - repeat (break_match; try discriminate); inv H; simpl; repeat split; auto; lia.
  - inv H. simpl. repeat split; auto; lia.
Qed.

Lemma getClient_none r r1 :
  getClient r = (None, r1) ->
  dbClient r1 = dbClient r /\ releases r1 = releases r /\ response r1 = response r /\
  tasks r1 = tasks r /\ r_store r1 = r_store r /\ r_pool r1 = r_pool r /\
  listeners r1 = listeners r.
Proof.
  unfold getClient. intros H. repeat (break_match; try discriminate); inv H; simpl; auto 10.
Qed.

Lemma call_frame {A} (m : M A) c r res r' :
  call m c r = (res, r') ->
  exists st, m {| db := r_store r; client := c; env := r_env r |} = (res, st) /\
    r_store r' = db st /\ r_env r' = env st /\ dbClient r' = Some (client st) /\
    r_pool r' = r_pool r /\ releases r' = releases r /\ response r' = response r /\
    listeners r' = listeners r /\ tasks r' = tasks r.
Proof.
  unfold call. destruct (m _) as [res0 st] eqn:E. intros H; inv H.
  exists st. simpl. auto 10.
Qed.

Lemma loop_respond c r code b :
  holding c r ->
  event_loop 2 (on_finish ReleaseDbClient (respond code b r)) =
    ended r {| status := code; payload := b |}.
Proof.
  destruct r. unfold holding, ended, respond. simpl. intros (-> & -> & -> & -> & ->).
  destruct (caller_gone _); reflexivity.
Qed.

Lemma loop_query c r op filters :
  holding c r ->
  event_loop 2 (on_finish ReleaseDbClient (later (await op filters) r)) =
    ended (snd (call (retrieve op filters) c r))
          (page_or_error filters (fst (call (retrieve op filters) c r))).
Proof.
  destruct r. unfold holding. simpl. intros (-> & -> & -> & -> & ->).
  destruct op; simpl; unfold finish_query, call; simpl;
    match goal with |- context [?m filters ?st] => destruct (m filters st) as [[p|e] st'] end;
    unfold ended, respond; simpl; destruct (caller_gone _); reflexivity.
Qed.

Lemma loop_store c r validated :
  holding c r ->
  event_loop 2 (on_finish ReleaseDbClient (later (AwaitStore validated) r)) =
    ended (snd (call (storeBatchLogs validated) c r))
          (stored_or_error (fst (call (storeBatchLogs validated) c r))).
Proof.
  destruct r. unfold holding. simpl. intros (-> & -> & -> & -> & ->).
  cbn -[storeBatchLogs call]. unfold call. cbn -[storeBatchLogs].
  destruct (storeBatchLogs validated _) as [[p|e] st];
    unfold ended, respond; cbn -[storeBatchLogs]; destruct (caller_gone _); reflexivity.
Qed.

Lemma admission (srv : Server) (req : Request) : Admission srv req.
Proof.
  destruct (auth (apiKeys srv) req) as [resp|cc] eqn:A.
  - exact (Refused srv req resp A).
  - destruct (getClient (start srv)) as [[c0|] r1] eqn:G.
    + destruct (call (bind_tenant cc) c0 r1) as [[[]|e] r2] eqn:B.
      * exact (Bound srv req cc c0 r1 r2 A G B).
      * exact (SetupFailed srv req cc c0 r1 e r2 A G B).
    + exact (Unserved srv req cc r1 A G).
Qed.

Lemma serve_refused srv req resp :
  auth (apiKeys srv) req = inl resp ->
  serve srv req =
    {| r_store := store srv; r_env := world srv; r_pool := pool srv; dbClient := None;
       releases := 0; response := Some resp; listeners := []; tasks := [] |}.
Proof.
  unfold serve, respond. intros ->. destruct resp, (caller_gone _); reflexivity.
Qed.

Lemma serve_unserved srv req cc r1 :
  auth (apiKeys srv) req = inr cc -> getClient (start srv) = (None, r1) ->
  serve srv req = r1 /\ response r1 = None /\ dbClient r1 = None /\ releases r1 = 0 /\
  tasks r1 = [] /\ r_store r1 = store srv /\ r_pool r1 = pool srv.
Proof.
  intros A G. unfold serve, tenantContext. rewrite A, (auth_truthy _ _ _ A), G. simpl.
  apply getClient_none in G. simpl in G. destruct G as (D & R & S & T & St & Po & L).
  split; [|auto 10].
  destruct r1. simpl in *. subst. reflexivity.
Qed.

Lemma bound_holding cc c0 r1 res r2 :
  holding c0 r1 -> call (bind_tenant cc) c0 r1 = (res, r2) ->
  exists c2, holding c2 r2 /\ r_pool r2 = r_pool r1.
Proof.
  unfold holding. intros (D & R & S & L & T) B. apply call_frame in B.
  destruct B as (st & _ & _ & _ & D2 & Po & R2 & S2 & L2 & T2).
  exists (client st). repeat split; congruence.
Qed.

Lemma start_holding srv c0 r1 :
  getClient (start srv) = (Some c0, r1) ->
  holding c0 r1 /\ r_store r1 = store srv /\
  fault_at (r_env r1) = fault_at (world srv) /\
  List.length (idle (pool srv)) + total (r_pool r1) =
    S (List.length (idle (r_pool r1))) + total (pool srv) /\
  (In c0 (idle (pool srv)) \/ c0 = fresh_session).
Proof. intros G. apply getClient_some in G; auto. Qed.

Lemma serve_setup_failed srv req cc c0 r1 e r2 :
  auth (apiKeys srv) req = inr cc -> getClient (start srv) = (Some c0, r1) ->
  call (bind_tenant cc) c0 r1 = (Throw e, r2) ->
  exists c2, dbClient r2 = Some c2 /\
  serve srv req =
    {| r_store := r_store r2; r_env := r_env r2;
       r_pool := {| idle := idle (r_pool r2) ++ [c2]; total := total (r_pool r2) |};
       dbClient := Some c2; releases := 1;
       response := Some {| status := 500; payload := Message false "Tenant setup failed" |};
       listeners := []; tasks := [] |}.
Proof.
  intros A G B. unfold serve, tenantContext. rewrite A, (auth_truthy _ _ _ A), G, B. simpl.
  apply start_holding in G. destruct G as (H & _).
  destruct (bound_holding _ _ _ _ _ H B) as (c2 & (D & R & S & L & T) & _).
  exists c2. split; [exact D|].
  destruct r2. simpl in *. subst. unfold respond. simpl.
  destruct (caller_gone _); reflexivity.
Qed.

Lemma serve_bound srv req cc c0 r1 r2 :
  auth (apiKeys srv) req = inr cc -> getClient (start srv) = (Some c0, r1) ->
  call (bind_tenant cc) c0 r1 = (Ok tt, r2) ->
  serve srv req = event_loop 2 (on_finish ReleaseDbClient (router req r2)) /\
  exists c2, holding c2 r2.
Proof.
  intros A G B. unfold serve, tenantContext. rewrite A, (auth_truthy _ _ _ A), G, B.
  split; [reflexivity|].
  apply start_holding in G. destruct G as (H & _).
  destruct (bound_holding _ _ _ _ _ H B) as (c2 & H2 & _). eauto.
Qed.

Lemma routed req r c : dbClient r = Some c -> Routed req r.
Proof.
  intros D. unfold router.
  destruct (method req) eqn:M; destruct (route req) as [|emp|app| | |] eqn:R;
    try (apply (Answered req r 404 NotFound); [unfold router; rewrite ?M, ?R; reflexivity|auto]);
    try (apply (Answered req r 400 BadRequest); [unfold router; rewrite ?M, ?R; reflexivity|auto]).
  - destruct (querySchema (req_query req)) as [v|] eqn:V.
    + apply (QueryNext req r ByEmployee (filters_of v (Some emp) None None)); auto.
      * unfold router, get_logs_user. rewrite M, R, V, D. reflexivity.
      * eauto.
    + apply (Answered req r 400 invalid_query); auto.
      unfold router, get_logs_user. rewrite M, R, V. reflexivity.
  - destruct (querySchema (req_query req)) as [v|] eqn:V.
    + apply (QueryNext req r ByApplication
               (filters_of v None (Some app) (get "source_function" (req_query req)))); auto.
      * unfold router, get_logs_app. rewrite M, R, V, D. reflexivity.
      * eauto.
    + apply (Answered req r 400 invalid_query); auto.
      unfold router, get_logs_app. rewrite M, R, V. reflexivity.
  - destruct (searchSchema (req_query req)) as [f|] eqn:V.
    + apply (QueryNext req r Search f); auto.
      unfold router, get_logs_search. rewrite M, R, V, D. reflexivity.
    + apply (Answered req r 400 invalid_query); auto.
      unfold router, get_logs_search. rewrite M, R, V. reflexivity.
  - destruct (batchSchema (req_body req)) as [v|] eqn:V.
    + apply (StoreNext req r v); auto.
      unfold router, post_logs_batch. rewrite M, R, V, D. reflexivity.
    + apply (Answered req r 400 validation_failed); auto.
      unfold router, post_logs_batch. rewrite M, R, V. reflexivity.
Qed.

Lemma finished_fields r resp :
  tasks (finished r resp) = [] /\ releases (finished r resp) = 1 /\
  response (finished r resp) = Some resp /\ dbClient (finished r resp) = dbClient r /\
  r_store (finished r resp) = r_store r /\
  (forall c, dbClient r = Some c ->
     r_pool (finished r resp) = {| idle := idle (r_pool r) ++ [c]; total := total (r_pool r) |}).
Proof.
  unfold finished. simpl. repeat split; auto. intros c ->. reflexivity.
Qed.

Lemma ended_cases r resp :
  ended r resp = if caller_gone (r_env r) then abandoned r resp else finished r resp.
Proof. unfold ended, finished, abandoned. destruct (caller_gone _); reflexivity. Qed.

(** ** The caller's presence is not changed by what the server does *)

Lemma keeps_ret {A} (a : A) : keeps_caller (ret a).
Proof. intros st r st' H. inv H. reflexivity. Qed.

Lemma keeps_throw {A} e : keeps_caller (@throw A e).
Proof. intros st r st' H. inv H. reflexivity. Qed.

Lemma keeps_bind {A B} (m : M A) (k : A -> M B) :
  keeps_caller m -> (forall a, keeps_caller (k a)) -> keeps_caller (bind m k).
Proof.
  intros Hm Hk st r st'. unfold bind.
  destruct (m st) as [[a|e] st1] eqn:E; intros H.
  - rewrite (Hk a _ _ _ H). exact (Hm _ _ _ E).
  - inv H. exact (Hm _ _ _ E).
Qed.

Lemma keeps_try_catch {A} (body : M A) handler :
  keeps_caller body -> (forall e, keeps_caller (handler e)) ->
  keeps_caller (try_catch body handler).
Proof.
  intros Hb Hh st r st'. unfold try_catch.
  destruct (body st) as [[a|e] st1] eqn:E; intros H.
  - inv H. exact (Hb _ _ _ E).
  - rewrite (Hh e _ _ _ H). exact (Hb _ _ _ E).
Qed.

Lemma keeps_for_each {A} (body : A -> M unit) xs :
  (forall x, keeps_caller (body x)) -> keeps_caller (for_each body xs).
Proof.
  intros Hb. induction xs as [|x xs IH]; simpl.
  - apply keeps_ret.
  - apply keeps_bind; auto.
Qed.

Lemma keeps_query s : keeps_caller (query s).
Proof.
  intros st r st'. unfold query.
  destruct (exec _ s (db st) (client st)) as [[[x|] db'] c']; intros H; inv H; reflexivity.
Qed.

Lemma keeps_new_Date : keeps_caller new_Date.
Proof. intros st r st' H. inv H. reflexivity. Qed.

Lemma keeps_uuidv4 : keeps_caller uuidv4.
Proof. intros st r st' H. inv H. reflexivity. Qed.

Lemma keeps_insert_log payload bid log : keeps_caller (insert_log payload bid log).
Proof.
  unfold insert_log.
  apply keeps_bind; [destruct (nonempty _); [apply keeps_ret|apply keeps_uuidv4]|intros pid].
  apply keeps_bind.
  - destruct (nonempty _); [apply keeps_ret|].
    apply keeps_bind; [apply keeps_new_Date|intros; apply keeps_ret].
  - intros at_. apply keeps_bind; [apply keeps_query|intros; apply keeps_ret].
Qed.

Lemma keeps_storeBatchLogs payload : keeps_caller (storeBatchLogs payload).
Proof.
  unfold storeBatchLogs.
  apply keeps_bind; [apply keeps_new_Date|intros now].
  apply keeps_bind; [apply keeps_uuidv4|intros u].
  apply keeps_try_catch.
  - apply keeps_bind; [apply keeps_query|intros _].
    apply keeps_bind; [apply keeps_for_each; intros; apply keeps_insert_log|intros _].
    apply keeps_bind; [apply keeps_query|intros _]. apply keeps_ret.
  - intros e. apply keeps_bind; [apply keeps_query|intros _]. apply keeps_throw.
Qed.

Lemma keeps_retrieve op filters : keeps_caller (retrieve op filters).
Proof.
  rewrite retrieve_unfold.
  destruct (count_sql op filters) as [[cs cp] ci], (page_sql op filters) as [[ps pp] pi].
  unfold count_then_page.
  apply keeps_bind; [apply keeps_query|intros countRes].
  apply keeps_bind; [destruct countRes; try apply keeps_throw; apply keeps_ret|intros n].
  apply keeps_bind; [apply keeps_query|intros; apply keeps_ret].
Qed.

Lemma keeps_bind_tenant cc : keeps_caller (bind_tenant cc).
Proof.
  unfold bind_tenant.
  apply keeps_bind; [destruct cc; try apply keeps_throw; apply keeps_ret|intros text].
  apply keeps_bind; [apply keeps_query|intros _].
  apply keeps_bind; [apply keeps_query|intros; apply keeps_ret].
Qed.

Lemma call_keeps {A} (m : M A) c r res r' :
  keeps_caller m -> call m c r = (res, r') ->
  caller_gone (r_env r') = caller_gone (r_env r).
Proof.
  intros K C. apply call_frame in C. destruct C as (st & E & _ & -> & _).
  exact (K _ _ _ E).
Qed.

Lemma getClient_keeps r o r1 :
  getClient r = (o, r1) -> caller_gone (r_env r1) = caller_gone (r_env r).
Proof.
  unfold getClient. intros H.
  repeat (break_match; try discriminate); inv H; reflexivity.
Qed.

(** A request that was given a session and bound it ends in one of two
    ways, decided by the caller alone: answered with its session released
    once, or answered into a closed connection with its session kept. *)
Lemma bound_request_ends srv req cc c0 r1 r2 :
  auth (apiKeys srv) req = inr cc -> getClient (start srv) = (Some c0, r1) ->
  call (bind_tenant cc) c0 r1 = (Ok tt, r2) ->
  exists r3 resp c3,
    dbClient r3 = Some c3 /\ r_pool r3 = r_pool r1 /\
    serve srv req = if caller_gone (world srv) then abandoned r3 resp else finished r3 resp.
Proof.
  intros A G B. destruct (serve_bound _ _ _ _ _ _ A G B) as (-> & c2 & H2).
  destruct (start_holding _ _ _ G) as (H & _).
  destruct (bound_holding _ _ _ _ _ H B) as (_ & _ & Po).
  assert (W2 : caller_gone (r_env r2) = caller_gone (world srv)).
  { rewrite (call_keeps _ _ _ _ _ (keeps_bind_tenant cc) B).
    exact (getClient_keeps _ _ _ G). }
  assert (D2 : dbClient r2 = Some c2) by apply H2.
  destruct (routed req r2 c2 D2).
  - rewrite E, (loop_respond _ _ _ _ H2), ended_cases, W2. eauto 10.
  - rewrite E, (loop_store _ _ _ H2).
    destruct (call (storeBatchLogs validated) c2 r2) as [res r3] eqn:C.
    pose proof (call_keeps _ _ _ _ _ (keeps_storeBatchLogs validated) C) as W3.
    apply call_frame in C. destruct C as (st & _ & _ & _ & D3 & P3 & _).
    rewrite ended_cases. simpl. rewrite W3, W2. exists r3. eexists. eexists.
    split; [exact D3|]. split; [congruence|reflexivity].
  - rewrite E, (loop_query _ _ _ _ H2).
    destruct (call (retrieve op filters) c2 r2) as [res r3] eqn:C.
    pose proof (call_keeps _ _ _ _ _ (keeps_retrieve op filters) C) as W3.
    apply call_frame in C. destruct C as (st & _ & _ & _ & D3 & P3 & _).
    rewrite ended_cases. simpl. rewrite W3, W2. exists r3. eexists. eexists.
    split; [exact D3|]. split; [congruence|reflexivity].
Qed.

(** With a caller that stays for its answer, whatever the request and
    whatever happens to it, when the event loop has nothing left to do for
    it: if a session was acquired, its [release] has been called exactly
    once and the session is back in the pool (as many sessions are idle as
    before, plus the one the pool may have opened); if none was acquired,
    [release] was never called. *)
Theorem session_released_exactly_once srv req :
  caller_gone (world srv) = false ->
  tasks (serve srv req) = [] /\
  match dbClient (serve srv req) with
  | Some c =>
      releases (serve srv req) = 1 /\
      (exists others, idle (r_pool (serve srv req)) = others ++ [c]) /\
      List.length (idle (pool srv)) + total (r_pool (serve srv req)) =
        List.length (idle (r_pool (serve srv req))) + total (pool srv)
  | None => releases (serve srv req) = 0 /\ r_pool (serve srv req) = pool srv
  end.
Proof.
  intros Here. destruct (admission srv req).
  - rewrite (serve_refused _ _ _ A). simpl. auto.
  - destruct (serve_unserved _ _ _ _ A G) as (-> & _ & -> & R & T & _ & Po). auto.
  - destruct (serve_setup_failed _ _ _ _ _ _ _ A G B) as (c2 & D & ->). simpl.
    destruct (start_holding _ _ _ G) as (H & _ & _ & N & _).
    destruct (bound_holding _ _ _ _ _ H B) as (_ & _ & Po).
    split; [reflexivity|]. split; [reflexivity|]. split; [eauto|].
    rewrite length_app, Po. simpl. lia.
  - destruct (bound_request_ends _ _ _ _ _ _ A G B) as (r3 & resp & c3 & D3 & P3 & ->).
    destruct (start_holding _ _ _ G) as (H & _ & _ & N & _).
    rewrite Here. unfold finished. simpl. rewrite D3. simpl.
    split; [reflexivity|]. split; [reflexivity|]. split; [eauto|].
    rewrite length_app, P3. simpl. lia.
Qed.

(** C3.  The release of a bound session hangs on ['finish'] alone
    ([res.on('finish', ...)], with no listener for ['close']).  When the
    caller has closed the connection by the time the answer is written, a
    request that was given a session and bound it runs to its end and is
    answered, yet [release] is never called: the request still holds its
    session, the listener is still waiting, and the pool is left one
    session short of what it had. *)
Theorem abandoned_request_keeps_session srv req cc c0 r1 r2 :
  caller_gone (world srv) = true ->
  auth (apiKeys srv) req = inr cc -> getClient (start srv) = (Some c0, r1) ->
  call (bind_tenant cc) c0 r1 = (Ok tt, r2) ->
  tasks (serve srv req) = [] /\
  (exists resp, response (serve srv req) = Some resp) /\
  (exists c, dbClient (serve srv req) = Some c) /\
  releases (serve srv req) = 0 /\
  listeners (serve srv req) = [ReleaseDbClient] /\
  r_pool (serve srv req) = r_pool r1 /\
  List.length (idle (pool srv)) + total (r_pool (serve srv req)) =
    S (List.length (idle (r_pool (serve srv req)))) + total (pool srv).
Proof.
  intros Gone A G B.
  destruct (bound_request_ends _ _ _ _ _ _ A G B) as (r3 & resp & c3 & D3 & P3 & ->).
  destruct (start_holding _ _ _ G) as (H & _ & _ & N & _).
  rewrite Gone. unfold abandoned. simpl.
  split; [reflexivity|]. split; [eauto|]. split; [eauto|].
  split; [reflexivity|]. split; [reflexivity|]. split; [exact P3|].
  rewrite P3. exact N.
Qed.

Lemma query_bind_stmt s st r st' :
  binds_tenant s = true -> query s st = (r, st') -> db st' = db st.
Proof.
  unfold query, exec, attempt. intros Hb H.
  destruct s; try discriminate; simpl in H;
    repeat (break_match; try discriminate); inv_pairs; reflexivity.
Qed.

(** The bind touches no stored row: it sends at most its two statements
    and leaves the store as it was. *)
Lemma bind_tenant_store cc st res st' :
  bind_tenant cc st = (res, st') ->
  db st' = db st /\
  exists h, history (client st') = history (client st) ++ h /\
            Forall (fun e => binds_tenant (fst e) = true) h.
Proof.
  unfold bind_tenant, bind, ret, throw.
  destruct cc; try (intros H; inv H; split; [reflexivity|]; exists [];
                    rewrite app_nil_r; split; [reflexivity|constructor]).
  destruct (query (SRaw (bind_statement s)) st) as [[x|e] st1] eqn:Q1.
  - destruct (query SShowTenant st1) as [[y|e] st2] eqn:Q2; intros H; inv H;
      pose proof (query_bind_stmt (SRaw (bind_statement s)) _ _ _ eq_refl Q1);
      pose proof (query_bind_stmt SShowTenant _ _ _ eq_refl Q2);
      apply query_frame in Q1, Q2; destruct Q1 as [_ Q1], Q2 as [_ Q2];
      (split; [congruence|]); eexists; (split; [rewrite Q2, Q1, <- app_assoc; reflexivity|]);
      repeat constructor.
  - intros H; inv H. pose proof (query_bind_stmt (SRaw (bind_statement s)) _ _ _ eq_refl Q1).
    apply query_frame in Q1. destruct Q1 as [_ Q1].
    split; [congruence|]. eexists. split; [rewrite Q1; reflexivity|]. repeat constructor.
Qed.

(** A successful bind leaves the session bound to the identifier. *)
Lemma bind_tenant_ok cc st st' :
  bind_tenant cc st = (Ok tt, st') ->
  exists s, cc = JStr s /\ current_tenant (client st') = Some s.
Proof.
  unfold bind_tenant, bind, ret, throw.
  destruct cc; try discriminate.
  destruct (query (SRaw (bind_statement s)) st) as [[x|e] st1] eqn:Q1; [|discriminate].
  destruct (query SShowTenant st1) as [[y|e] st2] eqn:Q2; [|discriminate].
  intros H; inv H. exists s. split; [reflexivity|].
  assert (T1 : current_tenant (client st1) = Some s).
  { revert Q1. unfold query, exec, attempt.
    destruct (fault_at _ _); [discriminate|].
    destruct (in_aborted_txn _ && _); [discriminate|].
    simpl. rewrite parse_set_bind_statement. intros H; inv H. reflexivity. }
  revert Q2. unfold query, exec, attempt.
  destruct (fault_at _ _); [discriminate|].
  destruct (in_aborted_txn _ && _); [discriminate|].
  simpl. rewrite T1. intros H; inv H. exact T1.
Qed.

Lemma auth_refusal keys req resp :
  auth keys req = inl resp -> status resp = 400 \/ status resp = 401.
Proof.
  unfold auth. intros H. repeat (break_match; try discriminate); inv H; simpl; auto.
Qed.

Lemma auth_get keys req cc :
  method req = GET -> auth keys req = inr cc -> get "comp_code" (req_query req) = Some cc.
Proof.
  unfold auth. intros ->. intros H. repeat (break_match; try discriminate); inv H; reflexivity.
Qed.

Lemma strict_unknown k v shape : forall o,
  get k o = Some v -> existsb (String.eqb k) shape = false -> strict shape o = false.
Proof.
  unfold strict. induction o as [|[k' v'] o IH]; simpl; [discriminate|].
  intros G X. destruct (String.eqb k k') eqn:E.
  - apply String.eqb_eq in E. subst k'. rewrite X. reflexivity.
  - rewrite (IH G X). apply andb_false_r.
Qed.

Lemma query_fields_comp_code q v :
  query_fields q = Valid v -> get "comp_code" q = Some (JStr (q_comp_code v)).
Proof.
  unfold query_fields, z_string. intros H.
  repeat (break_match; try discriminate). inv H. simpl. congruence.
Qed.

Lemma oversized_logs_invalid body entries :
  body_get "logs" body = Some (JArr entries) -> 1000 < List.length entries ->
  batchSchema body = ZodError.
Proof.
  unfold body_get, batchSchema. destruct body; try discriminate. intros G L.
  rewrite G. unfold z_array.
  assert (E : (List.length entries <=? 1000)%nat = false) by (apply Nat.leb_gt; exact L).
  rewrite E, andb_false_r.
  repeat (break_match; try discriminate); reflexivity.
Qed.

(** What admission alone does to the store and to the session: nothing to
    the store, and only bind statements to the session. *)
Lemma bound_untouched srv cc c0 r1 res r2 :
  getClient (start srv) = (Some c0, r1) ->
  call (bind_tenant cc) c0 r1 = (res, r2) ->
  r_store r2 = store srv /\
  exists c2, dbClient r2 = Some c2 /\
    (In c0 (idle (pool srv)) \/ c0 = fresh_session) /\
    exists h, history c2 = history c0 ++ h /\
              Forall (fun e => binds_tenant (fst e) = true) h.
Proof.
  intros G B. destruct (start_holding _ _ _ G) as (_ & S1 & _ & _ & I).
  apply call_frame in B. destruct B as (st & B & S2 & _ & D2 & _).
  apply bind_tenant_store in B. simpl in B. destruct B as (Db & h & Hh & Hall).
  split; [congruence|]. exists (client st). eauto 10.
Qed.

(** C6.  A batch of more than 1000 entries never passes [batchSchema]; the
    handler answers 400 "Validation failed" without calling the service.
    Over the whole request the store is left exactly as it was, the answer
    is never a success, and the only statements the request's session was
    sent are those of the tenant bind, which touch no stored row. *)
Theorem oversized_batch_rejected srv req entries :
  method req = POST -> route req = LogsBatch ->
  body_get "logs" (req_body req) = Some (JArr entries) ->
  1000 < List.length entries ->
  batchSchema (req_body req) = ZodError /\
  (forall r, router req r = respond 400 validation_failed r) /\
  r_store (serve srv req) = store srv /\
  (forall cc c0 r1 r2,
     auth (apiKeys srv) req = inr cc -> getClient (start srv) = (Some c0, r1) ->
     call (bind_tenant cc) c0 r1 = (Ok tt, r2) ->
     response (serve srv req) = Some {| status := 400; payload := validation_failed |}) /\
  (forall resp, response (serve srv req) = Some resp ->
     status resp = 400 \/ status resp = 401 \/ status resp = 500) /\
  (forall c, dbClient (serve srv req) = Some c ->
     exists c0 h, (In c0 (idle (pool srv)) \/ c0 = fresh_session) /\
                  history c = history c0 ++ h /\
                  Forall (fun e => binds_tenant (fst e) = true) h).
Proof.
  intros M R G L.
  pose proof (oversized_logs_invalid _ _ G L) as Z.
  assert (Rt : forall r, router req r = respond 400 validation_failed r).
  { intros r. unfold router, post_logs_batch. rewrite M, R, Z. reflexivity. }
  split; [exact Z|]. split; [exact Rt|].
  destruct (admission srv req).
  - rewrite (serve_refused _ _ _ A). simpl.
    split; [reflexivity|]. split; [intros; congruence|].
    split; [|discriminate].
    intros resp0 H; inv H. destruct (auth_refusal _ _ _ A); auto.
  - destruct (serve_unserved _ _ _ _ A G0) as (-> & Rs & D & _ & _ & St & _).
    split; [exact St|]. split; [intros; congruence|].
    rewrite Rs, D. split; discriminate.
  - destruct (serve_setup_failed _ _ _ _ _ _ _ A G0 B) as (c2 & D & ->). simpl.
    destruct (bound_untouched _ _ _ _ _ _ G0 B) as (St & c2' & D' & I & h & Hh & Hall).
    split; [exact St|]. split; [intros; congruence|].
    split; [intros resp H; inv H; simpl; auto|].
    intros c H; inv H. assert (c = c2') by congruence. subst. eauto.
  - destruct (serve_bound _ _ _ _ _ _ A G0 B) as (-> & c2 & H2).
    destruct (bound_untouched _ _ _ _ _ _ G0 B) as (St & c2' & D' & I & h & Hh & Hall).
    rewrite Rt, (loop_respond _ _ _ _ H2). unfold ended. simpl.
    split; [exact St|]. split; [reflexivity|].
    split; [intros resp H; inv H; simpl; auto|].
    intros c H. assert (c = c2') by congruence. subst. eauto.
Qed.

(** C8, where the code departs from the claim.  A by-application request
    that supplies [source_function] fails [querySchema], which is strict and
    does not list that key: the handler answers 400 "Invalid query
    parameters" and [getAppLogs] is never called, so no source-function
    predicate is ever applied through this route. *)
Theorem source_function_parameter_rejected srv req app v :
  method req = GET -> route req = LogsApp app ->
  get "source_function" (req_query req) = Some v ->
  querySchema (req_query req) = ZodError /\
  (forall r, router req r = respond 400 invalid_query r) /\
  r_store (serve srv req) = store srv /\
  (forall cc c0 r1 r2,
     auth (apiKeys srv) req = inr cc -> getClient (start srv) = (Some c0, r1) ->
     call (bind_tenant cc) c0 r1 = (Ok tt, r2) ->
     response (serve srv req) = Some {| status := 400; payload := invalid_query |}) /\
  (forall resp, response (serve srv req) = Some resp -> status resp <> 200).
Proof.
  intros M R G.
  assert (Z : querySchema (req_query req) = ZodError).
  { unfold querySchema. rewrite (strict_unknown _ _ _ _ G); reflexivity. }
  assert (Rt : forall r, router req r = respond 400 invalid_query r).
  { intros r. unfold router, get_logs_app. rewrite M, R, Z. reflexivity. }
  split; [exact Z|]. split; [exact Rt|].
  destruct (admission srv req).
  - rewrite (serve_refused _ _ _ A). simpl.
    split; [reflexivity|]. split; [intros; congruence|].
    intros resp0 H; inv H. destruct (auth_refusal _ _ _ A) as [E|E]; rewrite E; discriminate.
  - destruct (serve_unserved _ _ _ _ A G0) as (-> & Rs & D & _ & _ & St & _).
    split; [exact St|]. split; [intros; congruence|].
    rewrite Rs. discriminate.
  - destruct (serve_setup_failed _ _ _ _ _ _ _ A G0 B) as (c2 & D & ->). simpl.
    destruct (bound_untouched _ _ _ _ _ _ G0 B) as (St & _).
    split; [exact St|]. split; [intros; congruence|].
    intros resp H; inv H; simpl; discriminate.
  - destruct (serve_bound _ _ _ _ _ _ A G0 B) as (-> & c2 & H2).
    destruct (bound_untouched _ _ _ _ _ _ G0 B) as (St & _).
    rewrite Rt, (loop_respond _ _ _ _ H2). unfold ended. simpl.
    split; [exact St|]. split; [reflexivity|].
    intros resp H; inv H; simpl; discriminate.
Qed.

Lemma bind_where_last_none params c : forall cs,
  bind_cond params c = None -> bind_where params (cs ++ [c]) = None.
Proof.
  induction cs as [|c0 cs IH]; simpl; intros H.
  - rewrite H. reflexivity.
  - rewrite (IH H). destruct (bind_cond params c0); reflexivity.
Qed.

Lemma count_sql_tenant_first op filters :
  tenant_first (f_comp_code filters) (count_sql op filters).
Proof. rewrite count_sql_is_page_sql. apply page_sql_tenant_first. Qed.

(** With a metadata filter that is not JSON, the COUNT statement of
    [searchLogs] has a conjunct the store cannot bind. *)
Lemma search_count_unbindable filters m :
  f_metadata filters = Some m -> m <> ""%string -> jsonb_in m = None ->
  let '(conds, params, _) := search_count_sql filters in
  bind_where params conds = None.
Proof.
  intros Hm Ne J. unfold search_count_sql. cbv zeta.
  match goal with
  | |- context [and_if ?b c_metadata OpContains ?p ?acc] => set (A := acc)
  end.
  assert (TF : tenant_first (f_comp_code filters) A).
  { subst A. repeat apply and_if_tenant_first.
    first [apply one_cond_tenant_first | apply two_conds_tenant_first; reflexivity]. }
  destruct A as [[conds params] idx]. destruct TF as (_ & -> & _).
  rewrite Hm. simpl nonempty.
  assert (N : negb (m =? "")%string = true).
  { apply negb_true_iff. apply String.eqb_neq. exact Ne. }
  rewrite N. unfold and_if. apply bind_where_last_none.
  unfold bind_cond, cond. simpl c_cmp. simpl c_col. simpl c_ph.
  unfold param_at. rewrite nth_error_app2 by lia. rewrite Nat.sub_diag. simpl.
  rewrite J. reflexivity.
Qed.

Lemma query_count_unbindable conds params st :
  bind_where params conds = None ->
  exists e st', query (SCount conds params) st = (Throw e, st') /\ db st' = db st.
Proof.
  intros B. unfold query, exec, attempt.
  destruct (fault_at (env st) (n_stmt (env st))); [eexists; eexists; split; reflexivity|].
  destruct (in_aborted_txn (client st) && _); [eexists; eexists; split; reflexivity|].
  simpl. rewrite B.
  destruct (current_tenant (client st)); eexists; eexists; split; reflexivity.
Qed.

Lemma searchLogs_invalid_metadata filters m st :
  f_metadata filters = Some m -> m <> ""%string -> jsonb_in m = None ->
  exists e st', searchLogs filters st = (Throw e, st') /\ db st' = db st.
Proof.
  intros Hm Ne J. pose proof (search_count_unbindable filters m Hm Ne J) as U.
  unfold searchLogs, count_then_page.
  destruct (search_count_sql filters) as [[conds params] idx].
  destruct (query_count_unbindable conds params st U) as (e & st' & Q & Db).
  exists e, st'. unfold bind. rewrite Q. split; [reflexivity|exact Db].
Qed.

Lemma get_other k k' v o : (k =? k')%string = false -> get k ((k', v) :: o) = get k o.
Proof. simpl. intros ->. reflexivity. Qed.

(** The search schema accepts any string whatever as [metadata]. *)
Lemma searchSchema_any_metadata q f0 m :
  searchSchema q = Valid f0 -> get "metadata" q = None ->
  exists f, searchSchema (("metadata", JStr m) :: q) = Valid f /\
            f_metadata f = Some m /\ f_comp_code f = f_comp_code f0.
Proof.
  unfold searchSchema, query_fields. intros H G.
  change (strict search_keys (("metadata", JStr m) :: q)) with (strict search_keys q).
  rewrite !get_other by reflexivity.
  change (z_optional (z_string 0 None) (get "metadata" (("metadata", JStr m) :: q)))
    with (@Valid (option string) (Some m)).
  destruct (strict search_keys q); [|discriminate].
  repeat (break_match; try discriminate). inv H.
  simpl. eexists. split; [reflexivity|]. simpl. auto.
Qed.

(** C10, as amended.  Take a search query that is valid without a metadata
    filter and add one: any non-empty string that is not JSON.  The query
    still passes validation, the string reaches the store as the argument
    of the containment predicate, the COUNT statement is refused there, and
    a request that got its session bound is answered 500 "Query failed". *)
Theorem invalid_metadata_fails_in_store srv req q f0 m :
  searchSchema q = Valid f0 -> get "metadata" q = None ->
  m <> ""%string -> jsonb_in m = None ->
  method req = GET -> route req = LogsSearch ->
  req_query req = ("metadata", JStr m) :: q ->
  exists f,
    searchSchema (req_query req) = Valid f /\ f_metadata f = Some m /\
    In (cond c_metadata OpContains (List.length (snd (fst (search_count_sql f)))))
       (fst (fst (search_count_sql f))) /\
    last (snd (fst (search_count_sql f))) PNull = PText m /\
    (forall st, exists e st', searchLogs f st = (Throw e, st') /\ db st' = db st) /\
    (forall cc c0 r1 r2,
       auth (apiKeys srv) req = inr cc -> getClient (start srv) = (Some c0, r1) ->
       call (bind_tenant cc) c0 r1 = (Ok tt, r2) ->
       response (serve srv req) =
         Some {| status := 500; payload := Message false "Query failed" |}) /\
    (forall resp, response (serve srv req) = Some resp ->
       status resp <> 200 /\ payload resp <> invalid_query).
Proof.
  intros V G Ne J M R Q.
  destruct (searchSchema_any_metadata q f0 m V G) as (f & Vf & Hm & _).
  rewrite Q. exists f. split; [exact Vf|]. split; [exact Hm|].
  assert (N : negb (m =? "")%string = true).
  { apply negb_true_iff. apply String.eqb_neq. exact Ne. }
  assert (Shape : In (cond c_metadata OpContains (List.length (snd (fst (search_count_sql f)))))
                     (fst (fst (search_count_sql f))) /\
                  last (snd (fst (search_count_sql f))) PNull = PText m).
  { unfold search_count_sql. cbv zeta.
    match goal with
    | |- context [and_if ?b c_metadata OpContains ?p ?acc] => set (A := acc)
    end.
    assert (TF : tenant_first (f_comp_code f) A).
    { subst A. repeat apply and_if_tenant_first.
      first [apply one_cond_tenant_first | apply two_conds_tenant_first; reflexivity]. }
    destruct A as [[conds params] idx]. destruct TF as (_ & -> & _).
    rewrite Hm. simpl nonempty. rewrite N. unfold and_if. simpl fst. simpl snd.
    split.
    - apply in_or_app. right. left. rewrite length_app. simpl.
      replace (List.length params + 1) with (S (List.length params)) by lia. reflexivity.
    - rewrite last_last. reflexivity. }
  split; [apply Shape|]. split; [apply Shape|].
  assert (Th : forall st, exists e st', searchLogs f st = (Throw e, st') /\ db st' = db st)
    by (intros st; eapply searchLogs_invalid_metadata; eauto).
  split; [exact Th|].
  assert (Rt : forall r c, dbClient r = Some c -> router req r = later (await Search f) r).
  { intros r c D. unfold router, get_logs_search. rewrite M, R, Q, Vf, D. reflexivity. }
  destruct (admission srv req).
  - rewrite (serve_refused _ _ _ A). simpl. split; [intros; congruence|].
    intros resp0 H; inv H. unfold auth in A.
    repeat (break_match; try discriminate); inv A; simpl; split; discriminate.
  - destruct (serve_unserved _ _ _ _ A G0) as (-> & Rs & _). rewrite Rs.
    split; [intros; congruence|discriminate].
  - destruct (serve_setup_failed _ _ _ _ _ _ _ A G0 B) as (c2 & D & ->). simpl.
    split; [intros; congruence|]. intros resp H; inv H. simpl. split; discriminate.
  - destruct (serve_bound _ _ _ _ _ _ A G0 B) as (-> & c2 & H2).
    rewrite (Rt r2 c2) by apply H2. rewrite (loop_query _ _ _ _ H2).
    destruct (call (retrieve Search f) c2 r2) as [res r3] eqn:C.
    apply call_frame in C. destruct C as (st & C & _).
    destruct (Th {| db := r_store r2; client := c2; env := r_env r2 |}) as (e & st' & T & _).
    simpl in C. rewrite T in C. inv C. simpl.
    split; [reflexivity|]. intros resp H; inv H. simpl. split; discriminate.
Qed.

(** C1.  Each of the three retrieval functions, run on a session bound to
    tenant [A], returns only rows of tenant [A], whatever the filter holds
    (in particular when it has no predicate but the tenant); and those rows
    also carry the tenant the filter names, so a filter that names another
    tenant than the session's gets no row at all. *)
Theorem retrieval_rows_belong_to_tenant op filters st page st' A :
  current_tenant (client st) = Some A ->
  retrieve op filters st = (Ok page, st') ->
  Forall (fun r => comp_code r = A /\ comp_code r = f_comp_code filters /\
                   In r (visible (db st) (client st))) (rows page) /\
  (f_comp_code filters <> A -> rows page = []).
Proof.
  intros T H.
  assert (F : Forall (fun r => comp_code r = A /\ comp_code r = f_comp_code filters /\
                               In r (visible (db st) (client st))) (rows page)).
  { rewrite Forall_forall. intros r Hr.
    destruct (retrieve_rows_of_tenant _ _ _ _ _ _ H Hr) as [E1 E2].
    split; [congruence|]. split; [exact E1|].
    apply retrieve_ok in H.
    destruct H as (conds & params & tn & p & _ & _ & _ & _ & _ & _ & _ & Rw & _).
    rewrite Rw in Hr. apply in_page in Hr. apply matching_in in Hr. apply Hr. }
  split; [exact F|].
  intros Ne. destruct (rows page) as [|r l]; [reflexivity|].
  inversion F as [|? ? (E1 & E2 & _) _]; subst. congruence.
Qed.

(** The same through the HTTP surface: a 200 answer with a page was made
    for a request whose [comp_code] parameter is a string [A], on a session
    bound to [A], and every row of the page is a row of [A]. *)
Corollary served_rows_belong_to_tenant srv req data total returned lim off :
  response (serve srv req) =
    Some {| status := 200; payload := PageOf data total returned lim off |} ->
  exists A, get "comp_code" (req_query req) = Some (JStr A) /\
            auth (apiKeys srv) req = inr (JStr A) /\
            Forall (fun r => comp_code r = A) data.
Proof.
  intros H. destruct (admission srv req).
  - rewrite (serve_refused _ _ _ A) in H. simpl in H. inv H.
    destruct (auth_refusal _ _ _ A); discriminate.
  - destruct (serve_unserved _ _ _ _ A G) as (E & Rs & _). rewrite E in H. congruence.
  - destruct (serve_setup_failed _ _ _ _ _ _ _ A G B) as (c2 & D & E).
    rewrite E in H. discriminate.
  - destruct (serve_bound _ _ _ _ _ _ A G B) as (E & c2 & H2).
    rewrite E in H. clear E.
    assert (D2 : dbClient r2 = Some c2) by apply H2.
    apply call_frame in B. destruct B as (stb & B & _ & _ & D2' & _).
    apply bind_tenant_ok in B. destruct B as (s & -> & Tn).
    assert (c2 = client stb) by congruence. subst c2.
    destruct (routed req r2 _ D2).
    + rewrite E, (loop_respond _ _ _ _ H2) in H. simpl in H. inv H.
      destruct N; discriminate.
    + rewrite E, (loop_store _ _ _ H2) in H. simpl in H.
      destruct (fst (call (storeBatchLogs validated) (client stb) r2)); discriminate.
    + rewrite E, (loop_query _ _ _ _ H2) in H. simpl in H.
      destruct (call (retrieve op filters) (client stb) r2) as [res r3] eqn:C.
      apply call_frame in C. destruct C as (st & C & _).
      destruct res as [p|e]; [|discriminate]. simpl in H. inv H.
      pose proof (auth_get _ _ _ Hm A) as Gq.
      exists s. split; [exact Gq|]. split; [exact A|].
      rewrite Forall_forall. intros r Hr.
      destruct (retrieve_rows_of_tenant _ _ _ _ _ _ C Hr) as [_ E2].
      simpl in E2. congruence.
Qed.
End PipelineFacts.

(* ===================================================================== *)
(** * Batches: what a call leaves in the table and sends *)
(* ===================================================================== *)

Section BatchRows.
Context {P : Platform}.

(** What a converted row keeps of the values it was built from. *)
Lemma coerce_row_inv i v row :
  coerce_row i v = Some row ->
  id row = i /\
  varchar 100 (v_process_id v) = Some (process_id row) /\
  varchar 50 (v_comp_code v) = Some (comp_code row) /\
  varchar_null 50 (v_emp_id v) = Some (emp_id row) /\
  varchar 100 (v_source_app v) = Some (source_app row) /\
  varchar_null 150 (v_source_function v) = Some (source_function row) /\
  varchar_null 150 (v_reference_id v) = Some (reference_id row) /\
  varchar 100 (v_action v) = Some (action row) /\
  description row = v_description v /\
  (exists md, jsonb_in (v_metadata v) = Some md /\ metadata row = Some md) /\
  varchar 50 (v_created_by v) = Some (created_by row) /\
  v_created_at v = Some (created_at row) /\
  varchar_null 20 (v_app_version v) = Some (app_version row) /\
  (exists b, varchar 100 (v_batch_id v) = Some b /\ batch_id row = Some b).
Proof.
  unfold coerce_row. intros H. repeat (break_match; try discriminate). inv H. simpl.
  repeat split; eauto.
Qed.

Lemma storeBatchLogs_ok_steps payload st result st' :
  storeBatchLogs payload st = (Ok result, st') ->
  let stA := snd (uuidv4 (snd (new_Date st))) in
  let bid := make_batch_id (time_at (env st) (n_time (env st)))
                           (uuid_at (env st) (n_uuid (env st))) in
  exists x stB stC y,
    query SBegin stA = (Ok x, stB) /\
    for_each (insert_log payload bid) (logs payload) stB = (Ok tt, stC) /\
    query SCommit stC = (Ok y, st') /\
    result = {| r_batch_id := bid; total_received := List.length (logs payload) |}.
Proof.
  unfold storeBatchLogs, bind, try_catch, new_Date, uuidv4, ret, throw. simpl.
  match goal with |- context [query SBegin ?x] => set (stA := x) end.
  destruct (query SBegin stA) as [[x|e0] stB] eqn:B.
  - destruct (for_each _ _ stB) as [[u|e1] stC] eqn:F.
    + destruct (query SCommit stC) as [[y|e2] stD] eqn:C.
      * intros H; inv H. destruct u. exists x, stB, stC, y. auto.
      * destruct (query SRollback stD) as [[z|e3] stE]; discriminate.
    + destruct (query SRollback stC) as [[z|e3] stE]; discriminate.
  - destruct (query SRollback stB) as [[z|e3] stE]; discriminate.
Qed.

Lemma known_app W W' k : known (W ++ W') k = known W k || known W' k.
Proof. unfold known. apply existsb_app. Qed.

Lemma known_in W r : In r W -> known W (process_id r) = true.
Proof.
  unfold known. intros H. apply existsb_exists. exists r. split; [exact H|apply String.eqb_refl].
Qed.

Lemma known_pids W k : known W k = true <-> In k (map process_id W).
Proof.
  unfold known. rewrite existsb_exists, in_map_iff. split.
  - intros (x & Hx & E). apply String.eqb_eq in E. eauto.
  - intros (x & E & Hx). exists x. split; [exact Hx|]. apply String.eqb_eq. exact E.
Qed.

Lemma for_each_appends payload bid ls : forall st t st',
  txn (client st) = Some t ->
  for_each (insert_log payload bid) ls st = (Ok tt, st') ->
  exists t' new,
    txn (client st') = Some t' /\ aborted t' = aborted t /\
    tenant_at_begin t' = tenant_at_begin t /\
    current_tenant (client st') = current_tenant (client st) /\
    work t' = work t ++ new /\
    List.length new <= List.length ls /\
    NoDup (map process_id new) /\
    Forall (entry_row payload bid ls (current_tenant (client st)) (work t)) new.
Proof.
  induction ls as [|log ls IH]; intros st t st' Ht H.
  - inv H. exists t, []. rewrite app_nil_r. repeat split; auto. constructor.
  - simpl in H. unfold bind in H. rewrite insert_log_eq in H.
    destruct (prepare log st) as [[pid at_] st0] eqn:Pr.
    pose proof (prepare_given _ _ _ _ _ Pr) as (Gp & _ & _).
    apply prepare_frame in Pr. destruct Pr as (Db & Cl & _ & _).
    destruct (query (SInsert (values_of payload bid log pid at_)) st0) as [[x|e] st1] eqn:Q;
      [|discriminate].
    rewrite <- Cl in Ht.
    pose proof (query_insert_in_txn _ _ _ _ _ Ht Q) as (_ & Tn & _ & A & tn & row & T & C & I & Tx).
    assert (Weak : forall W new,
                   Forall (entry_row payload bid ls (current_tenant (client st1)) W) new ->
                   forall W0, (forall k, known W0 k = true -> known W k = true) ->
                   Forall (entry_row payload bid (log :: ls) (current_tenant (client st)) W0) new).
    { intros W new F W0 Hk. eapply Forall_impl; [|exact F].
      intros r (K & T1 & R). split.
      - destruct (known W0 (process_id r)) eqn:E; [|reflexivity].
        apply Hk in E. congruence.
      - split; [congruence|]. destruct R as (R1 & R2 & R3 & l0 & Hin & R4).
        repeat split; auto. exists l0. split; [right; exact Hin|exact R4]. }
    destruct (existsb (fun r' => process_id r' =? process_id row) (work t)) eqn:X;
      destruct (IH _ _ _ Tx H) as (t' & new & Tx' & A' & B' & Tn' & W' & L' & N' & F');
      simpl in A', B', W', F'; rewrite Cl in *.
    + exists t', new. repeat split; auto; try congruence.
      * simpl. lia.
      * eapply Weak; [exact F'|auto].
    + exists t', (row :: new). repeat split; auto; try congruence.
      * rewrite W', <- app_assoc. reflexivity.
      * simpl. lia.
      * simpl. constructor; [|exact N'].
        intros Hin. rewrite Forall_forall in F'.
        apply in_map_iff in Hin. destruct Hin as (r' & E' & Hin).
        destruct (F' r' Hin) as (K & _). rewrite known_app in K.
        apply orb_false_iff in K. destruct K as [_ K]. unfold known in K. simpl in K.
        rewrite E', String.eqb_refl in K. discriminate.
      * constructor.
        -- apply coerce_row_inv in C. simpl in C.
           destruct C as (_ & Cp & Cc & _ & Ca & _ & _ & _ & _ & _ & Cb & _ & _ & Cbid).
           unfold tenant_isolation in I. apply String.eqb_eq in I.
           split; [exact X|]. split; [congruence|]. repeat split; auto.
           exists log. split; [left; reflexivity|].
           intros Hn. rewrite <- (Gp Hn). exact Cp.
        -- eapply Weak; [exact F'|]. intros k Hk. rewrite known_app, Hk. reflexivity.
Qed.

Lemma storeBatchLogs_ok_rows payload st result st' :
  txn (client st) = None ->
  storeBatchLogs payload st = (Ok result, st') ->
  exists new,
    table (db st') = table (db st) ++ new /\
    txn (client st') = None /\
    current_tenant (client st') = current_tenant (client st) /\
    List.length new <= List.length (logs payload) /\
    NoDup (map process_id new) /\
    Forall (entry_row payload (r_batch_id result) (logs payload)
              (current_tenant (client st)) (table (db st))) new.
Proof.
  intros Tx H. apply storeBatchLogs_ok_steps in H. cbv zeta in H.
  destruct H as (x & stB & stC & y & B & F & C & ->). cbn [r_batch_id].
  apply query_begin in B. destruct B as (Tb & B). destruct B as (Tn & t & Ht & A & W); [reflexivity|].
  specialize (W Tx). simpl in Tb, Tn, W.
  destruct (for_each_appends _ _ _ _ _ _ Ht F) as (t' & new & Ht' & A' & _ & Tn' & W' & L & N & R).
  apply query_commit in C. rewrite Ht' in C. rewrite A', A in C.
  destruct C as (Tc & Tx' & Tn'').
  exists new. rewrite Tc, W', W, Tn'', Tn', Tn. rewrite W, Tn in R. auto 10.
Qed.

(** A call that returns has only appended: the rows that were in the table
    are still there, in place, and every new row carries the tenant the
    session is bound to, the payload's [comp_code] and [created_by] as the
    columns store them, the batch id the call returns, and a [process_id] no
    earlier row had.  At most one row per entry is added. *)
Theorem stored_batch_appends_tenant_rows payload st result st' :
  txn (client st) = None ->
  storeBatchLogs payload st = (Ok result, st') ->
  exists new,
    table (db st') = table (db st) ++ new /\
    List.length new <= List.length (logs payload) /\
    Forall (fun r => current_tenant (client st) = Some (comp_code r) /\
                     varchar 50 (p_comp_code payload) = Some (comp_code r) /\
                     varchar 50 (p_created_by payload) = Some (created_by r) /\
                     batch_id r = Some (r_batch_id result) /\
                     known (table (db st)) (process_id r) = false) new.
Proof.
  intros Tx H.
  assert (Bid : r_batch_id result =
                make_batch_id (time_at (env st) (n_time (env st)))
                              (uuid_at (env st) (n_uuid (env st)))).
  { apply storeBatchLogs_ok_steps in H. cbv zeta in H.
    destruct H as (_ & _ & _ & _ & _ & _ & _ & ->). reflexivity. }
  destruct (storeBatchLogs_ok_rows _ _ _ _ Tx H) as (new & T & _ & _ & L & _ & R).
  exists new. split; [exact T|]. split; [exact L|].
  eapply Forall_impl; [|exact R].
  intros r (K & Tn & Cc & Cb & (b & Vb & Eb) & _).
  rewrite Bid in Vb. rewrite batch_id_fits in Vb. inv Vb.
  rewrite Bid. auto.
Qed.

(** The unique key holds across calls: if no two rows of the table share a
    [process_id] before a call, none do after it, whether it returns or
    throws. *)
Theorem process_id_stays_unique payload st r st' :
  txn (client st) = None ->
  NoDup (map process_id (table (db st))) ->
  storeBatchLogs payload st = (r, st') ->
  NoDup (map process_id (table (db st'))).
Proof.
  intros Tx N H. destruct r as [result|e].
  - destruct (storeBatchLogs_ok_rows _ _ _ _ Tx H) as (new & T & _ & _ & _ & N' & R).
    rewrite T, map_app. apply NoDup_app; [exact N|exact N'|].
    intros k Hk Hk'. apply known_pids in Hk.
    apply in_map_iff in Hk'. destruct Hk' as (row & <- & Hin).
    rewrite Forall_forall in R. destruct (R row Hin) as (K & _). congruence.
  - apply storeBatchLogs_throw_keeps_table in H. rewrite H. exact N.
Qed.

Lemma varchar_fits n s : String.length s <= n -> varchar n s = Some s.
Proof.
  unfold varchar. intros H. apply Nat.leb_le in H. rewrite H. reflexivity.
Qed.

(** [process_id] is a key of the whole table, not of a tenant: an entry
    whose [process_id] some row already has, stored by whichever tenant, adds
    no row.  A batch made of such entries leaves the table as it was, and is
    still reported received in full. *)
Theorem used_process_id_adds_no_row payload st result st' :
  txn (client st) = None ->
  Forall (fun l => exists s, l_process_id l = Some s /\ s <> "" /\ String.length s <= 100 /\
                             known (table (db st)) s = true) (logs payload) ->
  storeBatchLogs payload st = (Ok result, st') ->
  table (db st') = table (db st) /\
  total_received result = List.length (logs payload).
Proof.
  intros Tx U H. split; [|eapply storeBatchLogs_ok_total; exact H].
  destruct (storeBatchLogs_ok_rows _ _ _ _ Tx H) as (new & T & _ & _ & _ & _ & R).
  destruct new as [|row new]; [rewrite T; apply app_nil_r|].
  exfalso. inversion R as [|? ? (K & _ & _ & _ & _ & log & Hin & Hp) _]; subst.
  rewrite Forall_forall in U. destruct (U log Hin) as (s & Es & Ne & Ls & Ks).
  assert (Hn : nonempty (l_process_id log) = true).
  { rewrite Es. simpl. apply negb_true_iff. apply String.eqb_neq. exact Ne. }
  specialize (Hp Hn). unfold pid_of in Hp. rewrite Es in Hp.
  rewrite (varchar_fits _ _ Ls) in Hp. inv Hp. congruence.
Qed.

Lemma for_each_ok_inserts payload bid ls : forall st st',
  for_each (insert_log payload bid) ls st = (Ok tt, st') ->
  exists vs,
    history (client st') = history (client st) ++ map (fun v => (SInsert v, true)) vs /\
    Forall2 (fun log v =>
               v_batch_id v = bid /\ v_comp_code v = p_comp_code payload /\
               v_created_by v = p_created_by payload /\
               v_source_app v = l_source_app log /\ v_action v = l_action log /\
               (nonempty (l_process_id log) = true -> l_process_id log = Some (v_process_id v)))
            ls vs.
Proof.
  induction ls as [|log ls IH]; intros st st' H.
  - inv H. exists []. rewrite app_nil_r. split; [reflexivity|constructor].
  - simpl in H. unfold bind in H. rewrite insert_log_eq in H.
    destruct (prepare log st) as [[pid at_] st0] eqn:Pr.
    pose proof (prepare_given _ _ _ _ _ Pr) as (Gp & _ & _).
    apply prepare_frame in Pr. destruct Pr as (_ & Cl & _ & _).
    destruct (query (SInsert (values_of payload bid log pid at_)) st0) as [[x|e] st1] eqn:Q;
      [|discriminate].
    apply query_frame in Q. destruct Q as [_ Hh]. simpl in Hh.
    apply IH in H. destruct H as (vs & Hh' & Hall).
    exists (values_of payload bid log pid at_ :: vs).
    rewrite Hh', Hh, Cl, <- app_assoc. split; [reflexivity|].
    constructor; [|exact Hall]. simpl. repeat split.
    intros Hn. rewrite (Gp Hn). unfold pid_of, nonempty in *.
    destruct (l_process_id log); [reflexivity|discriminate].
Qed.

(** What a stored batch was sent as: BEGIN, one INSERT per entry in the
    order of submission, COMMIT, all of them successful and nothing else.
    Every INSERT carries the payload's [comp_code] and [created_by] and the
    batch id the call returns; an entry that came with a [process_id] is sent
    with it. *)
Theorem stored_batch_statements payload st result st' :
  storeBatchLogs payload st = (Ok result, st') ->
  exists vs,
    history (client st') =
      history (client st) ++ (SBegin, true) :: map (fun v => (SInsert v, true)) vs
                          ++ [(SCommit, true)] /\
    Forall2 (fun log v =>
               v_batch_id v = r_batch_id result /\ v_comp_code v = p_comp_code payload /\
               v_created_by v = p_created_by payload /\
               v_source_app v = l_source_app log /\ v_action v = l_action log /\
               (nonempty (l_process_id log) = true -> l_process_id log = Some (v_process_id v)))
            (logs payload) vs.
Proof.
  intros H. apply storeBatchLogs_ok_steps in H. cbv zeta in H.
  destruct H as (x & stB & stC & y & B & F & C & ->). cbn [r_batch_id].
  apply query_frame in B, C. destruct B as [_ B], C as [_ C]. simpl in B, C.
  apply for_each_ok_inserts in F. destruct F as (vs & F & R).
  exists vs. split; [|exact R].
  rewrite C, F, B. rewrite <- !app_assoc. reflexivity.
Qed.

Lemma for_each_throw_history payload bid ls : forall st e st',
  for_each (insert_log payload bid) ls st = (Throw e, st') ->
  exists vs v,
    history (client st') =
      history (client st) ++ map (fun v => (SInsert v, true)) vs ++ [(SInsert v, false)] /\
    List.length vs < List.length ls.
Proof.
  induction ls as [|log ls IH]; intros st e st' H.
  - inv H.
  - simpl in H. unfold bind in H. rewrite insert_log_eq in H.
    destruct (prepare log st) as [[pid at_] st0] eqn:Pr.
    apply prepare_frame in Pr. destruct Pr as (_ & Cl & _ & _).
    destruct (query (SInsert (values_of payload bid log pid at_)) st0) as [[x|e'] st1] eqn:Q.
    + apply query_frame in Q. destruct Q as [_ Hh]. simpl in Hh.
      apply IH in H. destruct H as (vs & v & Hh' & L).
      exists (values_of payload bid log pid at_ :: vs), v.
      rewrite Hh', Hh, Cl, <- app_assoc. split; [reflexivity|simpl; lia].
    + inv H. apply query_frame in Q. destruct Q as [_ Hh]. simpl in Hh.
      exists [], (values_of payload bid log pid at_). rewrite Hh, Cl. split; [reflexivity|simpl; lia].
Qed.

(** A call that throws stopped at its first failed statement: what it sent
    is BEGIN and INSERTs that succeeded, then the one statement that failed
    (BEGIN itself, the INSERT of some entry, or COMMIT), then ROLLBACK and
    nothing more.  The entries after the failed one were never sent. *)
Theorem failed_batch_stops_at_first_failure payload st e st' :
  storeBatchLogs payload st = (Throw e, st') ->
  exists oks failed b,
    history (client st') =
      history (client st) ++ map (fun s => (s, true)) oks ++ [(failed, false); (SRollback, b)] /\
    (oks = [] /\ failed = SBegin \/
     exists vs, oks = SBegin :: map SInsert vs /\
       ((exists v, failed = SInsert v) /\ List.length vs < List.length (logs payload) \/
        failed = SCommit /\ List.length vs = List.length (logs payload))).
Proof.
  unfold storeBatchLogs, bind, try_catch, new_Date, uuidv4, ret, throw. simpl.
  match goal with |- context [query SBegin ?x] => set (stA := x) end.
  assert (HA : history (client stA) = history (client st)) by reflexivity.
  destruct (query SBegin stA) as [[x|e0] stB] eqn:B.
  - apply query_frame in B. destruct B as [_ B]. simpl in B.
    match goal with |- context [for_each ?f ?l stB] =>
      destruct (for_each f l stB) as [[u|e1] stC] eqn:F end.
    + destruct u. apply for_each_ok_inserts in F. destruct F as (vs & F & R).
      destruct (query SCommit stC) as [[y|e2] stD] eqn:C; [discriminate|].
      apply query_frame in C. destruct C as [_ C]. simpl in C.
      destruct (query SRollback stD) as [rr stE] eqn:Rb.
      apply query_frame in Rb. destruct Rb as [_ Rb].
      intros H. assert (stE = st') by (destruct rr; inv H; reflexivity). subst stE.
      exists (SBegin :: map SInsert vs), SCommit, (is_ok rr).
      split.
      * rewrite Rb, C, F, B. rewrite ?HA. simpl. rewrite map_map, <- !app_assoc. reflexivity.
      * right. exists vs. split; [reflexivity|]. right. split; [reflexivity|].
        symmetry. eapply Forall2_length. exact R.
    + apply for_each_throw_history in F. destruct F as (vs & v & F & L).
      destruct (query SRollback stC) as [rr stE] eqn:Rb.
      apply query_frame in Rb. destruct Rb as [_ Rb].
      intros H. assert (stE = st') by (destruct rr; inv H; reflexivity). subst stE.
      exists (SBegin :: map SInsert vs), (SInsert v), (is_ok rr).
      split.
      * rewrite Rb, F, B. rewrite ?HA. simpl. rewrite map_map, <- !app_assoc. reflexivity.
      * right. exists vs. split; [reflexivity|]. left. eauto.
  - apply query_frame in B. destruct B as [_ B]. simpl in B.
    destruct (query SRollback stB) as [rr stE] eqn:Rb.
    apply query_frame in Rb. destruct Rb as [_ Rb].
    intros H. assert (stE = st') by (destruct rr; inv H; reflexivity). subst stE.
    exists [], SBegin, (is_ok rr). split; [|left; auto].
    rewrite Rb, B. rewrite ?HA. simpl. rewrite <- !app_assoc. reflexivity.
Qed.

End BatchRows.

Section MoreBatchFacts.
Context {P : Platform}.

(** A batch that was accepted is in the table, and only what was new was
    added.  For entries that all bring a [process_id] (of at most 100
    characters), on a session with no transaction open: when the call
    returns, every entry's [process_id] is the [process_id] of a row of the
    table; the rows added are rows of entries whose [process_id] no row had
    before, one row at most for each such [process_id]; so no more rows are
    added than there are such entries. *)
Theorem returned_batch_is_in_the_table payload st result st' :
  txn (client st) = None ->
  Forall keyed (logs payload) ->
  storeBatchLogs payload st = (Ok result, st') ->
  (forall log, In log (logs payload) -> known (table (db st')) (pid_of log) = true) /\
  exists new,
    table (db st') = table (db st) ++ new /\
    NoDup (map process_id new) /\
    incl (map process_id new) (map pid_of (unseen (table (db st)) (logs payload))) /\
    List.length new <= List.length (unseen (table (db st)) (logs payload)).
Proof.
  intros Tx K H.
  assert (Kn : Forall (fun l => nonempty (l_process_id l) = true) (logs payload)).
  { eapply Forall_impl; [|exact K]. intros l (s & -> & N & _). simpl.
    apply negb_true_iff. apply String.eqb_neq. exact N. }
  assert (Kf : forall log, In log (logs payload) -> varchar 100 (pid_of log) = Some (pid_of log)).
  { intros log Hin. rewrite Forall_forall in K. destruct (K log Hin) as (s & E & _ & L).
    unfold pid_of. rewrite E. apply varchar_fits. exact L. }
  split.
  - destruct (first_submission _ _ _ _ Kn H) as (_ & F).
    intros log Hin. rewrite Forall_forall in F. destruct (F log Hin) as (tn & _ & _ & _ & R).
    destruct (R 0%Z "" "" 0%Z eq_refl) as (row & C & _ & Kr).
    apply coerce_row_process_id in C. simpl in C. rewrite (Kf log Hin) in C. injection C as C. rewrite C. exact Kr.
  - destruct (storeBatchLogs_ok_rows _ _ _ _ Tx H) as (new & T & _ & _ & _ & N & R).
    exists new. split; [exact T|]. split; [exact N|].
    assert (I : incl (map process_id new) (map pid_of (unseen (table (db st)) (logs payload)))).
    { intros k Hk. apply in_map_iff in Hk. destruct Hk as (r & <- & Hr).
      rewrite Forall_forall in R. destruct (R r Hr) as (Kr & _ & _ & _ & _ & log & Hin & Hp).
      rewrite Forall_forall in Kn. specialize (Hp (Kn log Hin)).
      rewrite (Kf log Hin) in Hp. injection Hp as Hp. rewrite <- Hp.
      apply in_map. unfold unseen. apply filter_In. split; [exact Hin|].
      rewrite Hp, Kr. reflexivity. }
    split; [exact I|].
    rewrite <- (length_map process_id new), <- (length_map pid_of (unseen _ _)).
    apply NoDup_incl_length; assumption.
Qed.

End MoreBatchFacts.

(* ===================================================================== *)
(** * Retrieval: reading only, and pages that compose *)
(* ===================================================================== *)

Section ReadFacts.
Context {P : Platform}.

Lemma query_reads s st r st' :
  reads s = true -> query s st = (r, st') ->
  db st' = db st /\ current_tenant (client st') = current_tenant (client st) /\
  (txn (client st) = None -> txn (client st') = None) /\
  (is_ok r = true -> txn (client st') = txn (client st)).
Proof.
  unfold query, exec, attempt, fail_in_txn. intros Hr H.
  destruct s; try discriminate; simpl in H;
    repeat (break_match; try discriminate); inv_pairs; simpl;
    repeat split; auto; try discriminate; intros E; rewrite ?E in *; try congruence.
Qed.

Lemma count_then_page_frame cs cp ci ps pp pi filters st r st' :
  count_then_page (cs, cp, ci) (ps, pp, pi) filters st = (r, st') ->
  db st' = db st /\ current_tenant (client st') = current_tenant (client st) /\
  (txn (client st) = None -> txn (client st') = None) /\
  (is_ok r = true -> txn (client st') = txn (client st)) /\
  exists h, history (client st') = history (client st) ++ h /\
            1 <= List.length h <= 2 /\ Forall (fun e => reads (fst e) = true) h.
Proof.
  unfold count_then_page, bind, count_of, ret, throw.
  destruct (query (SCount cs cp) st) as [[x|e] st1] eqn:C.
  - pose proof (query_frame _ _ _ _ C) as [_ HC].
    apply query_reads in C; [|reflexivity]. destruct C as (D1 & T1 & N1 & O1).
    destruct x; try (intros H; inv H; simpl; repeat split; auto; try discriminate;
                     eexists; split; [exact HC|]; split; [simpl; lia|repeat constructor]).
    destruct (query (SSelect ps pi (S pi) _) st1) as [[y|e] st2] eqn:S.
    + pose proof (query_frame _ _ _ _ S) as [_ HS].
      apply query_reads in S; [|reflexivity]. destruct S as (D2 & T2 & N2 & O2).
      intros H; inv H. simpl. repeat split; try congruence; auto.
      * intros _. rewrite O2, O1; auto.
      * eexists. split; [rewrite HS, HC, <- app_assoc; reflexivity|].
        split; [simpl; lia|repeat constructor].
    + pose proof (query_frame _ _ _ _ S) as [_ HS].
      apply query_reads in S; [|reflexivity]. destruct S as (D2 & T2 & N2 & O2).
      intros H; inv H. simpl. repeat split; try congruence; auto; try discriminate.
      eexists. split; [rewrite HS, HC, <- app_assoc; reflexivity|].
      split; [simpl; lia|repeat constructor].
  - pose proof (query_frame _ _ _ _ C) as [_ HC].
    apply query_reads in C; [|reflexivity]. destruct C as (D1 & T1 & N1 & O1).
    intros H; inv H. simpl. repeat split; auto; try discriminate.
    eexists. split; [exact HC|]. split; [simpl; lia|repeat constructor].
Qed.

(** The three retrieval functions only read: whether the call returns a
    page or throws, the table and its sequence are as before, the session is
    bound to the same tenant, no transaction has been opened, and the call
    has sent one or two statements, each a COUNT or a SELECT. *)
Theorem retrieval_changes_nothing op filters st r st' :
  retrieve op filters st = (r, st') ->
  db st' = db st /\
  current_tenant (client st') = current_tenant (client st) /\
  (txn (client st) = None -> txn (client st') = None) /\
  exists h, history (client st') = history (client st) ++ h /\
            1 <= List.length h <= 2 /\ Forall (fun e => reads (fst e) = true) h.
Proof.
  rewrite retrieve_unfold.
  destruct (count_sql op filters) as [[cs cp] ci], (page_sql op filters) as [[ps pp] pi].
  intros H. apply count_then_page_frame in H.
  destruct H as (D & T & N & _ & H). auto.
Qed.




(** ** Ties

    [ORDER BY created_at DESC] leaves the order of rows with the same
    [created_at] to the store, which may choose differently for each
    statement.  Without such rows there is nothing to choose. *)







End ReadFacts.

(* ===================================================================== *)
(** * Retrieval: what each WHERE clause selects *)
(* ===================================================================== *)

Section SelectFacts.
Context {P : Platform}.

Lemma bind_where_app params a : forall b p,
  bind_where params (a ++ b) = Some p ->
  exists pa pb, bind_where params a = Some pa /\ bind_where params b = Some pb /\
                forall r, p r = pa r && pb r.
Proof.
  induction a as [|c a IH]; simpl; intros b p H.
  - exists (fun _ => true), p. auto.
  - destruct (bind_cond params c) as [q|]; [|discriminate].
    destruct (bind_where params (a ++ b)) as [p'|] eqn:E; [|discriminate].
    inv H. destruct (IH _ _ E) as (pa & pb & -> & Hb & Hp).
    exists (fun r => q r && pa r), pb. split; [reflexivity|]. split; [exact Hb|].
    intros r. rewrite Hp, andb_assoc. reflexivity.
Qed.

Lemma bind_cond_last params x col op :
  bind_cond (params ++ [x]) (cond col op (S (List.length params))) =
  bind_cond [x] (cond col op 1).
Proof.
  unfold bind_cond, cond. simpl c_ph. simpl c_cmp. simpl c_col.
  assert (E : param_at (params ++ [x]) (S (List.length params)) = Some x).
  { simpl. rewrite nth_error_app2 by lia. rewrite Nat.sub_diag. reflexivity. }
  rewrite E. reflexivity.
Qed.

Lemma means_and_if cc b col op x acc phi psi :
  tenant_first cc acc -> means acc phi ->
  (b = true -> forall q, bind_cond [x] (cond col op 1) = Some q ->
                forall r, q r = true <-> psi r) ->
  (b = false -> forall r, psi r) ->
  means (and_if b col op x acc) (fun r => phi r /\ psi r).
Proof.
  destruct acc as [[sql params] idx]. unfold means, and_if, tenant_first.
  intros (_ & -> & F) M Ht Hf. destruct b.
  - intros p H r. apply bind_where_app in H.
    destruct H as (pa & pb & Ha & Hb & Hp).
    rewrite (bind_where_more _ _ _ F) in Ha.
    simpl in Hb. rewrite bind_cond_last in Hb.
    destruct (bind_cond [x] (cond col op 1)) as [q|] eqn:Q; [|discriminate]. inv Hb.
    rewrite Hp, andb_true_r, andb_true_iff, (M _ Ha r), (Ht eq_refl _ eq_refl r). tauto.
  - intros p H r. rewrite (M _ H r). specialize (Hf eq_refl r). tauto.
Qed.

Lemma means_tenant cc :
  means ([cond c_comp_code OpEq 1], [PText cc], 2) (fun r => comp_code r = cc).
Proof.
  unfold means. simpl. intros p H r. unfold bind_cond in H. simpl in H.
  destruct (has_nul cc); simpl in H; [discriminate|]. inv H.
  unfold text_is. simpl. rewrite andb_true_r. apply String.eqb_eq.
Qed.

Lemma text_is_true col s r :
  text_is col s r = true <-> text_column col r = Some (Some s).
Proof.
  unfold text_is. destruct (text_column col r) as [[x|]|]; split; intros H; try discriminate.
  - apply String.eqb_eq in H. subst. reflexivity.
  - inv H. apply String.eqb_refl.
Qed.

(** A mandatory equality conjunct, [col = $n] with [text_param e] bound. *)
Lemma asks_mandatory col e q :
  bind_cond [text_param e] (cond col OpEq 1) = Some q ->
  forall r, q r = true <-> exists s, e = Some s /\ text_column col r = Some (Some s).
Proof.
  unfold bind_cond. simpl. destruct e as [s|]; simpl;
    destruct (is_text_column col); try destruct (has_nul s); simpl; intros H r; inv H.
  - rewrite text_is_true. split; [eauto|]. intros (s' & E & H). inv E. exact H.
  - split; [discriminate|]. intros (s' & E & _). discriminate.
Qed.

Lemma asks_text col x q :
  nonempty x = true ->
  bind_cond [text_param x] (cond col OpEq 1) = Some q ->
  forall r, q r = true <-> text_filter x (match text_column col r with
                                          | Some c => c
                                          | None => None
                                          end).
Proof.
  intros N H r. rewrite (asks_mandatory _ _ _ H r). unfold text_filter.
  destruct x as [s|]; [|discriminate]. split.
  - intros (s' & E & Hc) _. inv E. rewrite Hc. reflexivity.
  - intros Hc. specialize (Hc N). exists s. split; [reflexivity|].
    unfold bind_cond in H. simpl in H.
    destruct col; simpl in *; try discriminate; congruence.
Qed.

Lemma asks_function x q :
  truthy x = true ->
  bind_cond [val_param x] (cond c_source_function OpEq 1) = Some q ->
  forall r, q r = true <-> function_filter x r.
Proof.
  intros N H r. unfold function_filter. destruct x as [v|]; [|discriminate].
  unfold bind_cond in H. simpl in H.
  destruct (has_nul _); simpl in H; [discriminate|].
  inv H. rewrite text_is_true. simpl. split.
  - intros E _. exists v. split; [reflexivity|]. congruence.
  - intros E. destruct (E N) as (v' & Ev & Hs). inv Ev. congruence.
Qed.

Lemma asks_since x q :
  nonempty x = true ->
  bind_cond [date_param x] (cond c_created_at OpGe 1) = Some q ->
  forall r, q r = true <-> since x r.
Proof.
  intros N H r. unfold since. destruct x as [s|]; [|discriminate].
  unfold bind_cond in H. simpl in H.
  destruct (Date_parse s) as [t|] eqn:D; [|discriminate]. inv H. rewrite Z.leb_le. split.
  - intros L _. exists s, t. auto.
  - intros E. destruct (E N) as (s' & t' & Es & Dt & L). inv Es. congruence.
Qed.

Lemma asks_until x q :
  nonempty x = true ->
  bind_cond [date_param x] (cond c_created_at OpLe 1) = Some q ->
  forall r, q r = true <-> until x r.
Proof.
  intros N H r. unfold until. destruct x as [s|]; [|discriminate].
  unfold bind_cond in H. simpl in H.
  destruct (Date_parse s) as [t|] eqn:D; [|discriminate]. inv H. rewrite Z.leb_le. split.
  - intros L _. exists s, t. auto.
  - intros E. destruct (E N) as (s' & t' & Es & Dt & L). inv Es. congruence.
Qed.

Lemma asks_metadata x q :
  nonempty x = true ->
  bind_cond [text_param x] (cond c_metadata OpContains 1) = Some q ->
  forall r, q r = true <-> metadata_filter x r.
Proof.
  intros N H r. unfold metadata_filter. destruct x as [m|]; [|discriminate].
  unfold bind_cond in H. simpl in H.
  destruct (jsonb_in m) as [d|] eqn:D; [|discriminate]. inv H. split.
  - intros E _. destruct (metadata r) as [md|] eqn:Md; [|discriminate]. exists m, d, md. auto.
  - intros E. destruct (E N) as (m' & d' & md & Em & Dj & Md & C). inv Em.
    rewrite Md. congruence.
Qed.

Lemma vacuous_text x c : nonempty x = false -> text_filter x c.
Proof. unfold text_filter. congruence. Qed.
Lemma vacuous_since x r : nonempty x = false -> since x r.
Proof. unfold since. congruence. Qed.
Lemma vacuous_until x r : nonempty x = false -> until x r.
Proof. unfold until. congruence. Qed.
Lemma vacuous_function x r : truthy x = false -> function_filter x r.
Proof. unfold function_filter. congruence. Qed.
Lemma vacuous_metadata x r : nonempty x = false -> metadata_filter x r.
Proof. unfold metadata_filter. congruence. Qed.

Lemma means_user filters :
  means (user_page_sql filters)
    (fun r => ((comp_code r = f_comp_code filters /\
                exists s, f_emp_id filters = Some s /\ emp_id r = Some s) /\
               since (f_from filters) r) /\ until (f_to filters) r).
Proof.
  unfold user_page_sql. cbv zeta.
  eapply (means_and_if (f_comp_code filters));
    [repeat apply and_if_tenant_first; apply two_conds_tenant_first; reflexivity
    | | intros B q; apply asks_until; exact B | intros B r; apply vacuous_until; exact B].
  eapply (means_and_if (f_comp_code filters));
    [repeat apply and_if_tenant_first; apply two_conds_tenant_first; reflexivity
    | | intros B q; apply asks_since; exact B | intros B r; apply vacuous_since; exact B].
  change (means (and_if true c_emp_id OpEq (text_param (f_emp_id filters))
                   ([cond c_comp_code OpEq 1], [PText (f_comp_code filters)], 2))
            (fun r => comp_code r = f_comp_code filters /\
                      exists s, f_emp_id filters = Some s /\ emp_id r = Some s)).
  eapply (means_and_if (f_comp_code filters));
    [apply one_cond_tenant_first | apply means_tenant | | discriminate].
  intros _ q H r. rewrite (asks_mandatory _ _ _ H r). simpl.
  split; intros (s & E & C); exists s; split; congruence.
Qed.

Lemma means_app filters :
  means (app_page_sql filters)
    (fun r => (((comp_code r = f_comp_code filters /\
                 f_source_app filters = Some (source_app r)) /\
                function_filter (f_source_function filters) r) /\
               since (f_from filters) r) /\ until (f_to filters) r).
Proof.
  unfold app_page_sql. cbv zeta.
  eapply (means_and_if (f_comp_code filters));
    [repeat apply and_if_tenant_first; apply two_conds_tenant_first; reflexivity
    | | intros B q; apply asks_until; exact B | intros B r; apply vacuous_until; exact B].
  eapply (means_and_if (f_comp_code filters));
    [repeat apply and_if_tenant_first; apply two_conds_tenant_first; reflexivity
    | | intros B q; apply asks_since; exact B | intros B r; apply vacuous_since; exact B].
  eapply (means_and_if (f_comp_code filters));
    [repeat apply and_if_tenant_first; apply two_conds_tenant_first; reflexivity
    | | intros B q; apply asks_function; exact B | intros B r; apply vacuous_function; exact B].
  change (means (and_if true c_source_app OpEq (text_param (f_source_app filters))
                   ([cond c_comp_code OpEq 1], [PText (f_comp_code filters)], 2))
            (fun r => comp_code r = f_comp_code filters /\
                      f_source_app filters = Some (source_app r))).
  eapply (means_and_if (f_comp_code filters));
    [apply one_cond_tenant_first | apply means_tenant | | discriminate].
  intros _ q H r. rewrite (asks_mandatory _ _ _ H r). simpl. split.
  - intros (s & E & C). congruence.
  - intros E. exists (source_app r). auto.
Qed.

Lemma means_search filters :
  means (search_page_sql filters)
    (fun r => ((((((((comp_code r = f_comp_code filters /\
                      text_filter (f_source_app filters) (Some (source_app r))) /\
                     function_filter (f_source_function filters) r) /\
                    text_filter (f_reference_id filters) (reference_id r)) /\
                   text_filter (f_created_by filters) (Some (created_by r))) /\
                  text_filter (f_action filters) (Some (action r))) /\
                 since (f_from filters) r) /\ until (f_to filters) r) /\
               metadata_filter (f_metadata filters) r)).
Proof.
  unfold search_page_sql. cbv zeta.
  eapply (means_and_if (f_comp_code filters));
    [repeat apply and_if_tenant_first; apply one_cond_tenant_first
    | | intros B q; apply asks_metadata; exact B | intros B r; apply vacuous_metadata; exact B].
  eapply (means_and_if (f_comp_code filters));
    [repeat apply and_if_tenant_first; apply one_cond_tenant_first
    | | intros B q; apply asks_until; exact B | intros B r; apply vacuous_until; exact B].
  eapply (means_and_if (f_comp_code filters));
    [repeat apply and_if_tenant_first; apply one_cond_tenant_first
    | | intros B q; apply asks_since; exact B | intros B r; apply vacuous_since; exact B].
  eapply (means_and_if (f_comp_code filters));
    [repeat apply and_if_tenant_first; apply one_cond_tenant_first
    | | intros B q H; exact (asks_text c_action _ q B H)
    | intros B r; apply vacuous_text; exact B].
  eapply (means_and_if (f_comp_code filters));
    [repeat apply and_if_tenant_first; apply one_cond_tenant_first
    | | intros B q H; exact (asks_text c_created_by _ q B H)
    | intros B r; apply vacuous_text; exact B].
  eapply (means_and_if (f_comp_code filters));
    [repeat apply and_if_tenant_first; apply one_cond_tenant_first
    | | intros B q H; exact (asks_text c_reference_id _ q B H)
    | intros B r; apply vacuous_text; exact B].
  eapply (means_and_if (f_comp_code filters));
    [repeat apply and_if_tenant_first; apply one_cond_tenant_first
    | | intros B q; apply asks_function; exact B | intros B r; apply vacuous_function; exact B].
  eapply (means_and_if (f_comp_code filters));
    [apply one_cond_tenant_first | apply means_tenant
    | intros B q H; exact (asks_text c_source_app _ q B H)
    | intros B r; apply vacuous_text; exact B].
Qed.

Lemma matching_filter tn p rows :
  matching tn p rows = filter (fun r => tenant_isolation tn r && p r) rows.
Proof.
  unfold matching. induction rows as [|r rows IH]; simpl; [reflexivity|].
  destruct (tenant_isolation tn r); simpl; [|exact IH].
  destruct (p r); rewrite IH; reflexivity.
Qed.

(** A retrieval that returns: the rows it ranged over are those of the
    session's tenant that the statement's WHERE clause keeps. *)
Lemma retrieve_selects op filters phi st page st' :
  means (page_sql op filters) phi ->
  retrieve op filters st = (Ok page, st') ->
  exists tn keep,
    current_tenant (client st) = Some tn /\
    (forall r, keep r = true <-> comp_code r = tn /\ phi r) /\
    total_count page =
      Z.of_nat (List.length (filter keep (visible (db st) (client st)))) /\
    rows page =
      firstn (Z.to_nat (f_limit filters)) (skipn (Z.to_nat (f_offset filters))
        (order_by_created_at_desc (filter keep (visible (db st) (client st))))).
Proof.
  intros M H. apply retrieve_ok in H.
  destruct H as (conds & params & tn & p & S & _ & T & B & _ & _ & C & R & _).
  rewrite S in M. unfold means in M.
  exists tn, (fun r => tenant_isolation tn r && p r).
  split; [exact T|]. split.
  - intros r. rewrite andb_true_iff, (M _ B r). unfold tenant_isolation.
    rewrite String.eqb_eq. tauto.
  - rewrite <- matching_filter. auto.
Qed.

(** [getUserLogs], when it returns, has selected exactly the visible rows
    that belong to the session's tenant and to [filters.comp_code], whose
    [emp_id] is [filters.emp_id], and whose [created_at] lies in the closed
    range from [filters.from] to [filters.to] (each end only if given):
    [total_count] is their number and the page is cut from them in
    descending order of [created_at]. *)
Theorem getUserLogs_selects filters st page st' :
  getUserLogs filters st = (Ok page, st') ->
  exists tn keep,
    current_tenant (client st) = Some tn /\
    (forall r, keep r = true <->
       comp_code r = tn /\ comp_code r = f_comp_code filters /\
       (exists e, f_emp_id filters = Some e /\ emp_id r = Some e) /\
       since (f_from filters) r /\ until (f_to filters) r) /\
    total_count page =
      Z.of_nat (List.length (filter keep (visible (db st) (client st)))) /\
    rows page =
      firstn (Z.to_nat (f_limit filters)) (skipn (Z.to_nat (f_offset filters))
        (order_by_created_at_desc (filter keep (visible (db st) (client st))))).
Proof.
  intros H.
  destruct (retrieve_selects ByEmployee _ _ _ _ _ (means_user filters) H)
    as (tn & keep & T & K & C & R).
  exists tn, keep. split; [exact T|]. split; [|auto].
  intros r. rewrite (K r). tauto.
Qed.

(** [getAppLogs], when it returns, has selected exactly the visible rows of
    the session's tenant and of [filters.comp_code] whose [source_app] is
    [filters.source_app], whose [source_function] is
    [filters.source_function] when that is truthy, and whose [created_at]
    lies in the given range. *)
Theorem getAppLogs_selects filters st page st' :
  getAppLogs filters st = (Ok page, st') ->
  exists tn keep,
    current_tenant (client st) = Some tn /\
    (forall r, keep r = true <->
       comp_code r = tn /\ comp_code r = f_comp_code filters /\
       f_source_app filters = Some (source_app r) /\
       function_filter (f_source_function filters) r /\
       since (f_from filters) r /\ until (f_to filters) r) /\
    total_count page =
      Z.of_nat (List.length (filter keep (visible (db st) (client st)))) /\
    rows page =
      firstn (Z.to_nat (f_limit filters)) (skipn (Z.to_nat (f_offset filters))
        (order_by_created_at_desc (filter keep (visible (db st) (client st))))).
Proof.
  intros H.
  destruct (retrieve_selects ByApplication _ _ _ _ _ (means_app filters) H)
    as (tn & keep & T & K & C & R).
  exists tn, keep. split; [exact T|]. split; [|auto].
  intros r. rewrite (K r). tauto.
Qed.

(** [searchLogs], when it returns, has selected exactly the visible rows of
    the session's tenant and of [filters.comp_code] that satisfy every
    filter that was supplied non-empty: equality on [source_app],
    [source_function], [reference_id], [created_by] and [action], the time
    range, and containment of the [metadata] filter's JSON document.  A
    filter that is absent or empty asks nothing. *)
Theorem searchLogs_selects filters st page st' :
  searchLogs filters st = (Ok page, st') ->
  exists tn keep,
    current_tenant (client st) = Some tn /\
    (forall r, keep r = true <->
       comp_code r = tn /\ comp_code r = f_comp_code filters /\
       text_filter (f_source_app filters) (Some (source_app r)) /\
       function_filter (f_source_function filters) r /\
       text_filter (f_reference_id filters) (reference_id r) /\
       text_filter (f_created_by filters) (Some (created_by r)) /\
       text_filter (f_action filters) (Some (action r)) /\
       since (f_from filters) r /\ until (f_to filters) r /\
       metadata_filter (f_metadata filters) r) /\
    total_count page =
      Z.of_nat (List.length (filter keep (visible (db st) (client st)))) /\
    rows page =
      firstn (Z.to_nat (f_limit filters)) (skipn (Z.to_nat (f_offset filters))
        (order_by_created_at_desc (filter keep (visible (db st) (client st))))).
Proof.
  intros H.
  destruct (retrieve_selects Search _ _ _ _ _ (means_search filters) H)
    as (tn & keep & T & K & C & R).
  exists tn, keep. split; [exact T|]. split; [|auto].
  intros r. rewrite (K r). tauto.
Qed.

End SelectFacts.

(* ===================================================================== *)
(** * The gate: credentials, tenant setup, the pool *)
(* ===================================================================== *)

Section GateFacts.
Context {P : Platform}.

Lemma auth_inv keys req cc :
  auth keys req = inr cc ->
  claimed_comp_code req = Some cc /\ truthy (Some cc) = true /\
  exists key, x_api_key req = Some key /\ key <> "" /\
              lookup_key (property_key cc) keys = Some key.
Proof.
  unfold auth, claimed_comp_code. intros H.
  destruct (match method req with
            | GET => get "comp_code" (req_query req)
            | POST => body_get "comp_code" (req_body req)
            | OtherMethod => None
            end) as [c|] eqn:C; [|discriminate].
  destruct (negb (truthy (Some c))) eqn:T; [discriminate|].
  destruct (x_api_key req) as [k|]; [|discriminate].
  destruct (lookup_key (property_key c) keys) as [e|] eqn:L; [|discriminate].
  destruct (negb (k =? "") && (e =? k)) eqn:E; [|discriminate].
  inv H. apply andb_true_iff in E. destruct E as [E1 E2].
  apply negb_true_iff in E1. apply String.eqb_neq in E1. apply String.eqb_eq in E2. subst e.
  apply negb_false_iff in T.
  split; [reflexivity|]. split; [exact T|]. exists k. auto.
Qed.

Lemma auth_falsy keys req :
  truthy (claimed_comp_code req) = false ->
  auth keys req = inl {| status := 400; payload := comp_code_required |}.
Proof.
  unfold auth, claimed_comp_code. intros H.
  destruct (match method req with
            | GET => get "comp_code" (req_query req)
            | POST => body_get "comp_code" (req_body req)
            | OtherMethod => None
            end) as [c|] eqn:C; [|reflexivity].
  rewrite H. reflexivity.
Qed.


Lemma refused_untouched srv req resp :
  auth (apiKeys srv) req = inl resp ->
  response (serve srv req) = Some resp /\ untouched srv (serve srv req).
Proof.
  intros A. rewrite (serve_refused _ _ _ A). unfold untouched. simpl. auto 10.
Qed.


(** [auth] reads [comp_code] from the body of a POST and from the query of
    a GET only.  When what it reads is missing or falsy (an empty string,
    [null], [0], [false]), and for every other method whatever the request
    carries, the answer is 400 "comp_code is required", credentials are not
    looked at, and store, pool and environment are as they were. *)
Theorem missing_comp_code_is_refused_untouched srv req :
  truthy (claimed_comp_code req) = false ->
  response (serve srv req) = Some {| status := 400; payload := comp_code_required |} /\
  untouched srv (serve srv req).
Proof.
  intros H. apply refused_untouched. apply auth_falsy. exact H.
Qed.

Lemma bind_tenant_not_string cc st :
  (forall s, cc <> JStr s) -> bind_tenant cc st = (Throw TypeError, st).
Proof.
  intros N. unfold bind_tenant, bind, throw.
  destruct cc; try reflexivity. exfalso. apply (N s). reflexivity.
Qed.

(** [auth] lets through any truthy [comp_code] whose property key has the
    presented key: a number in a JSON body, an array in a query string.
    [tenantContext] then calls [.replace] on it, which only strings have:
    the TypeError is caught, the session that was just acquired is released
    untouched (no statement was sent), and the answer is 500 "Tenant setup
    failed", whatever the route and the rest of the request. *)
Theorem non_string_tenant_fails_setup srv req cc c0 r1 :
  auth (apiKeys srv) req = inr cc -> (forall s, cc <> JStr s) ->
  getClient (start srv) = (Some c0, r1) ->
  response (serve srv req) = Some {| status := 500; payload := setup_failed |} /\
  r_store (serve srv req) = store srv /\
  dbClient (serve srv req) = Some c0 /\
  releases (serve srv req) = 1 /\
  r_pool (serve srv req) = {| idle := idle (r_pool r1) ++ [c0]; total := total (r_pool r1) |}.
Proof.
  intros A N G.
  destruct (start_holding _ _ _ G) as (H & S1 & _).
  assert (B : call (bind_tenant cc) c0 r1 = (Throw TypeError, r1)).
  { unfold call. rewrite (bind_tenant_not_string _ _ N). simpl.
    destruct H as (D & R & Rs & L & T). destruct r1. simpl in *. subst. reflexivity. }
  destruct (serve_setup_failed _ _ _ _ _ _ _ A G B) as (c2 & D & E).
  assert (c2 = c0) by (destruct H as (D0 & _); congruence). subst c2.
  rewrite E. simpl. auto.
Qed.

Lemma getClient_total r x r1 :
  getClient r = (x, r1) ->
  total (r_pool r1) = total (r_pool r) \/
  idle (r_pool r) = [] /\ total (r_pool r) < pool_max /\ total (r_pool r1) = S (total (r_pool r)).
Proof.
  unfold getClient. destruct (idle (r_pool r)) as [|c rest] eqn:I.
  - destruct (total (r_pool r) <? pool_max)%nat eqn:L.
    + apply Nat.ltb_lt in L. destruct (fault_at _ _); intros H; inv H; simpl; auto.
    + intros H; inv H. auto.
  - intros H; inv H. simpl. auto.
Qed.

(** The pool after a request, whatever the request: as it was; or with the
    session the request took back at the end of the idle list; or, when the
    caller had gone, still without that session. *)
Lemma serve_pool srv req :
  r_pool (serve srv req) = pool srv \/
  exists c0 r1,
    getClient (start srv) = (Some c0, r1) /\
    (r_pool (serve srv req) = r_pool r1 \/
     exists c, r_pool (serve srv req) =
                 {| idle := idle (r_pool r1) ++ [c]; total := total (r_pool r1) |}).
Proof.
  destruct (admission srv req).
  - left. rewrite (serve_refused _ _ _ A). reflexivity.
  - left. destruct (serve_unserved _ _ _ _ A G) as (-> & _ & _ & _ & _ & _ & Po). exact Po.
  - right. destruct (serve_setup_failed _ _ _ _ _ _ _ A G B) as (c2 & D & ->). simpl.
    destruct (start_holding _ _ _ G) as (H & _).
    destruct (bound_holding _ _ _ _ _ H B) as (_ & _ & Po).
    exists c0, r1. split; [exact G|]. right. exists c2. rewrite Po. reflexivity.
  - right. destruct (bound_request_ends _ _ _ _ _ _ A G B) as (r3 & resp & c3 & D3 & P3 & ->).
    exists c0, r1. split; [exact G|].
    destruct (caller_gone (world srv)).
    + left. exact P3.
    + right. exists c3. unfold finished. simpl. rewrite D3, P3. reflexivity.
Qed.

(** The pool keeps its bound: if it holds at most [max] (20) connections,
    no more of them idle than exist, then so it does after any request; a
    request opens at most one connection, and only when none is idle and
    fewer than [max] exist; it closes none. *)
Theorem pool_stays_within_max srv req :
  total (pool srv) <= pool_max ->
  List.length (idle (pool srv)) <= total (pool srv) ->
  total (r_pool (serve srv req)) <= pool_max /\
  List.length (idle (r_pool (serve srv req))) <= total (r_pool (serve srv req)) /\
  total (pool srv) <= total (r_pool (serve srv req)) <= S (total (pool srv)) /\
  (total (r_pool (serve srv req)) = S (total (pool srv)) -> idle (pool srv) = []).
Proof.
  intros M I. destruct (serve_pool srv req) as [->|(c0 & r1 & G & [->|(c & ->)])].
  - repeat split; auto. intros E. lia.
  - destruct (start_holding _ _ _ G) as (_ & _ & _ & N & _).
    destruct (getClient_total _ _ _ G) as [T|(E & L & T)]; simpl in T; rewrite T in *.
    + repeat split; auto; try lia.
    + simpl in E, L. rewrite E in *. simpl in *. repeat split; auto; try lia.
  - simpl. rewrite length_app. simpl.
    destruct (start_holding _ _ _ G) as (_ & _ & _ & N & _).
    destruct (getClient_total _ _ _ G) as [T|(E & L & T)]; simpl in T; rewrite T in *.
    + repeat split; auto; try lia.
    + simpl in E, L. rewrite E in *. simpl in *. repeat split; auto; try lia.
Qed.

End GateFacts.

(* ===================================================================== *)
(** * Validation: schemas against columns, rejected requests *)
(* ===================================================================== *)

Section SchemaFacts.
Context {P : Platform}.

Lemma z_string_valid lo hi v s :
  z_string lo hi v = Valid s ->
  v = Some (JStr s) /\ lo <= String.length s /\
  match hi with Some m => String.length s <= m | None => True end.
Proof.
  unfold z_string. destruct v as [[]|]; try discriminate.
  destruct (lo <=? String.length s0)%nat eqn:L; [|discriminate].
  destruct hi as [m|].
  - destruct (String.length s0 <=? m)%nat eqn:H; [|discriminate].
    simpl. intros E; inv E. apply Nat.leb_le in L, H. auto.
  - simpl. intros E; inv E. apply Nat.leb_le in L. auto.
Qed.

Lemma z_optional_string_valid lo hi v s :
  z_optional (z_string lo (Some hi)) v = Valid s ->
  fits hi s /\ v = option_map JStr s.
Proof.
  unfold z_optional. destruct v as [x|]; [|intros E; inv E; simpl; auto].
  destruct (z_string lo (Some hi) (Some x)) as [a|] eqn:Z; [|discriminate].
  intros E; inv E. apply z_string_valid in Z. destruct Z as (-> & _ & H). simpl. auto.
Qed.

Lemma parse_all_valid {A} (schema : option jsval -> parsed A) l : forall r,
  parse_all schema l = Valid r ->
  Forall2 (fun x a => schema (Some x) = Valid a) l r.
Proof.
  induction l as [|x l IH]; simpl; intros r H.
  - inv H. constructor.
  - destruct (schema (Some x)) as [a|] eqn:S; [|discriminate].
    destruct (parse_all schema l) as [r'|]; [|discriminate].
    inv H. constructor; auto.
Qed.

Lemma parse_all_invalid {A} (schema : option jsval -> parsed A) l e :
  In e l -> schema (Some e) = ZodError -> parse_all schema l = ZodError.
Proof.
  induction l as [|x l IH]; simpl; [tauto|].
  intros [->|H] Z.
  - rewrite Z. reflexivity.
  - rewrite (IH H Z). destruct (schema (Some x)); reflexivity.
Qed.

Lemma logSchema_valid v log :
  logSchema v = Valid log ->
  exists o, v = Some (JObj o) /\
    fits 50 (l_emp_id log) /\ fits 100 (l_process_id log) /\
    String.length (l_source_app log) <= 100 /\ fits 150 (l_source_function log) /\
    fits 150 (l_reference_id log) /\ String.length (l_action log) <= 100 /\
    get "process_id" o = option_map JStr (l_process_id log) /\
    l_metadata log = metadata_schema (get "metadata" o).
Proof.
  unfold logSchema. destruct v as [[]|]; try discriminate.
  destruct (strict log_keys fields); [|discriminate].
  destruct (z_optional (z_string 0 (Some 50)) (get "emp_id" fields)) as [emp|] eqn:E1;
    [|discriminate].
  destruct (z_optional (z_string 0 (Some 100)) (get "process_id" fields)) as [pid|] eqn:E2;
    [|discriminate].
  destruct (z_string 0 (Some 100) (get "source_app" fields)) as [app|] eqn:E3; [|discriminate].
  destruct (z_optional (z_string 0 (Some 150)) (get "source_function" fields)) as [fn|] eqn:E4;
    [|discriminate].
  destruct (z_optional (z_string 0 (Some 150)) (get "reference_id" fields)) as [ref|] eqn:E5;
    [|discriminate].
  destruct (z_string 0 (Some 100) (get "action" fields)) as [act|] eqn:E6; [|discriminate].
  destruct (z_optional (z_string 0 None) (get "description" fields)) as [descr|]; [|discriminate].
  destruct (z_optional z_datetime (get "created_at" fields)) as [at_|]; [|discriminate].
  intros H; inv H. simpl.
  apply z_optional_string_valid in E1, E2, E4, E5.
  apply z_string_valid in E3, E6.
  exists fields. intuition.
Qed.

Lemma batchSchema_valid body payload :
  batchSchema body = Valid payload ->
  exists entries,
    body_get "comp_code" body = Some (JStr (p_comp_code payload)) /\
    1 <= String.length (p_comp_code payload) <= 50 /\
    fits 20 (p_app_version payload) /\
    String.length (p_created_by payload) <= 50 /\
    (body_get "created_by" body = None -> p_created_by payload = "SYSTEM") /\
    body_get "logs" body = Some (JArr entries) /\
    1 <= List.length entries <= 1000 /\
    Forall2 (fun x log => logSchema (Some x) = Valid log) entries (logs payload).
Proof.
  unfold batchSchema, body_get. destruct body; try discriminate.
  destruct (strict batch_keys fields); [|discriminate].
  destruct (z_string 1 (Some 50) (get "comp_code" fields)) as [cc|] eqn:E1; [|discriminate].
  destruct (z_optional (z_string 0 (Some 20)) (get "app_version" fields)) as [ver|] eqn:E2;
    [|discriminate].
  destruct (z_default "SYSTEM" (z_string 0 (Some 50)) (get "created_by" fields)) as [by_|] eqn:E3;
    [|discriminate].
  destruct (z_array logSchema 1 1000 (get "logs" fields)) as [ls|] eqn:E4; [|discriminate].
  intros H; inv H. simpl.
  apply z_string_valid in E1. destruct E1 as (E1 & L1 & H1).
  apply z_optional_string_valid in E2. destruct E2 as (E2 & _).
  unfold z_array in E4. destruct (get "logs" fields) as [[]|] eqn:G; try discriminate.
  destruct ((1 <=? List.length items)%nat && (List.length items <=? 1000)%nat) eqn:B;
    [|discriminate].
  apply andb_true_iff in B. destruct B as [B1 B2]. apply Nat.leb_le in B1, B2.
  apply parse_all_valid in E4.
  exists items. repeat split; auto.
  - unfold z_default in E3. destruct (get "created_by" fields) as [x|].
    + apply z_string_valid in E3. simpl in E3. apply E3.
    + inv E3. simpl. lia.
  - intros N. unfold z_default in E3. rewrite N in E3. inv E3. reflexivity.
Qed.

Lemma or_null_fits n s : fits n s -> varchar_null n (or_null s) = Some (or_null s).
Proof.
  unfold or_null, varchar_null, fits. destruct s as [s|]; simpl; [|reflexivity].
  destruct (negb (s =? "")); [|reflexivity].
  intros H. rewrite (varchar_fits _ _ H). reflexivity.
Qed.

Lemma metadata_schema_truthy v : truthy (Some (metadata_schema v)) = true.
Proof.
  unfold metadata_schema. destruct v as [[]|]; try reflexivity.
  destruct (JSON_parse s) as [[]|]; reflexivity.
Qed.

Lemma validated_metadata_bound v log payload bid pid at_ :
  logSchema v = Valid log ->
  v_metadata (values_of payload bid log pid at_) = JSON_stringify (l_metadata log).
Proof.
  intros H. apply logSchema_valid in H.
  destruct H as (o & _ & _ & _ & _ & _ & _ & _ & _ & M).
  unfold values_of. cbn [v_metadata]. rewrite M, metadata_schema_truthy. reflexivity.
Qed.

(** What [logSchema] makes of [metadata]: always an object or an array,
    never a scalar and never absent, so [storeBatchLogs] always binds
    [JSON.stringify(log.metadata)] and its ['{}'] alternative is never
    taken.  An array can only come from a string that holds the JSON text of
    an array; an array given directly is replaced by the empty object. *)
Theorem validated_metadata_is_an_object entry log payload bid pid at_ :
  logSchema (Some entry) = Valid log ->
  truthy (Some (l_metadata log)) = true /\
  v_metadata (values_of payload bid log pid at_) = JSON_stringify (l_metadata log) /\
  ((exists o, l_metadata log = JObj o) \/
   exists l s, l_metadata log = JArr l /\ body_get "metadata" entry = Some (JStr s) /\
               JSON_parse s = Some (JArr l)) /\
  (forall l, body_get "metadata" entry = Some (JArr l) -> l_metadata log = JObj []).
Proof.
  intros H. apply logSchema_valid in H.
  destruct H as (o & E & _ & _ & _ & _ & _ & _ & _ & M). inv E. simpl body_get.
  assert (T : truthy (Some (l_metadata log)) = true /\
              ((exists o', l_metadata log = JObj o') \/
               exists l s, l_metadata log = JArr l /\ get "metadata" o = Some (JStr s) /\
                           JSON_parse s = Some (JArr l))).
  { rewrite M. unfold metadata_schema.
    destruct (get "metadata" o) as [[]|]; simpl; try solve [split; [reflexivity|left; eauto]].
    destruct (JSON_parse s) as [[]|] eqn:J; simpl; try solve [split; [reflexivity|left; eauto]].
    split; [reflexivity|]. right. eauto. }
  destruct T as [T O]. split; [exact T|]. split.
  - unfold values_of. cbn [v_metadata]. rewrite T. reflexivity.
  - split; [exact O|]. intros l G. rewrite M, G. reflexivity.
Qed.

(** The widths the schemas allow are the widths of the columns
    (migrations/001_initial-schema.js): for an entry of a validated batch
    no value is too long for its column and none is cut.  What the schemas
    do not look for is U+0000, which the store takes in no text: an entry
    with it in one of its text values, or in one of the payload's, is
    refused.  That apart, with a [process_id] and a batch id of at most 100
    characters, a timestamp, and metadata text the store accepts, the row
    that is inserted holds the validated values as they are; optional
    fields that are absent or empty are stored as NULL. *)
Theorem validated_entry_fits_columns body payload log bid pid at_ md i :
  batchSchema body = Valid payload -> In log (logs payload) ->
  String.length pid <= 100 \/ l_process_id log = Some pid ->
  String.length bid <= 100 ->
  jsonb_in (JSON_stringify (l_metadata log)) = Some md ->
  coerce_row i (values_of payload bid log pid (Some at_)) =
    if sendable (values_of payload bid log pid (Some at_)) then
      Some {| id := i; process_id := pid; comp_code := p_comp_code payload;
              emp_id := or_null (l_emp_id log); source_app := l_source_app log;
              source_function := or_null (l_source_function log);
              reference_id := or_null (l_reference_id log); action := l_action log;
              description := or_null (l_description log); metadata := Some md;
              created_by := p_created_by payload; created_at := at_;
              app_version := or_null (p_app_version payload); batch_id := Some bid |}
    else None.
Proof.
  intros V Hin Hp Hb Hm. apply batchSchema_valid in V.
  destruct V as (entries & _ & (_ & Lc) & Lv & Lb & _ & _ & _ & F).
  assert (exists x, logSchema (Some x) = Valid log) as (x & Lx).
  { clear -F Hin. induction F as [|x l xs ls H F IH]; [destruct Hin|].
    destruct Hin as [->|Hin]; eauto. }
  pose proof (validated_metadata_bound _ _ payload bid pid (Some at_) Lx) as Md.
  apply logSchema_valid in Lx.
  destruct Lx as (o & _ & F1 & F2 & F3 & F4 & F5 & F6 & _ & _).
  assert (Lp : String.length pid <= 100).
  { destruct Hp as [Hp|Hp]; [exact Hp|]. rewrite Hp in F2. exact F2. }
  unfold coerce_row.
  destruct (sendable (values_of payload bid log pid (Some at_))); [|reflexivity].
  rewrite Md.
  cbn [values_of v_process_id v_comp_code v_emp_id v_source_app v_source_function
       v_reference_id v_action v_description v_created_by v_created_at v_app_version
       v_batch_id].
  rewrite (varchar_fits _ _ Lp), (varchar_fits _ _ Lc), (or_null_fits _ _ F1),
    (varchar_fits _ _ F3), (or_null_fits _ _ F4), (or_null_fits _ _ F5),
    (varchar_fits _ _ F6), Hm, (varchar_fits _ _ Lb), (or_null_fits _ _ Lv),
    (varchar_fits _ _ Hb).
  reflexivity.
Qed.

(** What the router does to a request it answers at once, seen from
    outside: nothing is stored and the answer, if any, is the router's, or
    one of those made before the router runs. *)
Lemma serve_answered srv req code b :
  (forall r, router req r = respond code b r) ->
  r_store (serve srv req) = store srv /\
  (forall cc c0 r1 r2,
     auth (apiKeys srv) req = inr cc -> getClient (start srv) = (Some c0, r1) ->
     call (bind_tenant cc) c0 r1 = (Ok tt, r2) ->
     response (serve srv req) = Some {| status := code; payload := b |}) /\
  (forall resp, response (serve srv req) = Some resp ->
     resp = {| status := code; payload := b |} \/
     status resp = 400 \/ status resp = 401 \/ status resp = 500).
Proof.
  intros Rt. destruct (admission srv req).
  - rewrite (serve_refused _ _ _ A). simpl.
    split; [reflexivity|]. split; [intros; congruence|].
    intros resp0 H; inv H. destruct (auth_refusal _ _ _ A); auto.
  - destruct (serve_unserved _ _ _ _ A G) as (-> & Rs & D & _ & _ & St & _).
    split; [exact St|]. split; [intros; congruence|].
    rewrite Rs. discriminate.
  - destruct (serve_setup_failed _ _ _ _ _ _ _ A G B) as (c2 & D & ->). simpl.
    destruct (bound_untouched _ _ _ _ _ _ G B) as (St & _).
    split; [exact St|]. split; [intros; congruence|].
    intros resp H; inv H; simpl; auto.
  - destruct (serve_bound _ _ _ _ _ _ A G B) as (-> & c2 & H2).
    destruct (bound_untouched _ _ _ _ _ _ G B) as (St & _).
    rewrite Rt, (loop_respond _ _ _ _ H2). unfold ended. simpl.
    split; [exact St|]. split; [reflexivity|].
    intros resp H; inv H; simpl; auto.
Qed.

Lemma batchSchema_logs_invalid body entries :
  body_get "logs" body = Some (JArr entries) ->
  parse_all logSchema entries = ZodError \/ entries = [] ->
  batchSchema body = ZodError.
Proof.
  unfold body_get, batchSchema. destruct body; try discriminate. intros G H.
  rewrite G. unfold z_array.
  assert (E : (if (1 <=? List.length entries)%nat && (List.length entries <=? 1000)%nat
               then parse_all logSchema entries else ZodError) = ZodError).
  { destruct H as [H| ->]; [rewrite H; destruct (_ && _); reflexivity|reflexivity]. }
  rewrite E. repeat (break_match; try discriminate); reflexivity.
Qed.

(** Validation of a batch is all or nothing: if any one entry fails
    [logSchema] (a missing [action], a field too long, a key the schema does
    not list), the whole batch is rejected with 400 "Validation failed", the
    service is not called and nothing is stored, the valid entries
    included. *)
Theorem one_invalid_entry_rejects_batch srv req entries e :
  method req = POST -> route req = LogsBatch ->
  body_get "logs" (req_body req) = Some (JArr entries) ->
  In e entries -> logSchema (Some e) = ZodError ->
  batchSchema (req_body req) = ZodError /\
  r_store (serve srv req) = store srv /\
  (forall cc c0 r1 r2,
     auth (apiKeys srv) req = inr cc -> getClient (start srv) = (Some c0, r1) ->
     call (bind_tenant cc) c0 r1 = (Ok tt, r2) ->
     response (serve srv req) = Some {| status := 400; payload := validation_failed |}) /\
  (forall resp, response (serve srv req) = Some resp ->
     status resp = 400 \/ status resp = 401 \/ status resp = 500).
Proof.
  intros M R G Hin Z.
  assert (B : batchSchema (req_body req) = ZodError).
  { apply (batchSchema_logs_invalid _ _ G). left. apply (parse_all_invalid _ _ _ Hin Z). }
  assert (Rt : forall r, router req r = respond 400 validation_failed r).
  { intros r. unfold router, post_logs_batch. rewrite M, R, B. reflexivity. }
  destruct (serve_answered srv _ _ _ Rt) as (S1 & S2 & S3).
  split; [exact B|]. split; [exact S1|]. split; [exact S2|].
  intros resp H. destruct (S3 resp H) as [->|H']; auto.
Qed.

(** A batch with an empty [logs] array is rejected with 400 "Validation
    failed" ([.min(1)]): the service is not called, no transaction is
    opened, nothing is stored. *)
Theorem empty_batch_rejected srv req :
  method req = POST -> route req = LogsBatch ->
  body_get "logs" (req_body req) = Some (JArr []) ->
  batchSchema (req_body req) = ZodError /\
  r_store (serve srv req) = store srv /\
  (forall cc c0 r1 r2,
     auth (apiKeys srv) req = inr cc -> getClient (start srv) = (Some c0, r1) ->
     call (bind_tenant cc) c0 r1 = (Ok tt, r2) ->
     response (serve srv req) = Some {| status := 400; payload := validation_failed |}) /\
  (forall resp, response (serve srv req) = Some resp ->
     status resp = 400 \/ status resp = 401 \/ status resp = 500).
Proof.
  intros M R G.
  assert (B : batchSchema (req_body req) = ZodError).
  { apply (batchSchema_logs_invalid _ _ G). right. reflexivity. }
  assert (Rt : forall r, router req r = respond 400 validation_failed r).
  { intros r. unfold router, post_logs_batch. rewrite M, R, B. reflexivity. }
  destruct (serve_answered srv _ _ _ Rt) as (S1 & S2 & S3).
  split; [exact B|]. split; [exact S1|]. split; [exact S2|].
  intros resp H. destruct (S3 resp H) as [->|H']; auto.
Qed.

(** The query schemas are strict: a parameter they do not list is an
    error, it is not ignored.  On the by-employee and by-application routes
    any parameter other than [comp_code], [limit], [offset], [from], [to],
    and on the search route any parameter other than those and the six
    search filters, gets 400 "Invalid query parameters" and no query is
    run. *)
Theorem unknown_parameter_rejected srv req k v :
  method req = GET ->
  get k (req_query req) = Some v ->
  match route req with
  | LogsUser _ | LogsApp _ => existsb (String.eqb k) query_keys = false
  | LogsSearch => existsb (String.eqb k) search_keys = false
  | _ => False
  end ->
  r_store (serve srv req) = store srv /\
  (forall cc c0 r1 r2,
     auth (apiKeys srv) req = inr cc -> getClient (start srv) = (Some c0, r1) ->
     call (bind_tenant cc) c0 r1 = (Ok tt, r2) ->
     response (serve srv req) = Some {| status := 400; payload := invalid_query |}) /\
  (forall resp, response (serve srv req) = Some resp ->
     status resp = 400 \/ status resp = 401 \/ status resp = 500).
Proof.
  intros M G K.
  assert (Rt : forall r, router req r = respond 400 invalid_query r).
  { intros r. unfold router. rewrite M.
    destruct (route req) as [|emp|app| | |]; try contradiction.
    - unfold get_logs_user, querySchema. rewrite (strict_unknown _ _ _ _ G K). reflexivity.
    - unfold get_logs_app, querySchema. rewrite (strict_unknown _ _ _ _ G K). reflexivity.
    - unfold get_logs_search, searchSchema. rewrite (strict_unknown _ _ _ _ G K). reflexivity. }
  destruct (serve_answered srv _ _ _ Rt) as (S1 & S2 & S3).
  split; [exact S1|]. split; [exact S2|].
  intros resp H. destruct (S3 resp H) as [->|H']; auto.
Qed.

End SchemaFacts.

(* ===================================================================== *)
(** * Answers: pages and stored batches through the HTTP surface *)
(* ===================================================================== *)

Section HandlerFacts.
Context {P : Platform}.

Lemma query_bind_txn s st r st' :
  binds_tenant s = true -> query s st = (r, st') ->
  txn (client st) = None -> txn (client st') = None.
Proof.
  unfold query, exec, attempt, fail_in_txn. intros Hb H N.
  destruct s; try discriminate; simpl in H;
    repeat (break_match; try discriminate); inv_pairs; simpl; rewrite ?N in *;
    try congruence; try reflexivity.
Qed.

Lemma bind_tenant_txn cc st res st' :
  bind_tenant cc st = (res, st') -> txn (client st) = None -> txn (client st') = None.
Proof.
  unfold bind_tenant, bind, ret, throw.
  destruct cc; try solve [intros H; inv H; auto].
  destruct (query (SRaw (bind_statement s)) st) as [[x|e] st1] eqn:Q1.
  - destruct (query SShowTenant st1) as [[y|e] st2] eqn:Q2; intros H N; inv H;
      apply (query_bind_txn SShowTenant _ _ _ eq_refl Q2);
      apply (query_bind_txn (SRaw (bind_statement s)) _ _ _ eq_refl Q1); exact N.
  - intros H N; inv H. apply (query_bind_txn (SRaw (bind_statement s)) _ _ _ eq_refl Q1); exact N.
Qed.

Lemma query_fields_given q v :
  query_fields q = Valid v ->
  (forall x, get "limit" q = Some x -> js_Number x = Some (q_limit v)) /\
  (forall x, get "offset" q = Some x -> js_Number x = Some (q_offset v)).
Proof.
  unfold query_fields. intros H.
  destruct (z_string 1 (Some 50) (get "comp_code" q)); [|discriminate].
  destruct (z_default 50%Z (z_coerce_int 1 (Some 200%Z)) (get "limit" q)) as [l|] eqn:L;
    [|discriminate].
  destruct (z_default 0%Z (z_coerce_int 0 None) (get "offset" q)) as [o|] eqn:O; [|discriminate].
  destruct (z_optional z_datetime (get "from" q)); [|discriminate].
  destruct (z_optional z_datetime (get "to" q)); [|discriminate].
  inv H. simpl. unfold z_default, z_coerce_int in *. split; intros x G.
  - rewrite G in L. destruct (js_Number x); [|discriminate].
    destruct (_ && _); [|discriminate]. congruence.
  - rewrite G in O. destruct (js_Number x); [|discriminate].
    destruct (_ && _); [|discriminate]. congruence.
Qed.

Lemma searchSchema_query_fields q f :
  searchSchema q = Valid f ->
  exists v, query_fields q = Valid v /\ f_limit f = q_limit v /\ f_offset f = q_offset v.
Proof.
  unfold searchSchema. destruct (strict search_keys q); [|discriminate].
  destruct (query_fields q) as [v|]; [|discriminate].
  intros H. repeat (break_match; try discriminate). inv H. exists v. auto.
Qed.

Lemma routed_query_fields req op filters :
  match op with
  | ByEmployee => exists emp v, route req = LogsUser emp /\
                    querySchema (req_query req) = Valid v /\
                    filters = filters_of v (Some emp) None None
  | ByApplication => exists app v, route req = LogsApp app /\
                    querySchema (req_query req) = Valid v /\
                    filters = filters_of v None (Some app)
                                (get "source_function" (req_query req))
  | Search => route req = LogsSearch /\
              searchSchema (req_query req) = Valid filters
  end ->
  exists v, query_fields (req_query req) = Valid v /\
            f_limit filters = q_limit v /\ f_offset filters = q_offset v.
Proof.
  intros V. destruct op.
  - destruct V as (emp & v & _ & Q & ->). unfold querySchema in Q.
    destruct (strict query_keys (req_query req)); [|discriminate]. exists v. auto.
  - destruct V as (app & v & _ & Q & ->). unfold querySchema in Q.
    destruct (strict query_keys (req_query req)); [|discriminate]. exists v. auto.
  - destruct V as (_ & Q). apply searchSchema_query_fields. exact Q.
Qed.

(** Every page answer is consistent with the request that asked for it: it
    is the answer to a GET; [total_returned] is the number of rows in
    [data], which is at most [limit]; [limit] and [offset] are the numbers
    the query string gave (within 1..200 and from 0), or 50 and 0 when it
    gave none; the rows come in descending order of [created_at]. *)
Theorem page_answer_is_consistent srv req data total returned lim off :
  response (serve srv req) =
    Some {| status := 200; payload := PageOf data total returned lim off |} ->
  method req = GET /\
  returned = List.length data /\ (Z.of_nat returned <= lim)%Z /\
  (1 <= lim <= 200)%Z /\ (0 <= off)%Z /\ (0 <= total)%Z /\
  (get "limit" (req_query req) = None -> lim = 50%Z) /\
  (get "offset" (req_query req) = None -> off = 0%Z) /\
  (forall x, get "limit" (req_query req) = Some x -> js_Number x = Some lim) /\
  (forall x, get "offset" (req_query req) = Some x -> js_Number x = Some off) /\
  descending data.
Proof.
  intros H. destruct (admission srv req).
  - rewrite (serve_refused _ _ _ A) in H. simpl in H. inv H.
    destruct (auth_refusal _ _ _ A); discriminate.
  - destruct (serve_unserved _ _ _ _ A G) as (E & Rs & _). rewrite E in H. congruence.
  - destruct (serve_setup_failed _ _ _ _ _ _ _ A G B) as (c2 & D & E).
    rewrite E in H. discriminate.
  - destruct (serve_bound _ _ _ _ _ _ A G B) as (E & c2 & H2).
    rewrite E in H. clear E.
    assert (D2 : dbClient r2 = Some c2) by apply H2.
    destruct (routed req r2 _ D2).
    + rewrite E, (loop_respond _ _ _ _ H2) in H. simpl in H. inv H.
      destruct N; discriminate.
    + rewrite E, (loop_store _ _ _ H2) in H. simpl in H.
      destruct (fst (call (storeBatchLogs validated) c2 r2)); discriminate.
    + rewrite E, (loop_query _ _ _ _ H2) in H. simpl in H.
      destruct (call (retrieve op filters) c2 r2) as [res r3] eqn:C.
      apply call_frame in C. destruct C as (st & C & _).
      destruct res as [p|e]; [|discriminate]. simpl in H. inv H.
      destruct (routed_query_fields req op filters V) as (v & Q & L & O).
      destruct (query_fields_bounds _ _ Q) as (B1 & B2 & B3 & B4).
      destruct (query_fields_given _ _ Q) as (G1 & G2).
      apply retrieve_ok in C.
      destruct C as (conds & params & tn & p0 & _ & _ & _ & _ & L0 & _ & Tc & Rw & _).
      rewrite L, O in *.
      split; [exact Hm|]. split; [reflexivity|]. split.
      { rewrite Rw.
        match goal with |- context [firstn ?n ?l] => pose proof (firstn_le_length n l) end.
        lia. }
      split; [exact B1|]. split; [exact B2|]. split; [rewrite Tc; lia|].
      split; [exact B3|]. split; [exact B4|]. split; [exact G1|]. split; [exact G2|].
      rewrite Rw. apply descending_firstn, descending_skipn, order_sorted.
Qed.

(** The write side of tenant isolation, through the HTTP surface.  When a
    batch request is answered 201 (and the sessions in the pool had no
    transaction left open), the table has only grown: the rows it had are
    there in place, and every row added carries the [comp_code] of the
    request body, which is the tenant whose key the request presented and
    the tenant the session was bound to; it carries the batch id of the
    answer; at most one row per entry was added, and [total_received] is the
    number of entries submitted. *)
Theorem stored_rows_belong_to_tenant srv req msg n bid :
  Forall (fun c => txn c = None) (idle (pool srv)) ->
  response (serve srv req) = Some {| status := 201; payload := Stored msg n bid |} ->
  exists A entries new,
    body_get "comp_code" (req_body req) = Some (JStr A) /\
    auth (apiKeys srv) req = inr (JStr A) /\
    body_get "logs" (req_body req) = Some (JArr entries) /\
    n = List.length entries /\
    table (r_store (serve srv req)) = table (store srv) ++ new /\
    List.length new <= n /\
    Forall (fun r => comp_code r = A /\ batch_id r = Some bid) new.
Proof.
  intros Idle H. destruct (admission srv req).
  - rewrite (serve_refused _ _ _ A) in H. simpl in H. inv H.
    destruct (auth_refusal _ _ _ A); discriminate.
  - destruct (serve_unserved _ _ _ _ A G) as (E & Rs & _). rewrite E in H. congruence.
  - destruct (serve_setup_failed _ _ _ _ _ _ _ A G B) as (c2 & D & E).
    rewrite E in H. discriminate.
  - destruct (serve_bound _ _ _ _ _ _ A G B) as (E & c2 & H2).
    rewrite E in *. clear E.
    assert (D2 : dbClient r2 = Some c2) by apply H2.
    destruct (bound_untouched _ _ _ _ _ _ G B) as (St & _ & _ & I0 & _).
    assert (T0 : txn c0 = None).
    { destruct I0 as [I0| ->]; [|reflexivity]. rewrite Forall_forall in Idle. auto. }
    apply call_frame in B. destruct B as (stb & B & St2 & _ & D2' & _).
    pose proof (bind_tenant_txn _ _ _ _ B T0) as T2.
    apply bind_tenant_ok in B. destruct B as (s & -> & Tn).
    assert (c2 = client stb) by congruence. subst c2.
    destruct (routed req r2 _ D2).
    + rewrite E, (loop_respond _ _ _ _ H2) in H. simpl in H. inv H.
      destruct N; discriminate.
    + rewrite E, (loop_store _ _ _ H2) in *. simpl in H.
      destruct (call (storeBatchLogs validated) (client stb) r2) as [res r3] eqn:C.
      apply call_frame in C. destruct C as (st & C & S3 & _).
      destruct res as [result|e]; [|discriminate]. simpl in H. inv H.
      pose proof (storeBatchLogs_ok_total _ _ _ _ C) as Tot.
      assert (Bid : r_batch_id result =
                    make_batch_id (time_at (r_env r2) (n_time (r_env r2)))
                                  (uuid_at (r_env r2) (n_uuid (r_env r2)))).
      { apply storeBatchLogs_ok_steps in C. cbv zeta in C.
        destruct C as (_ & _ & _ & _ & _ & _ & _ & ->). reflexivity. }
      apply storeBatchLogs_ok_rows in C; [|exact T2].
      destruct C as (new & Tb & _ & _ & L & _ & R). simpl in Tb, R.
      pose proof (batchSchema_valid _ _ V) as (entries & Cc & (_ & Lc) & _ & _ & _ & Lg & _ & F).
      pose proof (auth_inv _ _ _ A) as (Cl & _).
      unfold claimed_comp_code in Cl. rewrite Hm in Cl.
      assert (s = p_comp_code validated) by congruence. subst s.
      exists (p_comp_code validated), entries, new.
      split; [exact Cc|]. split; [exact A|]. split; [exact Lg|].
      rewrite Tot. split; [symmetry; eapply Forall2_length; exact F|].
      unfold ended. simpl. rewrite S3, Tb, St. split; [reflexivity|].
      split; [exact L|].
      eapply Forall_impl; [|exact R].
      intros r (_ & _ & Vc & _ & (b & Vb & Eb) & _).
      rewrite (varchar_fits _ _ Lc) in Vc. inv Vc.
      rewrite Bid in Vb. rewrite batch_id_fits in Vb. inv Vb. rewrite Bid. auto.
    + rewrite E, (loop_query _ _ _ _ H2) in H. simpl in H.
      destruct (fst (call (retrieve op filters) (client stb) r2)); discriminate.
Qed.

End HandlerFacts.

Section AnswerFacts.
Context {P : Platform}.



End AnswerFacts.

Section SafeMethods.
Context {P : Platform}.

Lemma retrieve_db op filters st r st' :
  retrieve op filters st = (r, st') -> db st' = db st.
Proof.
  rewrite retrieve_unfold.
  destruct (count_sql op filters) as [[cs cp] ci], (page_sql op filters) as [[ps pp] pi].
  intros H. apply count_then_page_frame in H. apply H.
Qed.

(** Only a batch upload can change the store.  A request that is not a
    POST to [/logs/batch] leaves the table and its sequence exactly as they
    were, whatever it asks and however it ends: refused by [auth], failed in
    the tenant setup, rejected by validation, not found, served a page, or
    failed in the store. *)
Theorem only_a_batch_changes_the_store srv req :
  method req <> POST \/ route req <> LogsBatch ->
  r_store (serve srv req) = store srv.
Proof.
  intros N. destruct (admission srv req).
  - rewrite (serve_refused _ _ _ A). reflexivity.
  - destruct (serve_unserved _ _ _ _ A G) as (-> & _ & _ & _ & _ & St & _). exact St.
  - destruct (serve_setup_failed _ _ _ _ _ _ _ A G B) as (c2 & D & ->). simpl.
    destruct (bound_untouched _ _ _ _ _ _ G B) as (St & _). exact St.
  - destruct (serve_bound _ _ _ _ _ _ A G B) as (-> & c2 & H2).
    destruct (bound_untouched _ _ _ _ _ _ G B) as (St & _).
    assert (D2 : dbClient r2 = Some c2) by apply H2.
    destruct (routed req r2 _ D2).
    + rewrite E, (loop_respond _ _ _ _ H2). unfold ended. simpl. exact St.
    + exfalso. destruct N as [N|N]; congruence.
    + rewrite E, (loop_query _ _ _ _ H2).
      destruct (call (retrieve op filters) c2 r2) as [res r3] eqn:C.
      apply call_frame in C. destruct C as (st & C & S3 & _).
      apply retrieve_db in C. simpl in C.
      unfold ended. simpl. rewrite S3, C. exact St.
Qed.

End SafeMethods.

(* ===================================================================== *)
(** * The offline client *)
(* ===================================================================== *)

Section ClientFacts.
Context {P : Platform}.
Import Client.

Lemma get_set_prop_same k v o : get k (set_prop k v o) = Some v.
Proof.
  induction o as [|[k' v'] o IH]; simpl.
  - rewrite String.eqb_refl. reflexivity.
  - destruct (String.eqb k k') eqn:E; simpl; rewrite ?String.eqb_refl, ?E; auto.
Qed.

Lemma get_set_prop_other k k' v o : k <> k' -> get k' (set_prop k v o) = get k' o.
Proof.
  intros N. induction o as [|[k0 v0] o IH]; simpl.
  - destruct (String.eqb k' k) eqn:E; [|reflexivity].
    apply String.eqb_eq in E. congruence.
  - destruct (String.eqb k k0) eqn:E; simpl.
    + apply String.eqb_eq in E. subst k0.
      destruct (String.eqb k' k) eqn:E'; [|reflexivity].
      apply String.eqb_eq in E'. congruence.
    + destruct (String.eqb k' k0); [reflexivity|exact IH].
Qed.

Lemma process_id_of_string event e v e' :
  process_id_of event e = (v, e') -> string_keyed event -> exists s, v = JStr s.
Proof.
  unfold process_id_of, string_keyed.
  destruct (get "process_id" event) as [x|] eqn:G.
  - destruct (truthy (Some x)) eqn:T; intros H K; inv H; [|eauto].
    destruct v; try congruence. eauto.
  - intros H _; inv H. eauto.
Qed.

Lemma logEntry_string event e entry e' :
  logEntry event e = (entry, e') -> string_keyed event ->
  exists s, get "process_id" entry = Some (JStr s).
Proof.
  unfold logEntry. destruct (process_id_of event e) as [pid e1] eqn:Pi.
  destruct (created_at_of event e1) as [at_ e2]. intros H K. inv H.
  destruct (process_id_of_string _ _ _ _ Pi K) as (s & ->). exists s.
  rewrite get_set_prop_other by discriminate. apply get_set_prop_same.
Qed.

Lemma sync_consistent c : consistent c -> consistent (sync c).
Proof.
  unfold consistent, sync. intros (L & S & F).
  destruct (List.length (queue (logger c)) =? 0)%nat eqn:E; simpl;
    [split; [exact L|split; [exact S|exact F]]|].
  destruct (isSyncing (logger c)) eqn:I; simpl;
    [split; [exact L|split; [rewrite I; exact S|exact F]]|].
  assert (N : suspended c = []).
  { destruct (suspended c) as [|b l] eqn:X; [reflexivity|].
    assert (false = true) by (apply S; discriminate). discriminate. }
  rewrite N. simpl. split; [lia|]. split; [split; [discriminate|reflexivity]|].
  constructor; [|constructor]. split.
  - intros Q. rewrite Q in E. discriminate.
  - exists []. rewrite app_nil_r. reflexivity.
Qed.

Lemma log_consistent event c : consistent c -> consistent (log event c).
Proof.
  unfold log. destruct (logEntry event (device c)) as [entry e]. intros (L & S & F).
  apply sync_consistent. unfold consistent. simpl. split; [exact L|]. split; [exact S|].
  eapply Forall_impl; [|exact F]. intros b (N & rest & Q). split; [exact N|].
  exists (rest ++ [entry]). rewrite Q, app_assoc. reflexivity.
Qed.

Lemma settle_consistent i o c : consistent c -> consistent (settle i o c).
Proof.
  unfold settle. intros (L & S & F).
  destruct (nth_error (suspended c) i) as [batch|] eqn:N; [|unfold consistent; auto].
  destruct (suspended c) as [|b [|b' l]] eqn:X; simpl in L; try lia.
  - destruct i; discriminate.
  - destruct i as [|i]; [|destruct i; discriminate]. simpl in N. inv N.
    unfold consistent. simpl. split; [lia|]. split; [|constructor].
    unfold resume. split; [|congruence].
    destruct o as [[[]|]|]; simpl; discriminate.
Qed.

Lemma run_consistent evs : forall c, consistent c -> consistent (run evs c).
Proof.
  unfold run. induction evs as [|ev evs IH]; simpl; intros c H; [exact H|].
  apply IH. destruct ev; simpl.
  - apply log_consistent; exact H.
  - apply sync_consistent; exact H.
  - apply settle_consistent; exact H.
Qed.

Lemma fresh_consistent u k e : consistent (fresh u k e).
Proof.
  unfold consistent, fresh. simpl. split; [lia|]. split; [|constructor].
  split; [discriminate|congruence].
Qed.

(** The client never has two requests in flight.  After any sequence of
    [log] and [forceSync] calls and of request outcomes, starting from a new
    logger: at most one [sync] is suspended at its [await]; [isSyncing] is
    set exactly while one is; the batch that call holds is not empty and is
    still the front of the queue, whatever was logged since; and while it is
    so, [log] and [forceSync] post nothing ([log] only queues). *)
Theorem at_most_one_sync_in_flight evs u k e :
  let c := run evs (fresh u k e) in
  List.length (suspended c) <= 1 /\
  (isSyncing (logger c) = true <-> suspended c <> []) /\
  Forall (fun batch => batch <> [] /\ exists rest, queue (logger c) = batch ++ rest)
         (suspended c) /\
  (isSyncing (logger c) = true ->
   posted (forceSync c) = posted c /\
   forall event, posted (log event c) = posted c /\
                 List.length (queue (logger (log event c))) = S (List.length (queue (logger c)))).
Proof.
  intros c. destruct (run_consistent evs _ (fresh_consistent u k e)) as (L & S & F).
  fold c in L, S, F. split; [exact L|]. split; [exact S|]. split; [exact F|].
  intros I. split.
  - unfold forceSync, sync. rewrite I, orb_true_r. reflexivity.
  - intros event. unfold log. destruct (logEntry event (device c)) as [entry e'].
    unfold sync. simpl. rewrite I, orb_true_r. simpl. rewrite length_app. simpl.
    split; [reflexivity|lia].
Qed.

(** A sync that fails loses nothing.  When the request of the suspended
    [sync] is rejected (or resolves without data), the queue is exactly what
    it was, entries logged meanwhile included, and the flag is cleared; the
    next [forceSync] posts the whole queue, which begins with the entries of
    the failed batch, unchanged and in the same order, so with the same
    [process_id]s. *)
Theorem failed_sync_keeps_queue evs u k e batch o :
  let c := run evs (fresh u k e) in
  suspended c = [batch] ->
  o = Rejected \/ o = Resolved None \/ o = Resolved (Some JNull) ->
  let c1 := settle 0 o c in
  queue (logger c1) = queue (logger c) /\
  isSyncing (logger c1) = false /\ suspended c1 = [] /\
  exists rest p,
    queue (logger c) = batch ++ rest /\
    suspended (forceSync c1) = [batch ++ rest] /\
    posted (forceSync c1) = posted c ++ [p] /\
    logs_of p = Some (JArr (map JObj (batch ++ rest))).
Proof.
  intros c Hs Ho c1.
  destruct (run_consistent evs _ (fresh_consistent u k e)) as (_ & _ & F).
  fold c in F. rewrite Hs in F. inversion F as [|? ? (N & rest & Q) _]; subst.
  assert (E1 : c1 = {| logger := with_isSyncing false (logger c); suspended := [];
                       posted := posted c; device := device c |}).
  { unfold c1, settle. rewrite Hs. simpl. unfold resume.
    destruct Ho as [->|[->| ->]]; reflexivity. }
  rewrite E1. simpl. split; [reflexivity|]. split; [reflexivity|]. split; [reflexivity|].
  unfold forceSync, sync. simpl. rewrite Q.
  destruct batch as [|b batch]; [congruence|]. simpl.
  exists rest. eexists. split; [reflexivity|]. split; [reflexivity|]. split; reflexivity.
Qed.

Lemma sync_queue c : queue (logger (sync c)) = queue (logger c).
Proof.
  unfold sync. destruct (_ || _); reflexivity.
Qed.

Lemma run_string_keyed evs : forall c,
  Forall (fun ev => match ev with Log event => string_keyed event | _ => True end) evs ->
  string_keyed_queue c -> string_keyed_queue (run evs c).
Proof.
  unfold run. induction evs as [|ev evs IH]; simpl; intros c H K; [exact K|].
  inversion H as [|? ? Hev Hevs]; subst. apply IH; [exact Hevs|].
  unfold string_keyed_queue in *. destruct ev; simpl.
  - unfold log. destruct (logEntry event (device c)) as [entry e'] eqn:LE.
    rewrite sync_queue. simpl. apply Forall_app. split; [exact K|].
    constructor; [|constructor]. eapply logEntry_string; eauto.
  - unfold forceSync. rewrite sync_queue. exact K.
  - unfold settle. destruct (nth_error (suspended c) i); [|exact K].
    simpl. unfold resume. destruct o as [[[]|]|]; simpl; auto;
      apply Forall_forall; intros x Hx; apply filter_In in Hx;
      rewrite Forall_forall in K; apply K; apply Hx.
Qed.

Lemma not_sent_iff batch entry s :
  get "process_id" entry = Some (JStr s) ->
  Forall (fun b => exists s', get "process_id" b = Some (JStr s')) batch ->
  (not_sent batch entry = true <-> ~ In (get "process_id" entry) (map (get "process_id") batch)).
Proof.
  intros G F. unfold not_sent. rewrite negb_true_iff. rewrite G. split.
  - intros X Hin. apply in_map_iff in Hin. destruct Hin as (b & Eb & Hb).
    assert (existsb (fun b0 => strict_equal (get "process_id" b0) (Some (JStr s))) batch = true).
    { apply existsb_exists. exists b. split; [exact Hb|]. rewrite Eb. simpl. apply String.eqb_refl. }
    congruence.
  - intros N. destruct (existsb _ batch) eqn:X; [|reflexivity]. exfalso. apply N.
    apply existsb_exists in X. destruct X as (b & Hb & E).
    rewrite Forall_forall in F. destruct (F b Hb) as (s' & Gb). rewrite Gb in E. simpl in E.
    apply String.eqb_eq in E. subst s'. apply in_map_iff. exists b. auto.
Qed.

(** A sync that succeeds removes what it sent and nothing else.  With
    events whose [process_id], when they bring one, is a string: when the
    request of the suspended [sync] resolves, the flag is cleared and the
    queue keeps, in order, exactly the entries logged after the batch was
    taken whose [process_id] is not the [process_id] of a sent entry; no
    entry of the batch remains. *)
Theorem successful_sync_clears_sent evs u k e batch d :
  Forall (fun ev => match ev with Log event => string_keyed event | _ => True end) evs ->
  let c := run evs (fresh u k e) in
  suspended c = [batch] -> d <> JNull ->
  let c1 := settle 0 (Resolved (Some d)) c in
  isSyncing (logger c1) = false /\ suspended c1 = [] /\
  exists rest,
    queue (logger c) = batch ++ rest /\
    queue (logger c1) = filter (not_sent batch) rest /\
    (forall entry, In entry (queue (logger c1)) <->
       In entry rest /\ ~ In (get "process_id" entry) (map (get "process_id") batch)).
Proof.
  intros Hk c Hs Hd c1.
  destruct (run_consistent evs _ (fresh_consistent u k e)) as (_ & _ & F).
  fold c in F. rewrite Hs in F. inversion F as [|? ? (N & rest & Q) _]; subst.
  assert (K : string_keyed_queue c).
  { apply run_string_keyed; [exact Hk|]. unfold string_keyed_queue. simpl. constructor. }
  unfold string_keyed_queue in K. rewrite Q in K. apply Forall_app in K. destruct K as [Kb Kr].
  assert (E1 : queue (logger c1) = filter (not_sent batch) (queue (logger c)) /\
               isSyncing (logger c1) = false /\ suspended c1 = []).
  { unfold c1, settle. rewrite Hs. simpl. unfold resume.
    destruct d; try congruence; simpl; auto. }
  destruct E1 as (E1 & E2 & E3). split; [exact E2|]. split; [exact E3|].
  exists rest. split; [exact Q|].
  assert (Fb : filter (not_sent batch) batch = []).
  { assert (G : forall l, incl l batch -> filter (not_sent batch) l = []).
    { induction l as [|x l IH]; simpl; intros I; [reflexivity|].
      assert (Hx : In x batch) by (apply I; left; reflexivity).
      rewrite Forall_forall in Kb. destruct (Kb x Hx) as (s & Gs).
      destruct (not_sent batch x) eqn:X.
      - apply (not_sent_iff _ _ _ Gs) in X; [|apply Forall_forall; exact Kb].
        exfalso. apply X. apply in_map. exact Hx.
      - apply IH. intros y Hy. apply I. right. exact Hy. }
    apply G. apply incl_refl. }
  assert (E : queue (logger c1) = filter (not_sent batch) rest).
  { rewrite E1, Q, filter_app, Fb. reflexivity. }
  split; [exact E|].
  intros entry. rewrite E, filter_In. split.
  - intros (Hin & X). split; [exact Hin|].
    rewrite Forall_forall in Kr. destruct (Kr entry Hin) as (s & Gs).
    apply (not_sent_iff _ _ _ Gs Kb). exact X.
  - intros (Hin & X). split; [exact Hin|].
    rewrite Forall_forall in Kr. destruct (Kr entry Hin) as (s & Gs).
    apply (not_sent_iff _ _ _ Gs Kb). exact X.
Qed.

End ClientFacts.

Section EntryFacts.
Context {P : Platform}.
Import Client.

Lemma process_id_of_spec event e :
  (truthy (get "process_id" event) = true ->
   process_id_of event e =
     (match get "process_id" event with Some v => v | None => JNull end, e)) /\
  (truthy (get "process_id" event) = false ->
   fst (process_id_of event e) = JStr (uuid_at e (n_uuid e))).
Proof.
  unfold process_id_of. destruct (get "process_id" event) as [v|] eqn:G.
  - destruct (truthy (Some v)) eqn:T; split; intros H; try discriminate; reflexivity.
  - split; intros H; [discriminate|reflexivity].
Qed.

(** [log] queues the event as it is: the new entry comes last in the queue;
    it has every property of the event with the event's value, except that
    [process_id] and [created_at] are filled in when the event has none (or
    a falsy one): [process_id] with the next uuid, [created_at] with the
    ISO text of the clock.  A [process_id] or [created_at] the event brings
    is kept. *)
Theorem log_queues_the_event event c :
  let entry := fst (logEntry event (device c)) in
  queue (logger (log event c)) = queue (logger c) ++ [entry] /\
  (forall k, k <> "process_id" -> k <> "created_at" -> get k entry = get k event) /\
  (truthy (get "process_id" event) = true ->
   get "process_id" entry = get "process_id" event) /\
  (truthy (get "process_id" event) = false ->
   get "process_id" entry = Some (JStr (uuid_at (device c) (n_uuid (device c))))) /\
  (truthy (get "created_at" event) = true ->
   get "created_at" entry = get "created_at" event) /\
  (truthy (get "created_at" event) = false ->
   exists t, get "created_at" entry = Some (JStr (toISOString t))).
Proof.
  intros entry. split.
  { unfold log. subst entry. destruct (logEntry event (device c)) as [en e'].
    rewrite sync_queue. reflexivity. }
  subst entry. unfold logEntry.
  destruct (process_id_of event (device c)) as [pid e1] eqn:Pi.
  destruct (created_at_of event e1) as [at_ e2] eqn:Ca. simpl.
  split.
  { intros k N1 N2. rewrite !get_set_prop_other by congruence. reflexivity. }
  rewrite get_set_prop_other by discriminate. rewrite !get_set_prop_same.
  destruct (process_id_of_spec event (device c)) as [P1 P2]. rewrite Pi in P1, P2.
  split.
  { intros T. specialize (P1 T). inv P1.
    destruct (get "process_id" event); [reflexivity|discriminate]. }
  split.
  { intros T. specialize (P2 T). simpl in P2. congruence. }
  unfold created_at_of in Ca. split.
  - intros T. destruct (get "created_at" event) as [v|]; [|discriminate].
    rewrite T in Ca. inv Ca. reflexivity.
  - intros T. destruct (get "created_at" event) as [v|].
    + rewrite T in Ca. inv Ca. eauto.
    + inv Ca. eauto.
Qed.

End EntryFacts.

(* ===================================================================== *)
(** * The client against the server *)
(* ===================================================================== *)

Section RoundTrip.
Context {P : Platform}.
Import Client.

Lemma failed_round_logger c :
  isSyncing (logger c) = false -> suspended c = [] ->
  logger (failed_round c) = logger c /\ suspended (failed_round c) = [].
Proof.
  intros I S. unfold failed_round, forceSync, sync. rewrite I, orb_false_r.
  destruct (List.length (queue (logger c)) =? 0)%nat.
  - unfold settle. rewrite S. simpl. auto.
  - unfold settle. simpl. rewrite S. simpl. split; [|reflexivity].
    unfold resume, with_isSyncing. simpl. destruct (logger c). simpl in *. subst. reflexivity.
Qed.

(** An entry the server's schema rejects is never cleared and blocks every
    entry behind it.  Once the client is idle with such an entry in its
    queue (an event with a property [logSchema] does not list, a field too
    long, no [action]), the batch [forceSync] posts contains it; whatever
    server state the request meets, the answer is 400, 401 or 500, never a
    2xx, and nothing is stored; and after the rejection the logger is
    exactly as before the round, so every later round goes the same way. *)
Theorem invalid_entry_blocks_the_queue evs u k e entry srv n :
  let c := run evs (fresh u k e) in
  isSyncing (logger c) = false ->
  In entry (queue (logger c)) ->
  logSchema (Some (JObj entry)) = ZodError ->
  logger (Nat.iter n failed_round c) = logger c /\
  exists p,
    posted (forceSync (Nat.iter n failed_round c)) =
      posted (Nat.iter n failed_round c) ++ [p] /\
    logs_of p = Some (JArr (map JObj (queue (logger c)))) /\
    batchSchema (data p) = ZodError /\
    r_store (serve srv (request_of p)) = store srv /\
    (forall resp, response (serve srv (request_of p)) = Some resp ->
       status resp = 400 \/ status resp = 401 \/ status resp = 500).
Proof.
  intros c I Hin Z.
  destruct (run_consistent evs _ (fresh_consistent u k e)) as (_ & S & _).
  fold c in S.
  assert (S0 : suspended c = []).
  { destruct (suspended c) as [|b l] eqn:X; [reflexivity|].
    assert (isSyncing (logger c) = true) by (apply S; discriminate). congruence. }
  assert (It : logger (Nat.iter n failed_round c) = logger c /\
               suspended (Nat.iter n failed_round c) = []).
  { induction n as [|n IH]; simpl; [auto|]. destruct IH as [IH1 IH2].
    destruct (failed_round_logger (Nat.iter n failed_round c)) as [E1 E2];
      [rewrite IH1; exact I|exact IH2|].
    split; [congruence|exact E2]. }
  destruct It as [E1 E2]. split; [exact E1|].
  set (cn := Nat.iter n failed_round c) in *.
  unfold forceSync, sync. rewrite E1, I, orb_false_r.
  destruct (queue (logger c)) as [|x q] eqn:Q; [destruct Hin|]. simpl.
  eexists. split; [reflexivity|]. split; [reflexivity|].
  assert (B : batchSchema (payload_of (x :: q)) = ZodError).
  { apply (batchSchema_logs_invalid _ (map JObj (x :: q))); [reflexivity|]. left.
    apply (parse_all_invalid _ _ (JObj entry)); [|exact Z].
    apply in_map. exact Hin. }
  split; [exact B|].
  match goal with |- context [request_of ?p] => set (req := request_of p) end.
  assert (Rt : forall r, router req r = respond 400 validation_failed r).
  { intros r. unfold router, post_logs_batch.
    change (method req) with POST. change (route req) with LogsBatch.
    change (req_body req) with (payload_of (x :: q)). rewrite B. reflexivity. }
  destruct (serve_answered srv _ _ _ Rt) as (S1 & _ & S3).
  split; [exact S1|].
  intros resp H. destruct (S3 resp H) as [->|H']; auto.
Qed.

End RoundTrip.

(* ===================================================================== *)
(** * Runs of the model on the reference platform *)
(* ===================================================================== *)

Section Runs.
#[local] Existing Instance Demo.platform.

Lemma total_received_counts_submitted_witness :
  let resent := {| r_batch_id := "BATCH_20260101_7d9f3a01"; total_received := 2 |} in
  let st' := snd (storeBatchLogs Demo.two_events Demo.state1) in
  storeBatchLogs Demo.two_events Demo.state1 = (Ok resent, st') /\
  total_received resent = 2 /\
  List.length (table (db st')) = List.length (table (db Demo.state1)).
Proof.
  intros resent st'.
  assert (E : storeBatchLogs Demo.two_events Demo.state1 = (Ok resent, st'))
    by (vm_compute; reflexivity).
  split; [exact E|]. split; [|vm_compute; reflexivity].
  transitivity (List.length (logs Demo.two_events)); [|vm_compute; reflexivity].
  exact (total_received_counts_submitted Demo.two_events Demo.state1 resent st' E).
Defined.


Lemma failed_entry_rolls_back_batch_witness :
  let st := {| db := store Demo.server; client := Demo.bound; env := Demo.failing 2 |} in
  let st' := snd (storeBatchLogs Demo.two_events st) in
  map snd (history (client st')) = [true; true; false; true] /\
  (exists e, fst (storeBatchLogs Demo.two_events st) = Throw e) /\
  table (db st') = [] /\ txn (client st') = None.
Proof.
  intros st st'. split; [vm_compute; reflexivity|].
  destruct (failed_entry_rolls_back_batch Demo.two_events st
              (fst (storeBatchLogs Demo.two_events st)) st' (history (client st')))
    as (T & E & _).
  - vm_compute; reflexivity.
  - reflexivity.
  - eexists. vm_compute. right. right. left. reflexivity.
  - split; [exact T|]. split; [exact E|]. vm_compute; reflexivity.
Defined.

Lemma pages_bounded_ordered_counted_witness :
  let X := retrieve Search Demo.all_of_tenant Demo.state1 in
  X = (Ok (Demo.value_of Demo.no_page (fst X)), snd X) /\
  List.length (rows (Demo.value_of Demo.no_page (fst X))) = 2 /\
  (Z.of_nat (List.length (rows (Demo.value_of Demo.no_page (fst X)))) <= 50)%Z /\
  descending (rows (Demo.value_of Demo.no_page (fst X))).
Proof.
  intros X.
  assert (E : X = (Ok (Demo.value_of Demo.no_page (fst X)), snd X)) by (vm_compute; reflexivity).
  split; [exact E|]. split; [vm_compute; reflexivity|].
  destruct (pages_bounded_ordered_counted [("comp_code", JStr "COMP001")]
              {| q_comp_code := "COMP001"; q_limit := 50; q_offset := 0;
                 q_from := None; q_to := None |}
              Search Demo.all_of_tenant Demo.state1 (Demo.value_of Demo.no_page (fst X)) (snd X))
    as (_ & _ & _ & _ & L & D & _).
  - vm_compute; reflexivity.
  - vm_compute; reflexivity.
  - vm_compute; reflexivity.
  - exact E.
  - split; [exact L|exact D].
Defined.

Lemma retrieval_rows_belong_to_tenant_witness :
  let X := retrieve Search Demo.all_of_tenant Demo.state1 in
  current_tenant (client Demo.state1) = Some "COMP001" /\
  List.length (rows (Demo.value_of Demo.no_page (fst X))) = 2 /\
  Forall (fun r => comp_code r = "COMP001") (rows (Demo.value_of Demo.no_page (fst X))).
Proof.
  intros X. split; [vm_compute; reflexivity|]. split; [vm_compute; reflexivity|].
  destruct (retrieval_rows_belong_to_tenant Search Demo.all_of_tenant Demo.state1
              (Demo.value_of Demo.no_page (fst X)) (snd X) "COMP001") as [F _].
  - vm_compute; reflexivity.
  - vm_compute; reflexivity.
  - rewrite Forall_forall in F |- *. intros r Hr. destruct (F r Hr) as [E _]. exact E.
Defined.

Lemma oversized_batch_rejected_witness :
  let req := Demo.batch_of "COMP001" (repeat Demo.check_in 1001) in
  1000 < List.length (repeat Demo.check_in 1001) /\
  batchSchema (req_body req) = ZodError /\
  r_store (serve Demo.server req) = store Demo.server /\
  response (serve Demo.server req) = Some {| status := 400; payload := validation_failed |}.
Proof.
  intros req.
  assert (L : 1000 < List.length (repeat Demo.check_in 1001)) by (rewrite repeat_length; lia).
  destruct (oversized_batch_rejected Demo.server req (repeat Demo.check_in 1001) eq_refl eq_refl eq_refl L)
    as (Z & _ & S & _).
  split; [exact L|]. split; [exact Z|]. split; [exact S|]. vm_compute; reflexivity.
Defined.

Lemma source_function_parameter_rejected_witness :
  let req := Demo.read (LogsApp "MOBILE_APP") [("source_function", JStr "CHECK_IN")] in
  get "source_function" (req_query req) = Some (JStr "CHECK_IN") /\
  querySchema (req_query req) = ZodError /\
  response (serve Demo.server1 req) = Some {| status := 400; payload := invalid_query |}.
Proof.
  intros req.
  destruct (source_function_parameter_rejected Demo.server1 req "MOBILE_APP" (JStr "CHECK_IN")
              eq_refl eq_refl eq_refl) as (Z & _ & _ & R & _).
  split; [reflexivity|]. split; [exact Z|].
  eapply R; vm_compute; reflexivity.
Defined.

Lemma invalid_metadata_fails_in_store_witness :
  let req := Demo.search_by_metadata "not json" in
  jsonb_in "not json" = None /\
  response (serve Demo.server1 req) =
    Some {| status := 500; payload := Message false "Query failed" |}.
Proof.
  intros req. split; [vm_compute; reflexivity|].
  destruct (invalid_metadata_fails_in_store Demo.server1 req [("comp_code", JStr "COMP001")]
              Demo.all_of_tenant "not json") as (f & _ & _ & _ & _ & _ & R & _).
  - vm_compute; reflexivity.
  - reflexivity.
  - discriminate.
  - vm_compute; reflexivity.
  - reflexivity.
  - reflexivity.
  - reflexivity.
  - eapply R; vm_compute; reflexivity.
Defined.

(** C10, as stated, fails for the empty string: it is not JSON, it passes
    validation, but [searchLogs] treats it as absent, no containment
    predicate is sent, and the request is answered 200. *)
Lemma empty_metadata_is_not_sent :
  let req := Demo.search_by_metadata "" in
  jsonb_in "" = None /\
  (exists f, searchSchema (req_query req) = Valid f /\ f_metadata f = Some "" /\
             fst (fst (search_count_sql f)) = [cond c_comp_code OpEq 1]) /\
  exists data, response (serve Demo.server1 req) =
                 Some {| status := 200; payload := PageOf data 2 2 50 0 |}.
Proof.
  intros req. split; [vm_compute; reflexivity|]. split.
  - eexists. split; [vm_compute; reflexivity|]. split; vm_compute; reflexivity.
  - eexists. vm_compute. reflexivity.
Qed.

(** The statements one search request sends, as text: the bind and its
    check, then the COUNT and the SELECT with the same WHERE clause.  (The
    session is the one the batch request used: its first six statements.) *)
Example statements_of_a_search :
  let device := Demo.stringify (JObj [("device", JStr "Android")]) in
  let r := serve Demo.server1 (Demo.search_by_metadata device) in
  option_map (fun c => skipn 6 (map (fun e => render (fst e)) (history c))) (dbClient r) =
    Some ["SET app.current_tenant = 'COMP001'";
          "SELECT current_setting('app.current_tenant') AS tenant";
          "SELECT COUNT(*) FROM tbl_audit_trail_logs WHERE comp_code = $1 AND metadata @> $2::jsonb";
          "SELECT * FROM tbl_audit_trail_logs WHERE comp_code = $1 AND metadata @> $2::jsonb ORDER BY created_at DESC LIMIT $3 OFFSET $4"] /\
  option_map status (response r) = Some 200.
Proof. vm_compute. auto. Qed.

(** [getAppLogs] with a function and both ends of the time range. *)
Example statements_of_getAppLogs :
  let filters :=
    filters_of {| q_comp_code := "COMP001"; q_limit := 10; q_offset := 20;
                  q_from := Some "2026-01-01T00:00:00Z"; q_to := Some "2026-02-01T00:00:00Z" |}
               None (Some "MOBILE_APP") (Some (JStr "CHECK_IN")) in
  let '(conds, params, idx) := app_page_sql filters in
  render (SSelect conds idx (S idx) (params ++ [PNum 10; PNum 20])) =
    "SELECT * FROM tbl_audit_trail_logs WHERE comp_code = $1 AND source_app = $2 AND source_function = $3 AND created_at >= $4 AND created_at <= $5 ORDER BY created_at DESC LIMIT $6 OFFSET $7" /\
  params = [PText "COMP001"; PText "MOBILE_APP"; PVal (JStr "CHECK_IN");
            PDate (Some 1767225600000%Z); PDate (Some 1769904000000%Z)].
Proof. vm_compute. auto. Qed.

(** The three exits of a request that held a session: stored, rejected by
    validation, failed in the store; one release each. *)
Lemma abandoned_request_keeps_session_witness :
  let srv := Demo.deserted Demo.server1 in
  let r := serve srv (Demo.read LogsSearch []) in
  option_map status (response r) = Some 200 /\
  List.length (idle (pool srv)) = 1 /\ total (pool srv) = 1 /\
  releases r = 0 /\ idle (r_pool r) = [] /\ total (r_pool r) = 1.
Proof.
  intros srv r.
  split; [vm_compute; reflexivity|]. split; [vm_compute; reflexivity|].
  split; [vm_compute; reflexivity|].
  set (c0 := hd fresh_session (idle (pool srv))).
  set (r1 := snd (getClient (start srv))).
  destruct (abandoned_request_keeps_session srv (Demo.read LogsSearch [])
              (JStr "COMP001") c0 r1 (snd (call (bind_tenant (JStr "COMP001")) c0 r1)))
    as (_ & _ & _ & N & _ & Po & _).
  - reflexivity.
  - vm_compute; reflexivity.
  - vm_compute; reflexivity.
  - vm_compute; reflexivity.
  - split; [exact N|]. fold r in Po. rewrite Po. split; vm_compute; reflexivity.
Defined.

(** Twenty requests abandoned by their callers take the twenty sessions the
    pool may open; the next request, whose caller waits, gets none and is
    never answered. *)
Example abandoned_requests_drain_the_pool :
  let abandon srv :=
    Demo.after (serve (Demo.deserted srv) (Demo.read LogsSearch [])) srv in
  let drained := Nat.iter 20 abandon Demo.server1 in
  let next := {| store := store drained; world := Demo.quiet; pool := pool drained;
                 apiKeys := apiKeys drained |} in
  (List.length (idle (pool drained)), total (pool drained)) = (0, pool_max) /\
  response (serve next (Demo.read LogsSearch [])) = None.
Proof. vm_compute. auto. Qed.

Example exits_release_once :
  let ok := serve Demo.server (Demo.batch_of "COMP001" [Demo.check_in; Demo.submit_leave]) in
  let invalid := serve Demo.server (Demo.batch_of "COMP001" []) in
  let failed := serve (Demo.after ok Demo.server) (Demo.search_by_metadata "not json") in
  (option_map status (response ok), releases ok) = (Some 201, 1) /\
  (option_map status (response invalid), releases invalid) = (Some 400, 1) /\
  (option_map status (response failed), releases failed) = (Some 500, 1).
Proof. vm_compute. auto. Qed.

End Runs.

(* ===================================================================== *)
(** * Further runs on the reference platform *)
(* ===================================================================== *)

Section FurtherRuns.
#[local] Existing Instance Demo.platform.

Lemma stored_batch_appends_tenant_rows_witness :
  let X := storeBatchLogs Demo.two_events Demo.state in
  exists new,
    table (db (snd X)) = table (db Demo.state) ++ new /\ List.length new <= 2 /\
    Forall (fun r => batch_id r = Some "BATCH_20260101_7d9f3a00") new.
Proof.
  intros X.
  destruct (stored_batch_appends_tenant_rows Demo.two_events Demo.state Demo.stored (snd X))
    as (new & T & L & F).
  - reflexivity.
  - vm_compute; reflexivity.
  - exists new. split; [exact T|].
    assert (E : List.length (logs Demo.two_events) = 2) by (vm_compute; reflexivity).
    rewrite E in L. split; [exact L|].
    eapply Forall_impl; [|exact F]. intros r (_ & _ & _ & B & _). exact B.
Defined.

Lemma process_id_stays_unique_witness :
  let X := storeBatchLogs Demo.two_events Demo.state in
  NoDup (map process_id (table (db (snd X)))) /\
  List.length (table (db (snd X))) = 2.
Proof.
  intros X. split; [|vm_compute; reflexivity].
  apply (process_id_stays_unique Demo.two_events Demo.state (fst X) (snd X)).
  - reflexivity.
  - constructor.
  - apply surjective_pairing.
Defined.

Lemma used_process_id_adds_no_row_witness :
  let st := {| db := db Demo.state1; client := Demo.bound_to "COMP002";
               env := env Demo.state1 |} in
  let X := storeBatchLogs Demo.foreign st in
  table (db (snd X)) = table (db Demo.state1) /\
  Forall (fun r => comp_code r = "COMP001") (table (db Demo.state1)) /\
  Demo.value_of Demo.no_result (fst X) =
    {| r_batch_id := "BATCH_20260101_7d9f3a01"; total_received := 1 |}.
Proof.
  intros st X.
  destruct (used_process_id_adds_no_row Demo.foreign st
              (Demo.value_of Demo.no_result (fst X)) (snd X)) as (T & _).
  - reflexivity.
  - let l := eval vm_compute in (logs Demo.foreign) in
    change (logs Demo.foreign) with l.
    constructor; [|constructor].
    exists "p-0001". split; [reflexivity|]. split; [discriminate|].
    split; [simpl; lia|vm_compute; reflexivity].
  - vm_compute; reflexivity.
  - split; [exact T|]. split; [|vm_compute; reflexivity].
    let l := eval vm_compute in (table (db Demo.state1)) in
    change (table (db Demo.state1)) with l.
    repeat constructor.
Defined.

Lemma stored_batch_statements_witness :
  exists vs,
    history (client Demo.state1) =
      (SBegin, true) :: map (fun v => (SInsert v, true)) vs ++ [(SCommit, true)] /\
    List.length vs = 2.
Proof.
  destruct (stored_batch_statements Demo.two_events Demo.state Demo.stored Demo.state1)
    as (vs & H & F).
  - vm_compute; reflexivity.
  - exists vs. split; [exact H|].
    apply Forall2_length in F. rewrite <- F. vm_compute; reflexivity.
Defined.

Lemma failed_batch_stops_at_first_failure_witness :
  let st := {| db := store Demo.server; client := Demo.bound; env := Demo.failing 2 |} in
  let X := storeBatchLogs Demo.two_events st in
  map snd (history (client (snd X))) = [true; true; false; true] /\
  exists oks failed b,
    history (client (snd X)) =
      map (fun s => (s, true)) oks ++ [(failed, false); (SRollback, b)].
Proof.
  intros st X. split; [vm_compute; reflexivity|].
  destruct (failed_batch_stops_at_first_failure Demo.two_events st (DbError 2) (snd X))
    as (oks & failed & b & H & _).
  - vm_compute; reflexivity.
  - exists oks, failed, b. exact H.
Defined.

Lemma retrieval_changes_nothing_witness :
  let X := retrieve Search Demo.all_of_tenant Demo.state1 in
  db (snd X) = db Demo.state1 /\
  current_tenant (client (snd X)) = current_tenant (client Demo.state1) /\
  List.length (table (db Demo.state1)) = 2.
Proof.
  intros X.
  destruct (retrieval_changes_nothing Search Demo.all_of_tenant Demo.state1 (fst X) (snd X))
    as (D & T & _).
  - apply surjective_pairing.
  - split; [exact D|]. split; [exact T|vm_compute; reflexivity].
Defined.


Lemma getUserLogs_selects_witness :
  let X := getUserLogs (Demo.by_employee "EMP123") Demo.state1 in
  total_count (Demo.value_of Demo.no_page (fst X)) = 1%Z /\
  exists tn keep,
    current_tenant (client Demo.state1) = Some tn /\
    total_count (Demo.value_of Demo.no_page (fst X)) =
      Z.of_nat (List.length (filter keep (visible (db Demo.state1) (client Demo.state1)))).
Proof.
  intros X. split; [vm_compute; reflexivity|].
  destruct (getUserLogs_selects (Demo.by_employee "EMP123") Demo.state1
              (Demo.value_of Demo.no_page (fst X)) (snd X)) as (tn & keep & T & _ & C & _).
  - vm_compute; reflexivity.
  - exists tn, keep. split; [exact T|exact C].
Defined.

Lemma getAppLogs_selects_witness :
  let X := getAppLogs (Demo.by_function "MOBILE_APP" "CHECK_IN") Demo.state1 in
  total_count (Demo.value_of Demo.no_page (fst X)) = 1%Z /\
  exists tn keep,
    current_tenant (client Demo.state1) = Some tn /\
    total_count (Demo.value_of Demo.no_page (fst X)) =
      Z.of_nat (List.length (filter keep (visible (db Demo.state1) (client Demo.state1)))).
Proof.
  intros X. split; [vm_compute; reflexivity|].
  destruct (getAppLogs_selects (Demo.by_function "MOBILE_APP" "CHECK_IN") Demo.state1
              (Demo.value_of Demo.no_page (fst X)) (snd X)) as (tn & keep & T & _ & C & _).
  - vm_compute; reflexivity.
  - exists tn, keep. split; [exact T|exact C].
Defined.

Lemma searchLogs_selects_witness :
  let X := searchLogs Demo.all_of_tenant Demo.state1 in
  total_count (Demo.value_of Demo.no_page (fst X)) = 2%Z /\
  exists tn keep,
    current_tenant (client Demo.state1) = Some tn /\
    total_count (Demo.value_of Demo.no_page (fst X)) =
      Z.of_nat (List.length (filter keep (visible (db Demo.state1) (client Demo.state1)))).
Proof.
  intros X. split; [vm_compute; reflexivity|].
  destruct (searchLogs_selects Demo.all_of_tenant Demo.state1
              (Demo.value_of Demo.no_page (fst X)) (snd X)) as (tn & keep & T & _ & C & _).
  - vm_compute; reflexivity.
  - exists tn, keep. split; [exact T|exact C].
Defined.


Lemma missing_comp_code_is_refused_untouched_witness :
  response (serve Demo.server1 Demo.by_other_method) =
    Some {| status := 400; payload := comp_code_required |} /\
  r_store (serve Demo.server1 Demo.by_other_method) = store Demo.server1.
Proof.
  destruct (missing_comp_code_is_refused_untouched Demo.server1 Demo.by_other_method)
    as (R & S & _).
  - reflexivity.
  - split; [exact R|exact S].
Defined.

Lemma non_string_tenant_fails_setup_witness :
  response (serve Demo.server Demo.with_array_tenant) =
    Some {| status := 500; payload := setup_failed |} /\
  releases (serve Demo.server Demo.with_array_tenant) = 1.
Proof.
  destruct (non_string_tenant_fails_setup Demo.server Demo.with_array_tenant
              (JArr [JStr "COMP001"]) fresh_session (snd (getClient (start Demo.server))))
    as (R & _ & _ & N & _).
  - vm_compute; reflexivity.
  - discriminate.
  - vm_compute; reflexivity.
  - split; [exact R|exact N].
Defined.

Lemma pool_stays_within_max_witness :
  total (r_pool (serve Demo.server (Demo.read LogsSearch []))) <= pool_max /\
  total (r_pool (serve Demo.server (Demo.read LogsSearch []))) = 1.
Proof.
  destruct (pool_stays_within_max Demo.server (Demo.read LogsSearch [])) as (M & _).
  - simpl. unfold pool_max. lia.
  - simpl. lia.
  - split; [exact M|vm_compute; reflexivity].
Defined.

Lemma validated_metadata_is_an_object_witness :
  truthy (Some (l_metadata Demo.first_log)) = true /\
  v_metadata (values_of Demo.two_events "b" Demo.first_log "p" None) =
    JSON_stringify (l_metadata Demo.first_log).
Proof.
  destruct (validated_metadata_is_an_object Demo.check_in Demo.first_log Demo.two_events
              "b" "p" None) as (T & V & _).
  - vm_compute; reflexivity.
  - split; [exact T|exact V].
Defined.

Lemma validated_entry_fits_columns_witness :
  (exists row,
     coerce_row 1 (values_of Demo.two_events "BATCH_20260101_7d9f3a00" Demo.first_log
                     "p-0001" (Some 1767340800000%Z)) = Some row /\
     process_id row = "p-0001" /\ comp_code row = "COMP001" /\
     source_app row = "MOBILE_APP" /\ reference_id row = None) /\
  batchSchema (req_body (Demo.batch_of "COMP001" [Demo.with_nul])) = Valid Demo.one_with_nul /\
  coerce_row 1 (values_of Demo.one_with_nul "BATCH_20260101_7d9f3a00"
                  (hd Demo.no_log (logs Demo.one_with_nul)) "p-0003"
                  (Some 1767340800000%Z)) = None.
Proof.
  split; [|split; [vm_compute; reflexivity|]].
  - eexists. split.
    + etransitivity.
      * apply (validated_entry_fits_columns
                 (req_body (Demo.batch_of "COMP001" [Demo.check_in; Demo.submit_leave]))
                 Demo.two_events Demo.first_log "BATCH_20260101_7d9f3a00" "p-0001"
                 1767340800000%Z
                 (JObj [("location", JStr "Quezon City"); ("device", JStr "Android")]) 1%Z).
        -- vm_compute; reflexivity.
        -- vm_compute. left. reflexivity.
        -- left. simpl. lia.
        -- simpl. lia.
        -- vm_compute; reflexivity.
      * vm_compute; reflexivity.
    + vm_compute. auto.
  - etransitivity.
    + apply (validated_entry_fits_columns
               (req_body (Demo.batch_of "COMP001" [Demo.with_nul]))
               Demo.one_with_nul (hd Demo.no_log (logs Demo.one_with_nul))
               "BATCH_20260101_7d9f3a00" "p-0003" 1767340800000%Z (JObj []) 1%Z).
      * vm_compute; reflexivity.
      * vm_compute. left. reflexivity.
      * left. simpl. lia.
      * simpl. lia.
      * vm_compute; reflexivity.
    + vm_compute; reflexivity.
Defined.

Lemma one_invalid_entry_rejects_batch_witness :
  let req := Demo.batch_of "COMP001" [Demo.check_in; JObj Demo.tagged] in
  logSchema (Some Demo.check_in) <> ZodError /\
  batchSchema (req_body req) = ZodError /\
  r_store (serve Demo.server req) = store Demo.server /\
  response (serve Demo.server req) = Some {| status := 400; payload := validation_failed |}.
Proof.
  intros req. split; [vm_compute; discriminate|].
  destruct (one_invalid_entry_rejects_batch Demo.server req
              [Demo.check_in; JObj Demo.tagged] (JObj Demo.tagged))
    as (B & S & R & _).
  - reflexivity.
  - reflexivity.
  - reflexivity.
  - right. left. reflexivity.
  - vm_compute; reflexivity.
  - split; [exact B|]. split; [exact S|]. eapply R; vm_compute; reflexivity.
Defined.

Lemma empty_batch_rejected_witness :
  let req := Demo.batch_of "COMP001" [] in
  batchSchema (req_body req) = ZodError /\
  r_store (serve Demo.server req) = store Demo.server /\
  response (serve Demo.server req) = Some {| status := 400; payload := validation_failed |}.
Proof.
  intros req.
  destruct (empty_batch_rejected Demo.server req) as (B & S & R & _).
  - reflexivity.
  - reflexivity.
  - reflexivity.
  - split; [exact B|]. split; [exact S|]. eapply R; vm_compute; reflexivity.
Defined.

Lemma unknown_parameter_rejected_witness :
  let req := Demo.read (LogsUser "EMP123") [("source_app", JStr "MOBILE_APP")] in
  r_store (serve Demo.server1 req) = store Demo.server1 /\
  response (serve Demo.server1 req) = Some {| status := 400; payload := invalid_query |}.
Proof.
  intros req.
  destruct (unknown_parameter_rejected Demo.server1 req "source_app" (JStr "MOBILE_APP"))
    as (S & R & _).
  - reflexivity.
  - reflexivity.
  - reflexivity.
  - split; [exact S|]. eapply R; vm_compute; reflexivity.
Defined.

Lemma page_answer_is_consistent_witness :
  let r := serve Demo.server1 (Demo.read LogsSearch []) in
  option_map status (response r) = Some 200 /\
  2 = List.length (Demo.rows_served r) /\ descending (Demo.rows_served r).
Proof.
  intros r. split; [vm_compute; reflexivity|].
  destruct (page_answer_is_consistent Demo.server1 (Demo.read LogsSearch [])
              (Demo.rows_served r) 2 2 50 0) as (_ & L & _ & _ & _ & _ & _ & _ & _ & _ & D).
  - vm_compute; reflexivity.
  - split; [exact L|exact D].
Defined.

Lemma stored_rows_belong_to_tenant_witness :
  let req := Demo.batch_of "COMP001" [Demo.check_in; Demo.submit_leave] in
  exists new,
    table (r_store (serve Demo.server req)) = table (store Demo.server) ++ new /\
    Forall (fun r => comp_code r = "COMP001") new /\
    List.length (table (r_store (serve Demo.server req))) = 2.
Proof.
  intros req.
  destruct (stored_rows_belong_to_tenant Demo.server req "Logs successfully stored" 2
              "BATCH_20260101_7d9f3a00") as (A & entries & new & C & _ & _ & _ & T & _ & F).
  - constructor.
  - vm_compute; reflexivity.
  - exists new. split; [exact T|]. split; [|vm_compute; reflexivity].
    assert (EA : A = "COMP001") by (simpl in C; congruence). subst A.
    eapply Forall_impl; [|exact F]. intros r (E & _). exact E.
Defined.

Lemma served_rows_belong_to_tenant_witness :
  let r := serve Demo.server1 (Demo.read LogsSearch []) in
  Forall (fun row => comp_code row = "COMP001") (Demo.rows_served r) /\
  List.length (Demo.rows_served r) = 2.
Proof.
  intros r. split; [|vm_compute; reflexivity].
  destruct (served_rows_belong_to_tenant Demo.server1 (Demo.read LogsSearch [])
              (Demo.rows_served r) 2 2 50 0) as (A & G & _ & F).
  - vm_compute; reflexivity.
  - assert (EA : A = "COMP001") by (simpl in G; congruence). subst A. exact F.
Defined.

Lemma failed_sync_keeps_queue_witness :
  let c := Demo.two_logged in
  let c1 := Client.settle 0 Client.Rejected c in
  List.length (Client.suspended c) = 1 /\
  List.length (Client.queue (Client.logger c)) = 2 /\
  Client.queue (Client.logger c1) = Client.queue (Client.logger c) /\
  exists p, Client.posted (Client.forceSync c1) = Client.posted c ++ [p] /\
            logs_of p = Some (JArr (map JObj (Client.queue (Client.logger c)))).
Proof.
  intros c c1. split; [vm_compute; reflexivity|]. split; [vm_compute; reflexivity|].
  destruct (failed_sync_keeps_queue
              [Client.Log Demo.checked_in; Client.Log Demo.leave_submitted]
              None (Some "super-secret-key-comp001-2026") Demo.quiet
              (hd [] (Client.suspended c)) Client.Rejected)
    as (Q & _ & _ & rest & p & E & _ & Po & L).
  - vm_compute; reflexivity.
  - left. reflexivity.
  - split; [exact Q|]. exists p. split; [exact Po|].
    unfold c. unfold Demo.two_logged. rewrite E. exact L.
Defined.

Lemma successful_sync_clears_sent_witness :
  let c := Demo.two_logged in
  let c1 := Client.settle 0 (Client.Resolved (Some (JObj [("success", JBool true)]))) c in
  Client.isSyncing (Client.logger c1) = false /\
  List.length (Client.queue (Client.logger c)) = 2 /\
  List.length (Client.queue (Client.logger c1)) = 1.
Proof.
  intros c c1.
  destruct (successful_sync_clears_sent
              [Client.Log Demo.checked_in; Client.Log Demo.leave_submitted]
              None (Some "super-secret-key-comp001-2026") Demo.quiet
              (hd [] (Client.suspended c)) (JObj [("success", JBool true)]))
    as (I & _).
  - repeat constructor.
  - vm_compute; reflexivity.
  - discriminate.
  - split; [exact I|]. split; vm_compute; reflexivity.
Defined.

Lemma invalid_entry_blocks_the_queue_witness :
  let c := Client.run Demo.stuck
             (Client.fresh None (Some "super-secret-key-comp001-2026") Demo.quiet) in
  List.length (Client.queue (Client.logger c)) = 1 /\
  Client.logger (Nat.iter 3 failed_round c) = Client.logger c /\
  exists p, logs_of p = Some (JArr (map JObj (Client.queue (Client.logger c)))) /\
            r_store (serve Demo.server1 (request_of p)) = store Demo.server1.
Proof.
  intros c. split; [vm_compute; reflexivity|].
  destruct (invalid_entry_blocks_the_queue Demo.stuck None
              (Some "super-secret-key-comp001-2026") Demo.quiet
              (hd [] (Client.queue (Client.logger c))) Demo.server1 3)
    as (L & p & _ & Lg & _ & S & _).
  - vm_compute; reflexivity.
  - vm_compute. left. reflexivity.
  - vm_compute; reflexivity.
  - split; [exact L|]. exists p. split; [exact Lg|exact S].
Defined.

Lemma returned_batch_is_in_the_table_witness :
  known (table (db Demo.state1)) "p-0001" = true /\
  known (table (db Demo.state1)) "p-0002" = true /\
  exists new, table (db Demo.state1) = table (db Demo.state) ++ new /\
              NoDup (map process_id new).
Proof.
  destruct (returned_batch_is_in_the_table Demo.two_events Demo.state Demo.stored Demo.state1)
    as (K & new & T & N & _).
  - reflexivity.
  - let l := eval vm_compute in (logs Demo.two_events) in
    change (logs Demo.two_events) with l.
    constructor; [|constructor; [|constructor]].
    + exists "p-0001". split; [reflexivity|]. split; [discriminate|simpl; lia].
    + exists "p-0002". split; [reflexivity|]. split; [discriminate|simpl; lia].
  - vm_compute; reflexivity.
  - split; [vm_compute; reflexivity|]. split; [vm_compute; reflexivity|].
    exists new. split; [exact T|exact N].
Defined.


Lemma only_a_batch_changes_the_store_witness :
  r_store (serve Demo.server1 (Demo.read LogsSearch [])) = store Demo.server1 /\
  List.length (table (store Demo.server1)) = 2.
Proof.
  split; [|vm_compute; reflexivity].
  apply (only_a_batch_changes_the_store Demo.server1 (Demo.read LogsSearch [])).
  left. discriminate.
Defined.

End FurtherRuns.
